(** * Account provisioning daemon (google_daemon/accounts.py)

    A shallow embedding of the account manager: the user-name check, the
    sudoers editor with its advisory lock, and the rewriting of a user's
    authorized_keys file.  Pure helpers are plain functions; code that
    touches the operating system runs in a state-and-exception monad over
    an explicit world (file system, password database, pending I/O
    failures, the sequence of system calls made so far). *)

From Stdlib Require Import Ascii String ZArith Lia.
From stdpp Require Import gmap strings list fin_maps.

Open Scope string_scope.

(** ** Python built-ins used by the module *)

Module Py.

Definition ord (c : ascii) : nat := nat_of_ascii c.
Definition chr (n : nat) : ascii := ascii_of_nat n.

(** [range(lo, hi)]; empty when [hi <= lo]. *)
Definition range2 (lo hi : nat) : list nat := seq lo (hi - lo).

(** [range(n)] for a possibly negative [n]: [range(-1)] is empty. *)
Definition range (n : Z) : list nat := seq 0 (Z.to_nat n).

Definition len {A} (l : list A) : Z := Z.of_nat (length l).

(** The line feed character and the one-character string ['\n']. *)
Definition LF : ascii := "010"%char.
Definition NL : string := String LF "".

(** [s.startswith(p)]. *)
Definition startswith (s p : string) : bool := String.prefix p s.

(** [s.endswith(p)]: [s] is [p], or what follows its first character
    ends with [p]. *)
Fixpoint endswith (s p : string) : bool :=
  String.eqb s p ||
  match s with
  | EmptyString => false
  | String _ s' => endswith s' p
  end.

(** [filter(f, s)] on a [str] yields the [str] of the characters kept. *)
Fixpoint filter_str (f : ascii -> bool) (s : string) : string :=
  match s with
  | EmptyString => EmptyString
  | String c s' => if f c then String c (filter_str f s') else filter_str f s'
  end.

(** Truth value of a [str] and of a [list]: non-empty. *)
Definition truthy_str (s : string) : bool :=
  match s with EmptyString => false | _ => true end.
Definition truthy {A} (l : list A) : bool :=
  match l with [] => false | _ => true end.

(** [''.join(ls)]: what [writelines] leaves in an empty file. *)
Fixpoint join (ls : list string) : string :=
  match ls with
  | [] => EmptyString
  | l :: ls' => l +:+ join ls'
  end.

(** [f.readlines()] on the content [s]: cut after every line feed, each
    line keeps its terminator, a last line without one is kept as is.
    The first line of what follows a character is the rest of that
    character's line. *)
Fixpoint readlines (s : string) : list string :=
  match s with
  | EmptyString => []
  | String c s' =>
      if Ascii.eqb c LF then NL :: readlines s'
      else match readlines s' with
           | [] => [String c EmptyString]
           | l :: ls => String c l :: ls
           end
  end.

(** Characters the [re] module counts as [\s] in a byte pattern:
    space, tab, line feed, carriage return, form feed, vertical tab. *)
Definition is_space (c : ascii) : bool :=
  match ord c with
  | 32 | 9 | 10 | 13 | 12 | 11 => true
  | _ => false
  end.

End Py.

(** ** Module-level helpers *)

Definition EnsureTrailingNewline (line : string) : string :=
  if Py.endswith line Py.NL then line else line +:+ Py.NL.

(** [re.match(r'^%s\s+' % user, line)].  The user name is spliced into the
    pattern unescaped, so it is read as a regular expression.  This is the
    matcher for the names the module lets through [IsValidUsername]: every
    character of such a name stands for itself, except ['.'], which
    matches any character but a line feed.  After the name, [\s+] asks for
    at least one white-space character. *)
Fixpoint IsUserSudoerEntry (user line : string) : bool :=
  match user, line with
  | EmptyString, String c _ => Py.is_space c
  | String u user', String c line' =>
      (if Ascii.eqb u "." then negb (Ascii.eqb c Py.LF) else Ascii.eqb c u)
      && IsUserSudoerEntry user' line'
  | _, EmptyString => false
  end.

(** Returns the matching lines (Python 2 [filter]); callers test the
    list for emptiness. *)
Definition IsUserSudoerInLines (user : string) (sudoer_lines : list string)
  : list string :=
  List.filter (IsUserSudoerEntry user) sudoer_lines.

(** ** class Accounts: the user-name check *)

Definition VALID_USERNAME_CHARS : gset ascii :=
  list_to_set
    (map Py.chr (Py.range2 (Py.ord "A") (Py.ord "Z" + 1)) ++
     map Py.chr (Py.range2 (Py.ord "a") (Py.ord "z" + 1)) ++
     map Py.chr (Py.range2 (Py.ord "0") (Py.ord "9" + 1)) ++
     ["_"; "-"; "."]%char).

Definition InvalidCharacterFilter (c : ascii) : bool :=
  bool_decide (c ∉ VALID_USERNAME_CHARS).

Definition IsValidUsername (username : string) : bool :=
  if Py.truthy_str (Py.filter_str InvalidCharacterFilter username) then false
  else if Py.startswith username "-" then false
  else true.

(** ** The pairing scan of WriteAuthorizedSshKeysFile *)

Definition GOOGLE_MARKER : string := "# Added by Google".

(** [[i for i in range(len(lines) - 1) if lines[i].startswith(marker)]]
    followed by [[i + 1 for i in google_added_ixs]]. *)
Definition google_added_ixs (lines : list string) : list nat :=
  let ixs :=
    List.filter
      (fun i => match lines !! i with
                | Some l => Py.startswith l GOOGLE_MARKER
                | None => false
                end)
      (Py.range (Py.len lines - 1)) in
  ixs ++ map S ixs.

(** [[lines[i] for i in range(len(lines)) if i not in google_added_ixs]]. *)
Definition user_lines (lines : list string) : list string :=
  let ixs := google_added_ixs lines in
  flat_map
    (fun i => if bool_decide (i ∈ ixs) then []
              else match lines !! i with Some l => [l] | None => [] end)
    (Py.range (Py.len lines)).


(** ** The operating system as seen by the daemon *)

Inductive errno :=
| EEXIST | ENOENT | ENOTDIR | EISDIR | EACCES | EPERM | EIO | ENOSPC | EROFS.

#[global] Instance errno_eq_dec : EqDecision errno.
Proof. solve_decision. Defined.

(** The exception classes the module names, and [OverflowError], which
    none of its handlers names.  In Python 2 [IOError] and [OSError] are
    distinct: file objects raise the first, [os.*] calls the second. *)
Inductive exn :=
| OSError (e : errno)
| IOError (e : errno)
| KeyError
| OverflowError.

#[global] Instance exn_eq_dec : EqDecision exn.
Proof. solve_decision. Defined.

Inductive outcome (A : Type) :=
| Done (a : A)
| Raised (e : exn).
Arguments Done {A} a.
Arguments Raised {A} e.

Inductive ftype := S_IFREG | S_IFDIR.

Record inode := Inode {
  i_type : ftype;
  i_data : string;
  i_mode : Z;
  i_uid : Z;
  i_gid : Z }.

Record pwent := Pwent { pw_dir : string; pw_uid : Z; pw_gid : Z }.

(** The calls that reach outside the process.  A file object is named by
    the path it was opened on. *)
Inductive call :=
| os_path_isfile_c (p : string)
| os_path_isdir_c (p : string)
| os_path_exists_c (p : string)
| open_r_c (p : string)
| open_w_c (p : string)
| readlines_c (p : string)
| write_c (p : string) (data : string)
| close_c (p : string)
| os_open_excl_c (p : string)
| os_unlink_c (p : string)
| os_chmod_c (p : string) (mode : Z)
| os_fchmod_c (p : string) (mode : Z)
| os_chown_c (p : string) (uid gid : Z)
| os_fchown_c (p : string) (uid gid : Z)
| os_mkdir_c (p : string) (mode : Z)
| mkstemp_c
| visudo_c (p : string)
| rename_c (src dst : string)
| getpwnam_c (name : string)
| getgrnam_c (name : string)
| useradd_c (name : string) (groups : list string).

(** One entry of the call sequence: the call, the error it raised if any,
    and the file system as it stands once the call is over.  These are the
    points at which another process can observe the files. *)
Record event := Event {
  ev_call : call;
  ev_error : option exn;
  ev_fs : gmap string inode }.

Inductive level := INFO | WARNING | ERROR.

(** [faults] is what the environment has in store for the calls that can
    fail for reasons outside the file-system model (permissions, a full
    disk, ...): each such call takes the head; [Some e] makes it raise
    [e] without effect.  [tmpnames] is the sequence of candidate names the
    [tempfile] module will draw. *)
Record world := World {
  fs : gmap string inode;
  passwd : gmap string pwent;
  group : gset string;
  faults : list (option errno);
  tmpnames : list string;
  trace : list event;
  logged : list (level * string) }.

(** The injected [system_module] is not part of this file; what the
    account manager needs from it is the verdict of the policy checker on
    a file's content and the outcome of asking for a new account. *)
Record system_module := System {
  visudo_ok : string -> bool;
  useradd_result : string -> list string -> option pwent }.

Definition M (A : Type) : Type := world -> outcome A * world.

Definition ret {A} (a : A) : M A := fun w => (Done a, w).

Definition bind {A B} (m : M A) (k : A -> M B) : M B :=
  fun w =>
    match m w with
    | (Done a, w') => k a w'
    | (Raised e, w') => (Raised e, w')
    end.

Definition raise {A} (e : exn) : M A := fun w => (Raised e, w).

Declare Scope py_scope.
Delimit Scope py_scope with py.
Notation "x <- m ;; k" := (bind m (fun x => k))
  (at level 100, m at next level, right associativity) : py_scope.
Notation "m ;;; k" := (bind m (fun _ => k))
  (at level 100, right associativity) : py_scope.
Open Scope py_scope.

(** [try: body finally: fin].  An exception out of [fin] replaces the
    outcome of [body]. *)
Definition try_finally {A} (body : M A) (fin : M unit) : M A :=
  fun w =>
    match body w with
    | (r, w1) =>
        match fin w1 with
        | (Done _, w2) => (r, w2)
        | (Raised e, w2) => (Raised e, w2)
        end
    end.

(** [try: body except classes as e: handler]. *)
Definition try_except {A} (body : M A) (classes : exn -> bool)
    (handler : exn -> M A) : M A :=
  fun w =>
    match body w with
    | (Raised e, w1) => if classes e then handler e w1 else (Raised e, w1)
    | r => r
    end.

Definition is_OSError (e : exn) : bool :=
  match e with OSError _ => true | _ => false end.
Definition is_IOError (e : exn) : bool :=
  match e with IOError _ => true | _ => false end.
Definition is_IOError_or_OSError (e : exn) : bool :=
  is_IOError e || is_OSError e.
Definition is_OverflowError (e : exn) : bool :=
  match e with OverflowError => true | _ => false end.

(** [for x in xs: body x]. *)
Fixpoint for_each {A} (xs : list A) (body : A -> M unit) : M unit :=
  match xs with
  | [] => ret tt
  | x :: xs' => body x ;;; for_each xs' body
  end.

Definition record (c : call) (err : option exn) (w : world) : world :=
  World (fs w) (passwd w) (group w) (faults w) (tmpnames w)
        (trace w ++ [Event c err (fs w)]) (logged w).

Definition set_fs (m : gmap string inode) (w : world) : world :=
  World m (passwd w) (group w) (faults w) (tmpnames w) (trace w) (logged w).

Definition pop_fault (w : world) : world :=
  World (fs w) (passwd w) (group w) (tail (faults w)) (tmpnames w)
        (trace w) (logged w).

(** A call that cannot fail and changes nothing. *)
Definition probe {A} (c : call) (f : world -> A) : M A :=
  fun w => (Done (f w), record c None w).

(** A call that can fail.  It first takes its turn in [faults], raising
    [cls e] when the environment says so; when the environment lets it
    through, [body] gives its effect on the file system or the exception
    the file system itself dictates. *)
Definition syscall {A} (c : call) (cls : errno -> exn)
    (body : gmap string inode -> exn + (A * gmap string inode)) : M A :=
  fun w =>
    let w1 := pop_fault w in
    match head (faults w) with
    | Some (Some e) => (Raised (cls e), record c (Some (cls e)) w1)
    | _ =>
        match body (fs w) with
        | inl x => (Raised x, record c (Some x) w1)
        | inr (a, m) => (Done a, record c None (set_fs m w1))
        end
    end.

(** A call that the library refuses on its arguments: it raises before
    anything reaches the system, and takes no turn in [faults]. *)
Definition refused {A} (c : call) (e : exn) : M A :=
  fun w => (Raised e, record c (Some e) w).

Definition octal (a b c : Z) : Z := (a * 64 + b * 8 + c)%Z.
Definition S_IWUSR : Z := octal 2 0 0.

Definition is_reg (m : gmap string inode) (p : string) : bool :=
  match m !! p with
  | Some (Inode S_IFREG _ _ _ _) => true
  | _ => false
  end.

Definition is_dir (m : gmap string inode) (p : string) : bool :=
  match m !! p with
  | Some (Inode S_IFDIR _ _ _ _) => true
  | _ => false
  end.

Definition os_path_isfile (p : string) : M bool :=
  probe (os_path_isfile_c p) (fun w => is_reg (fs w) p).

Definition os_path_isdir (p : string) : M bool :=
  probe (os_path_isdir_c p) (fun w => is_dir (fs w) p).

Definition os_path_exists (p : string) : M bool :=
  probe (os_path_exists_c p) (fun w => bool_decide (is_Some (fs w !! p))).

(** [open(p, 'r')]. *)
Definition open_r (p : string) : M string :=
  syscall (open_r_c p) IOError
    (fun m => match m !! p with
              | None => inl (IOError ENOENT)
              | Some (Inode S_IFDIR _ _ _ _) => inl (IOError EISDIR)
              | Some _ => inr (p, m)
              end).

(** [open(p, 'w')]: the file is created if missing and cut to length
    zero at once if present; owner and permissions of an existing file
    stay. *)
Definition open_w (p : string) : M string :=
  syscall (open_w_c p) IOError
    (fun m => match m !! p with
              | None => inr (p, <[p := Inode S_IFREG "" (octal 6 4 4) 0 0]> m)
              | Some (Inode S_IFDIR _ _ _ _) => inl (IOError EISDIR)
              | Some (Inode S_IFREG _ mode uid gid) =>
                  inr (p, <[p := Inode S_IFREG "" mode uid gid]> m)
              end).

Definition file_readlines (f : string) : M (list string) :=
  syscall (readlines_c f) IOError
    (fun m => match m !! f with
              | Some i => inr (Py.readlines (i_data i), m)
              | None => inl (IOError ENOENT)
              end).

(** [f.write(data)].  Writes are not buffered here: each one reaches the
    file, at its end, before the next call. *)
Definition file_write (f : string) (data : string) : M unit :=
  syscall (write_c f data) IOError
    (fun m => match m !! f with
              | Some (Inode t d mode uid gid) =>
                  inr (tt, <[f := Inode t (d +:+ data) mode uid gid]> m)
              | None => inl (IOError ENOENT)
              end).

Definition file_writelines (f : string) (lines : list string) : M unit :=
  for_each lines (file_write f).

(** [f.seek(0)] moves no data. *)
Definition file_seek (f : string) (pos : Z) : M unit := ret tt.

(** Closing a file object: nothing is left to flush. *)
Definition file_close (f : string) : M unit :=
  probe (close_c f) (fun _ => tt).

(** [with opened as f: body f]. *)
Definition with_file {A} (opened : M string) (body : string -> M A) : M A :=
  f <- opened ;;
  try_finally (body f) (file_close f).

(** [os.open(p, os.O_EXCL|os.O_CREAT)]. *)
Definition os_open_excl_creat (p : string) : M string :=
  syscall (os_open_excl_c p) OSError
    (fun m => match m !! p with
              | Some _ => inl (OSError EEXIST)
              | None => inr (p, <[p := Inode S_IFREG "" (octal 7 5 5) 0 0]> m)
              end).

(** [os.close(fd)]: a system call like the others, which can fail; the
    file the descriptor stood for stays as it is. *)
Definition os_close (fd : string) : M unit :=
  syscall (close_c fd) OSError (fun m => inr (tt, m)).

(** [os.fdopen(fd, 'w+')] wraps the descriptor; the file is not cut. *)
Definition os_fdopen (fd : string) : M string := ret fd.

Definition os_unlink (p : string) : M unit :=
  syscall (os_unlink_c p) OSError
    (fun m => match m !! p with
              | None => inl (OSError ENOENT)
              | Some (Inode S_IFDIR _ _ _ _) => inl (OSError EISDIR)
              | Some _ => inr (tt, delete p m)
              end).

Definition chmod_in (m : gmap string inode) (p : string) (mode : Z)
  : exn + (unit * gmap string inode) :=
  match m !! p with
  | None => inl (OSError ENOENT)
  | Some (Inode t d _ uid gid) => inr (tt, <[p := Inode t d mode uid gid]> m)
  end.

(** [uid_t] and [gid_t] are unsigned 32-bit integers; [(uid_t)-1] asks
    to leave the id as it is. *)
Definition UID_MAX : Z := 4294967295.

(** An id that names a user or a group. *)
Definition is_id (v : Z) : bool := (0 <=? v)%Z && (v <? UID_MAX)%Z.

(** How [os.chown] and [os.fchown] read an id argument: [-1], and the
    same bit pattern [2^32 - 1], leave the id alone ([Some None]); an
    integer outside [-1 .. 2^32 - 1] is refused with [OverflowError]
    ([None]). *)
Definition id_arg (v : Z) : option (option Z) :=
  if (v =? -1)%Z || (v =? UID_MAX)%Z then Some None
  else if is_id v then Some (Some v)
  else None.

Definition chown_in (m : gmap string inode) (p : string) (uid gid : option Z)
  : exn + (unit * gmap string inode) :=
  match m !! p with
  | None => inl (OSError ENOENT)
  | Some (Inode t d mode u g) =>
      inr (tt, <[p := Inode t d mode (default u uid) (default g gid)]> m)
  end.

Definition os_chmod (p : string) (mode : Z) : M unit :=
  syscall (os_chmod_c p mode) OSError (fun m => chmod_in m p mode).

Definition os_fchmod (f : string) (mode : Z) : M unit :=
  syscall (os_fchmod_c f mode) OSError (fun m => chmod_in m f mode).

Definition os_chown (p : string) (uid gid : Z) : M unit :=
  match id_arg uid, id_arg gid with
  | Some u, Some g =>
      syscall (os_chown_c p uid gid) OSError (fun m => chown_in m p u g)
  | _, _ => refused (os_chown_c p uid gid) OverflowError
  end.

Definition os_fchown (f : string) (uid gid : Z) : M unit :=
  match id_arg uid, id_arg gid with
  | Some u, Some g =>
      syscall (os_fchown_c f uid gid) OSError (fun m => chown_in m f u g)
  | _, _ => refused (os_fchown_c f uid gid) OverflowError
  end.

(** The first candidate name that is free, and the candidates left. *)
Fixpoint first_free (m : gmap string inode) (names : list string)
  : option string * list string :=
  match names with
  | [] => (None, [])
  | n :: rest =>
      match m !! n with
      | None => (Some n, rest)
      | Some _ => first_free m rest
      end
  end.

Definition set_tmpnames (names : list string) (w : world) : world :=
  World (fs w) (passwd w) (group w) (faults w) names (trace w) (logged w).

(** [tempfile.mkstemp()]: draws names until one is free and creates that
    file, empty, readable and writable by its owner only; gives the
    descriptor and the name.  When the names run out it raises
    [IOError(EEXIST)], as the library does. *)
Definition tempfile_mkstemp : M (string * string) :=
  fun w =>
    let (free, rest) := first_free (fs w) (tmpnames w) in
    syscall mkstemp_c OSError
      (fun m => match free with
                | Some n => inr ((n, n), <[n := Inode S_IFREG "" (octal 6 0 0) 0 0]> m)
                | None => inl (IOError EEXIST)
                end)
      (set_tmpnames rest w).

Definition logging_log (l : level) (msg : string) : M unit :=
  fun w => (Done tt,
            World (fs w) (passwd w) (group w) (faults w) (tmpnames w)
                  (trace w) (logged w ++ [(l, msg)])).
Definition logging_info := logging_log INFO.
Definition logging_warning := logging_log WARNING.
Definition logging_error := logging_log ERROR.

Definition str_errno (e : errno) : string :=
  match e with
  | EEXIST => "EEXIST" | ENOENT => "ENOENT" | ENOTDIR => "ENOTDIR"
  | EISDIR => "EISDIR" | EACCES => "EACCES" | EPERM => "EPERM"
  | EIO => "EIO" | ENOSPC => "ENOSPC" | EROFS => "EROFS"
  end.

(** [str(e)], as the log shows an exception. *)
Definition str_exn (e : exn) : string :=
  match e with
  | OSError n => "[Errno " +:+ str_errno n +:+ "]"
  | IOError n => "[Errno " +:+ str_errno n +:+ "]"
  | KeyError => "KeyError"
  | OverflowError => "OverflowError"
  end.

Definition exn_errno (e : exn) : option errno :=
  match e with
  | OSError n | IOError n => Some n
  | KeyError | OverflowError => None
  end.

(** [os.path.join(a, b)]. *)
Definition os_path_join (a b : string) : string :=
  if Py.startswith b "/" then b
  else if negb (Py.truthy_str a) || Py.endswith a "/" then a +:+ b
  else a +:+ "/" +:+ b.

(** [p[:p.rfind('/') + 1]]: [p] up to and including its last slash. *)
Fixpoint upto_last_slash (p : string) : string :=
  match p with
  | EmptyString => EmptyString
  | String c p' =>
      match upto_last_slash p' with
      | EmptyString => if Ascii.eqb c "/" then "/" else EmptyString
      | h => String c h
      end
  end.

(** [s.rstrip('/')]. *)
Fixpoint rstrip_slash (s : string) : string :=
  match s with
  | EmptyString => EmptyString
  | String c s' =>
      match rstrip_slash s' with
      | EmptyString => if Ascii.eqb c "/" then EmptyString else String c EmptyString
      | r => String c r
      end
  end.

(** [os.path.dirname(p)]: the head is stripped of trailing slashes unless
    it consists of slashes only. *)
Definition os_path_dirname (p : string) : string :=
  let head := upto_last_slash p in
  if Py.truthy_str head && Py.truthy_str (rstrip_slash head)
  then rstrip_slash head
  else head.

(** [os.mkdir(p, mode)]: the parent has to be a directory. *)
Definition os_mkdir (p : string) (mode : Z) : M unit :=
  syscall (os_mkdir_c p mode) OSError
    (fun m => match m !! p with
              | Some _ => inl (OSError EEXIST)
              | None =>
                  if is_dir m (os_path_dirname p)
                  then inr (tt, <[p := Inode S_IFDIR "" mode 0 0]> m)
                  else inl (OSError ENOENT)
              end).

(** [pwd.getpwnam(name)] and [grp.getgrnam(name)] raise [KeyError] for an
    unknown name. *)
Definition pwd_getpwnam (name : string) : M pwent :=
  fun w =>
    match passwd w !! name with
    | Some ent => (Done ent, record (getpwnam_c name) None w)
    | None => (Raised KeyError, record (getpwnam_c name) (Some KeyError) w)
    end.

Definition grp_getgrnam (name : string) : M unit :=
  fun w =>
    if bool_decide (name ∈ group w)
    then (Done tt, record (getgrnam_c name) None w)
    else (Raised KeyError, record (getgrnam_c name) (Some KeyError) w).

Definition is_KeyError (e : exn) : bool :=
  match e with KeyError => true | _ => false end.

Definition SUDOERS : string := "/etc/sudoers".
Definition SUDOERS_TMP : string := "/etc/sudoers.tmp".

(** ** class Accounts *)

Section AccountsClass.

(** [self.system], the injected system module. *)
Variable system : system_module.

(** Modelled from the spec: [system.OpenFile], a file-system primitive of
    the OS adapter (open for reading or for writing). *)
Definition OpenFile_r (p : string) : M string := open_r p.
Definition OpenFile_w (p : string) : M string := open_w p.

(** Modelled from the spec: [system.IsValidSudoersFile], the policy
    checker, which validates the syntax of the file at [p] without
    applying it. *)
Definition IsValidSudoersFile (p : string) : M bool :=
  probe (visudo_c p)
    (fun w => match fs w !! p with
              | Some i => visudo_ok system (i_data i)
              | None => false
              end).

(** Modelled from the spec: [system.CreateTempFile(delete=False)], a new
    temporary file; the file object is named by its path. *)
Definition CreateTempFile : M string :=
  p <- tempfile_mkstemp ;; ret (snd p).

(** Modelled from the spec: [system.MoveFile(src, dst)], replacing the
    destination by the source with rename semantics. *)
Definition MoveFile (src dst : string) : M unit :=
  syscall (rename_c src dst) OSError
    (fun m => match m !! src with
              | None => inl (OSError ENOENT)
              | Some i =>
                  if is_dir m dst then inl (OSError EISDIR)
                  else inr (tt, <[dst := i]> (delete src m))
              end).

(** Modelled from the spec: [system.UserAdd(user, groups)], the
    create-user primitive of the OS adapter; it reports failure without
    raising. *)
Definition UserAdd (user : string) (groups : list string) : M unit :=
  fun w =>
    let w1 := record (useradd_c user groups) None w in
    match useradd_result system user groups with
    | Some ent =>
        (Done tt,
         World (fs w1) (<[user := ent]> (passwd w1)) (group w1) (faults w1)
               (tmpnames w1) (trace w1) (logged w1))
    | None => (Done tt, w1)
    end.

Definition LockSudoers : M bool :=
  try_except
    (f <- os_open_excl_creat SUDOERS_TMP ;;
     os_close f ;;;
     ret true)
    is_OSError
    (fun e =>
       (if bool_decide (exn_errno e = Some EEXIST)
        then logging_warning "/etc/sudoers.tmp lock file already exists"
        else logging_warning
               ("Could not create /etc/sudoers.tmp lock file: " +:+ str_exn e)) ;;;
       ret false).

Definition UnlockSudoers : M bool :=
  try_except
    (os_unlink SUDOERS_TMP ;;;
     ret true)
    is_OSError
    (fun e =>
       if bool_decide (exn_errno e = Some ENOENT) then ret true
       else
         logging_warning ("Could not remove /etc/sudoers.tmp: " +:+ str_exn e) ;;;
         ret false).

Definition MakeUserSudoer (user : string) : M unit :=
  isfile <- os_path_isfile SUDOERS ;;
  if negb isfile then
    logging_info ("Did not grant admin access to " +:+ user +:+
                  ". /etc/sudoers not found.")
  else
  sudoer_lines <- with_file (OpenFile_r SUDOERS) file_readlines ;;
  if Py.truthy (IsUserSudoerInLines user sudoer_lines) then ret tt
  else
  locked <- LockSudoers ;;
  if negb locked then
    logging_warning ("Did not grant admin access to " +:+ user +:+
                     ". /etc/sudoers locked.")
  else
  try_finally
    (try_except
       (sudoer_lines <- with_file (OpenFile_r SUDOERS) file_readlines ;;
        if Py.truthy (IsUserSudoerInLines user sudoer_lines) then ret tt
        else
        let sudoer_lines := (sudoer_lines ++ [user +:+ " ALL=NOPASSWD: ALL"])%list in
        let sudoer_lines := map EnsureTrailingNewline sudoer_lines in
        tmp <- tempfile_mkstemp ;;
        let tmp_sudoers_fd := fst tmp in
        let tmp_sudoers_fname := snd tmp in
        with_file (os_fdopen tmp_sudoers_fd)
          (fun tmp_sudoer_f =>
             file_writelines tmp_sudoer_f sudoer_lines ;;;
             file_seek tmp_sudoer_f 0) ;;;
        try_finally
          (valid <- IsValidSudoersFile tmp_sudoers_fname ;;
           if negb valid then
             logging_warning ("Did not grant admin access to " +:+ user +:+
                              ". Sudoers was invalid.")
           else
           os_chmod SUDOERS (octal 6 4 0) ;;;
           with_file (OpenFile_w SUDOERS)
             (fun sudoer_f =>
                file_writelines sudoer_f sudoer_lines ;;;
                os_fchmod sudoer_f (Z.lor S_IWUSR (octal 6 4 0)) ;;;
                try_except
                  (os_fchmod sudoer_f (octal 4 4 0))
                  is_IOError_or_OSError
                  (fun e =>
                     logging_warning
                       ("Could not restore perms to /etc/sudoers: " +:+ str_exn e))))
          (try_except
             (os_unlink tmp_sudoers_fname)
             is_IOError_or_OSError
             (fun e => ret tt)))
       is_IOError_or_OSError
       (fun e =>
          logging_warning ("Could not grant " +:+ user +:+ " admin access: " +:+
                           str_exn e)))
    (_ <- UnlockSudoers ;; ret tt).

Definition WriteAuthorizedSshKeysFile (authorized_keys_file : string)
    (ssh_keys : list string) (uid gid : Z) : M unit :=
  new_keys_path <-
    with_file CreateTempFile
      (fun keys_file =>
         let new_keys_path := keys_file in
         found <- os_path_exists authorized_keys_file ;;
         lines <-
           (if found then
              with_file (OpenFile_r authorized_keys_file)
                (fun original_keys =>
                   file_seek original_keys 0 ;;;
                   file_readlines original_keys)
            else ret []) ;;
         let user_lines := user_lines lines in
         os_fchmod keys_file (octal 6 0 0) ;;;
         os_fchown keys_file uid gid ;;;
         for_each user_lines
           (fun user_line => file_write keys_file (EnsureTrailingNewline user_line)) ;;;
         for_each ssh_keys
           (fun ssh_key =>
              file_write keys_file (GOOGLE_MARKER +:+ Py.NL) ;;;
              file_write keys_file (EnsureTrailingNewline ssh_key)) ;;;
         ret new_keys_path) ;;
  MoveFile new_keys_path authorized_keys_file.

(** [filter(f, xs)] for a test that makes calls. *)
Fixpoint filter_calls {A} (f : A -> M bool) (xs : list A) : M (list A) :=
  match xs with
  | [] => ret []
  | x :: xs' =>
      keep <- f x ;;
      rest <- filter_calls f xs' ;;
      ret (if keep then x :: rest else rest)
  end.

Definition GroupsThatExist (groups_list : list string) : M (list string) :=
  filter_calls
    (fun group =>
       try_except (grp_getgrnam group ;;; ret true)
                  is_KeyError (fun e => ret false))
    groups_list.

Definition GetUserInfo (user : string) : M (string * Z * Z) :=
  pwent <- pwd_getpwnam user ;;
  ret (pw_dir pwent, pw_uid pwent, pw_gid pwent).

Definition UserExists (user : string) : M bool :=
  try_except (pwd_getpwnam user ;;; ret true)
             is_KeyError (fun e => ret false).

(** [EnsureDir] calls itself on the parent directory, a strictly shorter
    path; [depth] bounds the number of nested calls. *)
Fixpoint EnsureDir_within (depth : nat) (dir_path : string) (uid gid : Z)
  : M bool :=
  isdir <- os_path_isdir dir_path ;;
  if isdir then ret true
  else
  let parent_dir := os_path_dirname dir_path in
  parent_ok <-
    (if negb (String.eqb parent_dir dir_path) then
       match depth with
       | O => ret false
       | S depth' => EnsureDir_within depth' parent_dir uid gid
       end
     else ret true) ;;
  if negb parent_ok then ret false
  else
  try_except
    (os_mkdir dir_path (octal 7 5 5) ;;;
     os_chown dir_path uid gid ;;;
     ret true)
    is_OSError
    (fun e =>
       isdir <- os_path_isdir dir_path ;;
       if isdir then ret true
       else
         logging_error ("Could not create " +:+ dir_path +:+ " because " +:+
                        str_exn e) ;;;
         ret false).

Definition EnsureDir (dir_path : string) (uid gid : Z) : M bool :=
  EnsureDir_within (String.length dir_path) dir_path uid gid.

Definition EnsureHomeDir (home_dir : string) (uid gid : Z) : M bool :=
  isdir <- os_path_isdir home_dir ;;
  if isdir then ret true
  else
  made <- EnsureDir home_dir 0 0 ;;
  if negb made then ret false
  else
  os_chown home_dir uid gid ;;;
  ret true.

(** The result is [Some false] where the source returns [False] and
    [None] where it falls off the end. *)
Definition AuthorizeSshKeys (user : string) (ssh_keys : list string)
  : M (option bool) :=
  info <- GetUserInfo user ;;
  let home_dir := fst (fst info) in
  let uid := snd (fst info) in
  let gid := snd info in
  let ssh_dir := os_path_join home_dir ".ssh" in
  isdir <- os_path_isdir ssh_dir ;;
  returned <-
    (if negb isdir then
       try_except
         (home_ok <- EnsureHomeDir home_dir uid gid ;;
          if negb home_ok then ret true
          else
          os_mkdir ssh_dir (octal 7 0 0) ;;;
          os_chown ssh_dir uid gid ;;;
          ret false)
         is_OSError
         (fun e =>
            logging_warning ("Could not mkdir " +:+ ssh_dir +:+ ": " +:+ str_exn e) ;;;
            ret false)
     else ret false) ;;
  if (returned : bool) then ret (Some false)
  else
  isdir <- os_path_isdir ssh_dir ;;
  if negb isdir then ret (Some false)
  else
  let authorized_keys_file := os_path_join ssh_dir "authorized_keys" in
  try_except
    (WriteAuthorizedSshKeysFile authorized_keys_file ssh_keys uid gid)
    is_IOError
    (fun e =>
       logging_warning ("Could not update " +:+ authorized_keys_file +:+
                        " due to " +:+ str_exn e)) ;;;
  ret None.

(** What [__init__] leaves in the object and the methods read. *)
Record Accounts := { default_user_groups : list string }.

Definition Accounts__init__ : M Accounts :=
  groups <- GroupsThatExist ["adm"; "video"; "dip"; "plugdev"] ;;
  ret {| default_user_groups := groups |}.

Definition CreateUser (self : Accounts) (username : string)
    (ssh_keys : list string) : M unit :=
  if negb (IsValidUsername username) then
    logging_warning
      ("Not creating account for user " +:+ username +:+
       ".  Usernames must comprise characters [A-Za-z0-9._-] and not start with '-'.")
  else
  found <- UserExists username ;;
  (if negb found then UserAdd username (default_user_groups self) else ret tt) ;;;
  found <- UserExists username ;;
  if found then
    MakeUserSudoer username ;;;
    _ <- AuthorizeSshKeys username ssh_keys ;;
    ret tt
  else ret tt.

End AccountsClass.

(** ** Vocabulary of the properties *)

Fixpoint str_forall (f : ascii -> bool) (s : string) : bool :=
  match s with
  | EmptyString => true
  | String c s' => f c && str_forall f s'
  end.

Fixpoint str_exists (f : ascii -> bool) (s : string) : bool :=
  match s with
  | EmptyString => false
  | String c s' => f c || str_exists f s'
  end.

(** The character class [[A-Za-z0-9._-]], by character codes. *)
Definition in_portable_class (c : ascii) : bool :=
  let n := Py.ord c in
  (65 <=? n)%nat && (n <=? 90)%nat || (97 <=? n)%nat && (n <=? 122)%nat
  || (48 <=? n)%nat && (n <=? 57)%nat
  || Ascii.eqb c "." || Ascii.eqb c "_" || Ascii.eqb c "-".

(** A line begins with the literal [user] followed by white space. *)
Definition begins_with_user (user line : string) : Prop :=
  ∃ c rest, line = user +:+ String c rest ∧ Py.is_space c = true.

(** Reading of the pairing scan by the words of the design: the line at
    index [i] is left out when it is a marker line that is not the last
    line, or when the line just before it is a marker line.  [is_marker]
    says what counts as a marker line. *)
Definition marker_at (is_marker : string -> bool) (lines : list string)
    (i : nat) : bool :=
  match lines !! i with
  | Some l => is_marker l
  | None => false
  end.

Definition left_out (is_marker : string -> bool) (lines : list string)
    (i : nat) : bool :=
  (bool_decide (S i < length lines) && marker_at is_marker lines i)
  || match i with
     | S j => marker_at is_marker lines j
     | O => false
     end.

Definition preserved (is_marker : string -> bool) (lines : list string)
  : list string :=
  flat_map
    (fun i => match lines !! i with
              | Some l => if left_out is_marker lines i then [] else [l]
              | None => []
              end)
    (seq 0 (length lines)).

(** The line is the marker comment, with or without its line feed. *)
Definition is_exact_marker (l : string) : bool :=
  String.eqb l GOOGLE_MARKER || String.eqb l (GOOGLE_MARKER +:+ Py.NL).

(** The line begins with the marker comment, as the scan tests it. *)
Definition has_marker_prefix (l : string) : bool :=
  Py.startswith l GOOGLE_MARKER.

(** The pairing scan read line by line: [prev] tells whether the line
    before was a marker line with a line after it. *)
Fixpoint scan (prev : bool) (lines : list string) : list string :=
  match lines with
  | [] => []
  | l :: rest =>
      let m := has_marker_prefix l && Py.truthy rest in
      if prev || m then scan m rest else l :: scan m rest
  end.

(** An authorized_keys file as a sequence of entries: a line of the
    user's own, or a managed pair of a marker line and a key line. *)
Inductive entry :=
| Unmanaged (line : string)
| Managed (marker key : string).

Definition entry_lines (e : entry) : list string :=
  match e with
  | Unmanaged l => [l]
  | Managed m k => [m; k]
  end.

Definition file_lines (es : list entry) : list string :=
  flat_map entry_lines es.

Definition unmanaged_lines (es : list entry) : list string :=
  flat_map (fun e => match e with Unmanaged l => [l] | Managed _ _ => [] end) es.

Definition count_managed (es : list entry) : nat :=
  length (List.filter (fun e => match e with Managed _ _ => true | _ => false end) es).

(** A marker line begins with the marker comment; a line of the user's
    own and a key line do not. *)
Definition entry_ok (e : entry) : bool :=
  match e with
  | Unmanaged l => negb (has_marker_prefix l)
  | Managed m k => has_marker_prefix m && negb (has_marker_prefix k)
  end.

(** The managed pairs written for a key list. *)
Definition managed_pairs (keys : list string) : list string :=
  flat_map (fun k => [GOOGLE_MARKER +:+ Py.NL; EnsureTrailingNewline k]) keys.

(** The design's wording of a written line, stated without the code's
    helper: the last character of [s] is a line feed. *)
Fixpoint ends_with_LF (s : string) : bool :=
  match s with
  | EmptyString => false
  | String c EmptyString => Ascii.eqb c Py.LF
  | String _ s' => ends_with_LF s'
  end.

(** A line as the file is to hold it: as it is when it ends with a line
    feed, with one put at its end otherwise. *)
Definition with_line_feed (l : string) : string :=
  if ends_with_LF l then l else l +:+ Py.NL.

(** What a merge is to leave: the lines kept, then for each key the
    marker line and the key line. *)
Definition merged (kept keys : list string) : list string :=
  (map with_line_feed kept ++
   flat_map (fun k => ["# Added by Google" +:+ Py.NL; with_line_feed k]) keys)%list.

(** ** Reasoning about runs *)

(** [wp m Q w]: running [m] from [w] ends in an outcome and a world that
    satisfy [Q]. *)
Definition wp {A} (m : M A) (Q : outcome A → world → Prop) (w : world) : Prop :=
  Q (m w).1 (m w).2.

(** The calls a run of [m] from [w] adds to the call sequence. *)
Definition events_of {A} (m : M A) (w : world) : list event :=
  drop (length (trace w)) (trace (m w).2).

(** Every call made since [w0] satisfies [E]. *)
Definition tracked (E : event → Prop) (w0 w : world) : Prop :=
  ∃ evs, trace w = (trace w0 ++ evs)%list ∧ Forall E evs.

(** What a call leaves: the new file system, one fault less when the
    call takes its turn in [faults], one more entry in the call
    sequence, the rest as it was. *)
Record after (popped : bool) (w w' : world) (m : gmap string inode)
    (ev : event) : Prop := {
  after_fs : fs w' = m;
  after_faults : faults w' = if popped then tail (faults w) else faults w;
  after_tmpnames : tmpnames w' = tmpnames w;
  after_passwd : passwd w' = passwd w;
  after_group : group w' = group w;
  after_trace : trace w' = (trace w ++ [ev])%list;
  after_logged : logged w' = logged w }.

(** What is at the path: nothing, or a file with this content. *)
Definition content_at (p : string) (m : gmap string inode) : option string :=
  i_data <$> m !! p.

Definition rule_line (user : string) : string := user +:+ " ALL=NOPASSWD: ALL".

(** The lines the sudoers editor writes when the file holds [d0]. *)
Definition candidate_lines (user d0 : string) : list string :=
  map EnsureTrailingNewline (Py.readlines d0 ++ [rule_line user]).

Definition candidate (user d0 : string) : string :=
  Py.join (candidate_lines user d0).

Definition is_prefix_of (d s : string) : Prop := ∃ rest, s = d +:+ rest.

(** The run from [w] to [w'] has made the calls [evs] and left the file
    system [m]; it has met no injected fault if there was none to meet. *)
Record moved (w w' : world) (m : gmap string inode) (evs : list event)
  : Prop := {
  moved_fs : fs w' = m;
  moved_trace : trace w' = (trace w ++ evs)%list;
  moved_faults : faults w = [] → faults w' = [] }.

(** Calls that only look. *)
Definition read_only (c : call) : bool :=
  match c with
  | os_path_isfile_c _ | os_path_isdir_c _ | os_path_exists_c _
  | open_r_c _ | readlines_c _ | close_c _ | visudo_c _
  | getpwnam_c _ | getgrnam_c _ => true
  | _ => false
  end.

(** The event is a call that only looks, made on the file system [m]. *)
Definition reads (m : gmap string inode) (ev : event) : Prop :=
  ev_fs ev = m ∧ read_only (ev_call ev) = true.

(** Calls that change the content of the sudoers file or take it away. *)
Definition writes_sudoers (c : call) : bool :=
  match c with
  | open_w_c p | write_c p _ | os_unlink_c p => String.eqb p SUDOERS
  | rename_c src dst => String.eqb src SUDOERS || String.eqb dst SUDOERS
  | _ => false
  end.

(** The call tries to take the lock; it has taken it. *)
Definition lock_attempt (ev : event) : bool :=
  match ev_call ev with
  | os_open_excl_c p => String.eqb p SUDOERS_TMP
  | _ => false
  end.

Definition lock_acquired (ev : event) : bool :=
  lock_attempt ev && bool_decide (ev_error ev = None).

(** The call has closed the descriptor of the marker it created:
    [LockSudoers] is about to answer [True]. *)
Definition lock_granted (ev : event) : bool :=
  match ev_call ev with
  | close_c p => String.eqb p SUDOERS_TMP
  | _ => false
  end && bool_decide (ev_error ev = None).

Definition is_unlink (c : call) : bool :=
  match c with os_unlink_c _ => true | _ => false end.

(** The call has found and left the files as [m] and does not write the
    sudoers file. *)
Definition calm (m : gmap string inode) (ev : event) : Prop :=
  ev_fs ev = m ∧ writes_sudoers (ev_call ev) = false.

(** A computation only adds to the call sequence, and only calls that
    are [allowed]. *)
Definition calls_only (allowed : call → bool) {A} (m : M A) : Prop :=
  ∀ w, ∃ evs, trace (m w).2 = (trace w ++ evs)%list ∧
              Forall (fun ev => allowed (ev_call ev) = true) evs.

Abbreviation grows := (calls_only (fun _ => true)).

Definition is_rename (c : call) : bool :=
  match c with rename_c _ _ => true | _ => false end.

Definition lock_inode : inode := Inode S_IFREG "" (octal 7 5 5) 0 0.

(** ** A small machine for examples *)

Definition demo_system : system_module :=
  System (fun _ => true) (fun user _ => Some (Pwent ("/home/" +:+ user) 1000 1000)).

Definition demo_sudoers : inode :=
  Inode S_IFREG ("root ALL=(ALL) ALL" +:+ Py.NL) (octal 4 4 0) 0 0.

Definition demo_world : world :=
  World (<[SUDOERS := demo_sudoers]> (<["/" := Inode S_IFDIR "" (octal 7 5 5) 0 0]> ∅))
        ∅ ∅ [] ["/tmp/tmpA"; "/tmp/tmpB"] [] [].

Definition demo_world_locked : world :=
  set_fs (<[SUDOERS_TMP := lock_inode]> (fs demo_world)) demo_world.

(** After the calls [evs] the lock has been given back in [w]: the last
    call is the unlinking of the marker, and where that call went through
    the marker is gone. *)
Definition released (evs : list event) (w : world) : Prop :=
  ∃ err, last evs = Some (Event (os_unlink_c SUDOERS_TMP) err (fs w)) ∧
         (err = None → fs w !! SUDOERS_TMP = None).

Definition no_LF (s : string) : bool :=
  str_forall (fun a => negb (Ascii.eqb a Py.LF)) s.

(** A line with its line feed at the end and none before. *)
Definition terminated (l : string) : Prop :=
  ∃ b, l = b +:+ Py.NL ∧ no_LF b = true.

(** The number of lines of the content [d] that are the rule line of
    [user]. *)
Definition count_rule_lines (user d : string) : nat :=
  length (List.filter (fun l => String.eqb l (rule_line user +:+ Py.NL))
                      (Py.readlines d)).

(** The file system [m] after the lines [done] have been written at the
    end of the file [f], which held [d]. *)
Definition grown (f : string) (t : ftype) (d : string) (mode uid gid : Z)
    (m : gmap string inode) (done : list string) : gmap string inode :=
  <[f := Inode t (d +:+ Py.join done) mode uid gid]> m.

Definition tmp_inode : inode := Inode S_IFREG "" (octal 6 0 0) 0 0.

(** What the sudoers file may hold while the editor runs for [user] on a
    file that held [c0]: what it held, or, once the checker has accepted
    the candidate, a beginning of the candidate. *)
Definition sudoers_ok (system : system_module) (user : string)
    (c0 c : option string) : Prop :=
  c = c0 ∨
  ∃ d0 d, c0 = Some d0 ∧ visudo_ok system (candidate user d0) = true ∧
          c = Some d ∧ is_prefix_of d (candidate user d0).

(** Every call since [w0] has left the sudoers file in such a state, and
    it now satisfies [P]. *)
Definition good (system : system_module) (user : string) (w0 : world)
    (P : option string → Prop) (w : world) : Prop :=
  tracked (fun ev => sudoers_ok system user (content_at SUDOERS (fs w0))
                       (content_at SUDOERS (ev_fs ev))) w0 w ∧
  P (content_at SUDOERS (fs w)).

(** A checker that refuses every file. *)
Definition strict_system : system_module :=
  System (fun _ => false) (fun user _ => Some (Pwent ("/home/" +:+ user) 1000 1000)).

(** Where a run that meets no injected fault leaves the sudoers file
    that held [c0]: as it was, or, when no entry was found for [user] and
    the checker accepted the candidate, holding the candidate. *)
Definition granted_or_same (system : system_module) (user : string)
    (c0 c : option string) : Prop :=
  c = c0 ∨
  ∃ d0, c0 = Some d0 ∧
        Py.truthy (IsUserSudoerInLines user (Py.readlines d0)) = false ∧
        visudo_ok system (candidate user d0) = true ∧
        c = Some (candidate user d0).

(** The world after two calls of the sudoers editor in a row. *)
Definition twice (system : system_module) (user : string) (w : world) : world :=
  (MakeUserSudoer system user (MakeUserSudoer system user w).2).2.

(** A machine whose sudoers file already grants [alice] twice. *)
Definition doubled_world : world :=
  set_fs (<[SUDOERS := Inode S_IFREG
                         (rule_line "alice" +:+ Py.NL +:+ rule_line "alice" +:+ Py.NL)
                         (octal 4 4 0) 0 0]> (fs demo_world))
         demo_world.

(** A machine with an authorized_keys file that holds two lines of the
    user's own around one managed pair. *)
Definition demo_keys_path : string := "/home/alice/.ssh/authorized_keys".

Definition demo_entries : list entry :=
  [Unmanaged ("ssh-rsa OWN1 alice@laptop" +:+ Py.NL);
   Managed (GOOGLE_MARKER +:+ Py.NL) ("ssh-rsa OLD alice@cloud" +:+ Py.NL);
   Unmanaged ("ssh-rsa OWN2 alice@desk" +:+ Py.NL)].

Definition demo_keys_world : world :=
  set_fs (<[demo_keys_path := Inode S_IFREG (Py.join (file_lines demo_entries))
                                    (octal 6 0 0) 1000 1000]> (fs demo_world))
         demo_world.

(** A keys file that starts with a comment which only begins with the
    marker text. *)
Definition lookalike_lines : list string :=
  ["# Added by Googlebot" +:+ Py.NL;
   "ssh-rsa AAAA user@host" +:+ Py.NL;
   "ssh-rsa BBBB other@host" +:+ Py.NL].

Definition lookalike_world : world :=
  set_fs (<[demo_keys_path := Inode S_IFREG (Py.join lookalike_lines)
                                    (octal 6 0 0) 1000 1000]> (fs demo_world))
         demo_world.

(** The small machine on which the last call of a successful grant, the
    unlinking of the lock marker, is refused. *)
Definition demo_world_sticky : world :=
  World (fs demo_world) ∅ ∅ (replicate 16 None ++ [Some EACCES])%list
        (tmpnames demo_world) [] [].

(** The small machine on which closing the descriptor of the new lock
    marker fails. *)
Definition demo_world_close_fails : world :=
  World (fs demo_world) ∅ ∅ [None; None; None; Some EIO]
        (tmpnames demo_world) [] [].

(** No line but possibly the last begins with the marker comment. *)
Fixpoint plain_but_last (lines : list string) : bool :=
  match lines with
  | [] => true
  | l :: rest =>
      match rest with
      | [] => true
      | _ => negb (has_marker_prefix l) && plain_but_last rest
      end
  end.

(** A computation raises only exceptions that satisfy [P]. *)
Definition raises_only (P : exn → bool) {A} (m : M A) : Prop :=
  ∀ w, match (m w).1 with
       | Raised e => P e = true
       | Done _ => True
       end.

Abbreviation never_raises := (raises_only (fun _ => false)).



(** The world [w] of a run that started in [w0] and has met no injected
    fault: the files are [m], no fault is pending, the rest is as in
    [w0]. *)
Definition settled (w0 w : world) (m : gmap string inode) : Prop :=
  fs w = m ∧ faults w = [] ∧ tmpnames w = tmpnames w0 ∧
  passwd w = passwd w0 ∧ group w = group w0.

(** The content [s] with a line feed put after its last line if that
    line lacks one. *)
Definition with_final_newline (s : string) : string :=
  match s with
  | EmptyString => EmptyString
  | _ => with_line_feed s
  end.

Definition is_useradd (c : call) : bool :=
  match c with useradd_c _ _ => true | _ => false end.

(** The small machine with an account for [alice]. *)
Definition demo_world_alice : world :=
  World (fs demo_world) (<["alice" := Pwent "/home/alice" 1000 1000]> ∅) ∅ []
        (tmpnames demo_world) [] [].

(** A computation keeps the property [I] of the files: if it holds at
    the start, it holds after every call made and at the end. *)
Definition keeps (I : gmap string inode → Prop) {A} (m : M A) : Prop :=
  ∀ w, I (fs w) →
       I (fs (m w).2) ∧
       ∃ evs, trace (m w).2 = (trace w ++ evs)%list ∧
              Forall (fun ev => I (ev_fs ev)) evs.

(** * Properties *)

(** ** The user-name check *)

Lemma InvalidCharacterFilter_class (c : ascii) :
  InvalidCharacterFilter c = negb (in_portable_class c).
Proof.
  destruct c as [[] [] [] [] [] [] [] []]; vm_compute; reflexivity.
Qed.

Lemma filter_str_nil_iff (f : ascii -> bool) (s : string) :
  Py.truthy_str (Py.filter_str f s) = str_exists f s.
Proof.
  induction s as [|c s IH]; simpl; [reflexivity|].
  destruct (f c); simpl; [reflexivity | exact IH].
Qed.

Lemma str_exists_negb_forall (f : ascii -> bool) (s : string) :
  str_exists (fun c => negb (f c)) s = negb (str_forall f s).
Proof.
  induction s as [|c s IH]; simpl; [reflexivity|].
  rewrite IH. destruct (f c); reflexivity.
Qed.

Lemma startswith_cons (c a : ascii) (s : string) :
  Py.startswith (String c s) (String a "") = Ascii.eqb c a.
Proof.
  unfold Py.startswith. cbn [String.prefix].
  destruct (Ascii.ascii_dec a c) as [<-|H].
  - rewrite Ascii.eqb_refl. destruct s; reflexivity.
  - symmetry. apply Ascii.eqb_neq. congruence.
Qed.

Lemma IsValidUsername_eq (username : string) :
  IsValidUsername username =
  str_forall in_portable_class username && negb (Py.startswith username "-").
Proof.
  unfold IsValidUsername.
  rewrite filter_str_nil_iff.
  assert (E : str_exists InvalidCharacterFilter username =
              str_exists (fun c => negb (in_portable_class c)) username).
  { clear. induction username as [|c s IH]; simpl; [reflexivity|].
    rewrite IH, InvalidCharacterFilter_class. reflexivity. }
  rewrite E, str_exists_negb_forall.
  destruct (str_forall in_portable_class username); simpl; [|reflexivity].
  destruct (Py.startswith username "-"); reflexivity.
Qed.

(** C9.  A name with a character outside [[A-Za-z0-9._-]] is refused; a
    name that starts with ['-'] is refused; a name made of characters of
    that class only and not starting with ['-'] is accepted. *)
Theorem IsValidUsername_spec (username : string) :
  (str_exists (fun c => negb (in_portable_class c)) username = true →
   IsValidUsername username = false) ∧
  (∀ rest, IsValidUsername (String "-" rest) = false) ∧
  (str_forall in_portable_class username = true →
   (∀ rest, username ≠ String "-" rest) →
   IsValidUsername username = true).
Proof.
  split; [|split].
  - intros H. rewrite IsValidUsername_eq.
    rewrite str_exists_negb_forall in H.
    destruct (str_forall in_portable_class username); [discriminate | reflexivity].
  - intros rest. rewrite IsValidUsername_eq.
    rewrite startswith_cons.
    destruct (str_forall in_portable_class (String "-" rest)); reflexivity.
  - intros Hall Hdash. rewrite IsValidUsername_eq, Hall. simpl.
    destruct username as [|c s]; [reflexivity|].
    rewrite startswith_cons.
    destruct (Ascii.eqb_spec c "-") as [->|Hne].
    + exfalso. exact (Hdash s eq_refl).
    + reflexivity.
Qed.

Lemma IsValidUsername_spec_witness :
  IsValidUsername "bad/name" = false ∧
  IsValidUsername "-rf" = false ∧
  IsValidUsername "alice.b_c-9" = true.
Proof.
  split; [|split].
  - apply (proj1 (IsValidUsername_spec "bad/name")). reflexivity.
  - apply (proj1 (proj2 (IsValidUsername_spec "x"))).
  - apply (proj2 (proj2 (IsValidUsername_spec "alice.b_c-9"))).
    + reflexivity.
    + intros rest H. discriminate H.
Defined.

(** ** The membership test of the sudoers editor *)

Lemma IsUserSudoerEntry_literal (user : string) (c : ascii) (rest : string) :
  str_forall (fun a => negb (Ascii.eqb a Py.LF)) user = true →
  Py.is_space c = true →
  IsUserSudoerEntry user (user +:+ String c rest) = true.
Proof.
  intros Hlf Hsp. induction user as [|u user IH]; simpl in *.
  - exact Hsp.
  - apply andb_true_iff in Hlf as [Hu Hrest].
    rewrite (IH Hrest), andb_true_r.
    destruct (Ascii.eqb u "."); [exact Hu | apply Ascii.eqb_refl].
Qed.

Lemma IsUserSudoerEntry_nodot (user line : string) :
  str_forall (fun a => negb (Ascii.eqb a ".")) user = true →
  IsUserSudoerEntry user line = true →
  begins_with_user user line.
Proof.
  revert line. induction user as [|u user IH]; intros line Hdot Hm.
  - destruct line as [|c rest]; [discriminate|].
    exists c, rest. split; [reflexivity | exact Hm].
  - destruct line as [|c line]; [discriminate|].
    simpl in Hdot, Hm.
    apply andb_true_iff in Hdot as [Hu Hrest].
    apply andb_true_iff in Hm as [Hc Hm].
    apply negb_true_iff in Hu. rewrite Hu in Hc.
    apply Ascii.eqb_eq in Hc as ->.
    destruct (IH line Hrest Hm) as (c' & rest & -> & Hsp).
    exists c', rest. split; [reflexivity | exact Hsp].
Qed.

Lemma portable_not_LF (user : string) :
  str_forall in_portable_class user = true →
  str_forall (fun a => negb (Ascii.eqb a Py.LF)) user = true.
Proof.
  induction user as [|u user IH]; simpl; [reflexivity|].
  intros H. apply andb_true_iff in H as [Hu Hrest].
  rewrite (IH Hrest), andb_true_r.
  destruct (Ascii.eqb_spec u Py.LF) as [->|]; [discriminate Hu | reflexivity].
Qed.

Lemma valid_username_portable (user : string) :
  IsValidUsername user = true → str_forall in_portable_class user = true.
Proof.
  rewrite IsValidUsername_eq. intros H.
  apply andb_true_iff in H as [H _]. exact H.
Qed.

(** For a valid name, a line that begins with the name and white space
    is always found by the test. *)
Lemma IsUserSudoerEntry_complete (user line : string) :
  IsValidUsername user = true →
  begins_with_user user line →
  IsUserSudoerEntry user line = true.
Proof.
  intros Hv (c & rest & -> & Hsp).
  apply IsUserSudoerEntry_literal; [|exact Hsp].
  apply portable_not_LF, valid_username_portable, Hv.
Qed.

(** For a valid name without a dot the test is exact. *)
Lemma IsUserSudoerInLines_nodot (user : string) (lines : list string) :
  IsValidUsername user = true →
  str_forall (fun a => negb (Ascii.eqb a ".")) user = true →
  Py.truthy (IsUserSudoerInLines user lines) = true ↔
  ∃ line, In line lines ∧ begins_with_user user line.
Proof.
  intros Hv Hdot. unfold IsUserSudoerInLines. split.
  - intros H.
    destruct (List.filter (IsUserSudoerEntry user) lines) as [|l ls] eqn:E;
      [discriminate|].
    assert (Hin : In l (List.filter (IsUserSudoerEntry user) lines))
      by (rewrite E; left; reflexivity).
    apply filter_In in Hin as [Hin Hm].
    exists l. split; [exact Hin|]. apply IsUserSudoerEntry_nodot; assumption.
  - intros (line & Hin & Hb).
    assert (Hf : In line (List.filter (IsUserSudoerEntry user) lines)).
    { apply filter_In. split; [exact Hin|].
      apply IsUserSudoerEntry_complete; assumption. }
    destruct (List.filter (IsUserSudoerEntry user) lines); [destruct Hf | reflexivity].
Qed.

(** C6.  The name is put into the pattern as it is, and a dot in a
    pattern stands for any character: for the valid name [a.b] the test
    finds an entry in a file whose only line is a rule for [axb], a line
    that does not begin with [a.b]. *)
Theorem IsUserSudoerInLines_dot_is_wildcard :
  let line := "axb ALL=NOPASSWD: ALL" +:+ Py.NL in
  IsValidUsername "a.b" = true ∧
  Py.truthy (IsUserSudoerInLines "a.b" [line]) = true ∧
  ¬ begins_with_user "a.b" line.
Proof.
  split; [reflexivity|]. split; [reflexivity|].
  intros (c & rest & H & _). discriminate H.
Qed.

(** ** The pairing scan *)

Lemma range_len_pred {A} (l : list A) :
  Py.range (Py.len l - 1) = seq 0 (length l - 1).
Proof. unfold Py.range, Py.len. f_equal. lia. Qed.

Lemma range_len {A} (l : list A) : Py.range (Py.len l) = seq 0 (length l).
Proof. unfold Py.range, Py.len. f_equal. lia. Qed.

Lemma google_added_ixs_left_out (lines : list string) (i : nat) :
  i < length lines →
  i ∈ google_added_ixs lines ↔ left_out has_marker_prefix lines i = true.
Proof.
  intros Hi. unfold google_added_ixs, left_out, marker_at.
  rewrite range_len_pred, elem_of_app, !list_elem_of_In, in_map_iff.
  setoid_rewrite filter_In. setoid_rewrite in_seq.
  rewrite orb_true_iff, andb_true_iff, bool_decide_eq_true.
  unfold has_marker_prefix. split.
  - intros [[Hr Hm] | (j & <- & Hr & Hm)].
    + left. split; [lia | exact Hm].
    + right. exact Hm.
  - intros [[Hr Hm] | Hm].
    + left. split; [lia | exact Hm].
    + destruct i as [|j]; [discriminate|].
      right. exists j. split; [reflexivity|]. split; [lia | exact Hm].
Qed.

Lemma flat_map_ext_seq {A} (f g : nat → list A) (a n : nat) :
  (∀ i, a ≤ i < a + n → f i = g i) →
  flat_map f (seq a n) = flat_map g (seq a n).
Proof.
  revert a. induction n as [|n IH]; intros a H; simpl; [reflexivity|].
  rewrite (H a) by lia. f_equal. apply IH. intros i Hi. apply H. lia.
Qed.

Lemma user_lines_preserved (lines : list string) :
  user_lines lines = preserved has_marker_prefix lines.
Proof.
  unfold user_lines, preserved. rewrite range_len.
  apply flat_map_ext_seq. intros i Hi.
  destruct (lines !! i) as [l|] eqn:El.
  - pose proof (google_added_ixs_left_out lines i ltac:(lia)) as Hix.
    destruct (left_out has_marker_prefix lines i).
    + rewrite bool_decide_eq_true_2; [reflexivity | apply Hix; reflexivity].
    + rewrite bool_decide_eq_false_2; [reflexivity|].
      intros Hin. apply Hix in Hin. discriminate.
  - case_bool_decide; reflexivity.
Qed.

(** C7, as the claim states it with an exact match, fails on the scan: a
    comment that only begins with the marker text is taken for a marker,
    and the line after it is dropped with it. *)
Lemma user_lines_not_exact_match :
  let lines := ["# Added by Googlebot" +:+ Py.NL;
                "ssh-rsa AAAA user@host" +:+ Py.NL;
                "ssh-rsa BBBB other@host" +:+ Py.NL] in
  user_lines lines = ["ssh-rsa BBBB other@host" +:+ Py.NL] ∧
  preserved is_exact_marker lines = lines ∧
  user_lines lines ≠ preserved is_exact_marker lines.
Proof.
  split; [reflexivity|]. split; [reflexivity|]. intros H. discriminate H.
Qed.

(** C7, amended.  A line is left out of the preserved lines exactly when
    it begins with the marker comment and is not the last line, or when
    the line just before it begins with the marker comment; the lines
    kept come verbatim in their original order.  A last line that does
    not follow such a marker line is kept, be it a marker line itself. *)
Theorem user_lines_pairing_scan (lines : list string) :
  user_lines lines = preserved has_marker_prefix lines ∧
  (∀ front final,
     lines = (front ++ [final])%list →
     match last front with
     | Some l => has_marker_prefix l
     | None => false
     end = false →
     last (user_lines lines) = Some final).
Proof.
  split; [apply user_lines_preserved|].
  intros front final -> Hprev.
  rewrite user_lines_preserved. unfold preserved.
  rewrite length_app. simpl length.
  replace (length front + 1) with (S (length front)) by lia.
  rewrite seq_S, flat_map_app. simpl.
  rewrite lookup_app_r by lia.
  replace (length front - length front) with 0 by lia. simpl.
  assert (Hout : left_out has_marker_prefix (front ++ [final]) (length front) = false).
  { unfold left_out. rewrite length_app. simpl length.
    rewrite bool_decide_eq_false_2 by lia. simpl.
    destruct (length front) as [|j] eqn:El; [reflexivity|].
    unfold marker_at. rewrite lookup_app_l by lia.
    rewrite last_lookup, El in Hprev. simpl in Hprev. exact Hprev. }
  rewrite Hout, app_nil_r. apply last_snoc.
Qed.

Lemma user_lines_pairing_scan_witness :
  last (user_lines ["ssh-rsa AAAA user@host" +:+ Py.NL; GOOGLE_MARKER +:+ Py.NL])
  = Some (GOOGLE_MARKER +:+ Py.NL).
Proof.
  apply (proj2 (user_lines_pairing_scan _) ["ssh-rsa AAAA user@host" +:+ Py.NL]).
  - reflexivity.
  - reflexivity.
Defined.
Lemma flat_map_seq_S {A} (f : nat → list A) (n : nat) :
  flat_map f (seq 0 (S n)) = (f 0 ++ flat_map (fun i => f (S i)) (seq 0 n))%list.
Proof.
  simpl. f_equal. rewrite <- seq_shift.
  generalize (seq 0 n) as l. induction l as [|i l IH]; simpl; [reflexivity|].
  rewrite IH. reflexivity.
Qed.

Lemma left_out_head (P : string → bool) (l : string) (rest : list string) :
  left_out P (l :: rest) 0 = P l && Py.truthy rest.
Proof.
  unfold left_out, marker_at. cbn [length].
  change ((l :: rest) !! 0) with (Some l).
  rewrite orb_false_r.
  destruct rest as [|r rest']; cbn [length Py.truthy].
  - rewrite bool_decide_eq_false_2 by lia. rewrite andb_false_r. reflexivity.
  - rewrite bool_decide_eq_true_2 by lia. rewrite andb_true_r. reflexivity.
Qed.

Lemma left_out_tail (P : string → bool) (l : string) (rest : list string) (i : nat) :
  left_out P (l :: rest) (S i) = left_out P rest i || P l && bool_decide (i = 0).
Proof.
  unfold left_out, marker_at. cbn [length].
  change ((l :: rest) !! S i) with (rest !! i).
  assert (Hd : bool_decide (S (S i) < S (length rest)) = bool_decide (S i < length rest)).
  { apply bool_decide_ext. lia. }
  rewrite Hd.
  destruct i as [|j].
  - change ((l :: rest) !! 0) with (Some l).
    rewrite (bool_decide_eq_true_2 (0 = 0)) by reflexivity.
    rewrite andb_true_r, orb_false_r. reflexivity.
  - change ((l :: rest) !! S j) with (rest !! j).
    rewrite (bool_decide_eq_false_2 (S j = 0)) by lia.
    rewrite andb_false_r, orb_false_r. reflexivity.
Qed.

Lemma preserved_scan_from (prev : bool) (lines : list string) :
  flat_map
    (fun i => match lines !! i with
              | Some l =>
                  if left_out has_marker_prefix lines i
                     || prev && bool_decide (i = 0)
                  then [] else [l]
              | None => []
              end)
    (seq 0 (length lines))
  = scan prev lines.
Proof.
  revert prev. induction lines as [|l rest IH]; intros prev; [reflexivity|].
  cbn [length]. rewrite flat_map_seq_S. cbn [scan].
  change ((l :: rest) !! 0) with (Some l). cbv beta iota.
  rewrite left_out_head.
  rewrite (bool_decide_eq_true_2 (0 = 0)) by reflexivity. rewrite andb_true_r.
  rewrite <- (IH (has_marker_prefix l && Py.truthy rest)).
  rewrite (orb_comm prev).
  assert (Etail :
    flat_map
      (fun i => match (l :: rest) !! S i with
                | Some l0 =>
                    if left_out has_marker_prefix (l :: rest) (S i)
                       || prev && bool_decide (S i = 0)
                    then [] else [l0]
                | None => []
                end) (seq 0 (length rest))
    = flat_map
        (fun i => match rest !! i with
                  | Some l0 =>
                      if left_out has_marker_prefix rest i
                         || has_marker_prefix l && Py.truthy rest
                            && bool_decide (i = 0)
                      then [] else [l0]
                  | None => []
                  end) (seq 0 (length rest))).
  { apply flat_map_ext_seq. intros i Hi.
    change ((l :: rest) !! S i) with (rest !! i).
    destruct (rest !! i) as [l0|] eqn:El; [|reflexivity].
    rewrite (bool_decide_eq_false_2 (S i = 0)) by lia.
    rewrite andb_false_r, orb_false_r, left_out_tail.
    assert (Ht : Py.truthy rest = true)
      by (destruct rest; [simpl in Hi; lia | reflexivity]).
    rewrite Ht, andb_true_r. reflexivity. }
  rewrite Etail.
  destruct (has_marker_prefix l && Py.truthy rest || prev); reflexivity.
Qed.

Lemma user_lines_scan (lines : list string) :
  user_lines lines = scan false lines.
Proof.
  rewrite user_lines_preserved, <- preserved_scan_from. unfold preserved.
  apply flat_map_ext_seq. intros i _.
  destruct (lines !! i); [|reflexivity].
  rewrite orb_false_r. reflexivity.
Qed.

Lemma scan_file_lines (es : list entry) :
  forallb entry_ok es = true →
  scan false (file_lines es) = unmanaged_lines es.
Proof.
  induction es as [|e es IH]; intros Hok; [reflexivity|].
  simpl in Hok. apply andb_true_iff in Hok as [He Hes].
  specialize (IH Hes).
  destruct e as [l|m k]; simpl in He.
  - apply negb_true_iff in He.
    change (file_lines (Unmanaged l :: es)) with (l :: file_lines es).
    cbn [scan]. rewrite He. simpl. rewrite IH. reflexivity.
  - apply andb_true_iff in He as [Hm Hk]. apply negb_true_iff in Hk.
    change (file_lines (Managed m k :: es)) with (m :: k :: file_lines es).
    cbn [scan]. rewrite Hm, Hk. simpl. exact IH.
Qed.

(** ** Rules for runs *)

Lemma wp_ret {A} (a : A) (Q : outcome A → world → Prop) (w : world) :
  Q (Done a) w → wp (ret a) Q w.
Proof. intros H. exact H. Qed.

Lemma wp_bind {A B} (m : M A) (k : A → M B) (Q : outcome B → world → Prop)
    (w : world) :
  wp m (fun r w' => match r with
                    | Done a => wp (k a) Q w'
                    | Raised e => Q (Raised e) w'
                    end) w →
  wp (bind m k) Q w.
Proof.
  unfold wp, bind. destruct (m w) as [[a|e] w']; simpl; intros H; exact H.
Qed.

Lemma wp_mono {A} (m : M A) (Q Q' : outcome A → world → Prop) (w : world) :
  wp m Q w → (∀ r w', Q r w' → Q' r w') → wp m Q' w.
Proof. unfold wp. intros H HQ. apply HQ, H. Qed.

Lemma wp_try_finally {A} (body : M A) (fin : M unit)
    (Q : outcome A → world → Prop) (w : world) :
  wp body (fun r w1 =>
             wp fin (fun rf w2 => match rf with
                                  | Done _ => Q r w2
                                  | Raised e => Q (Raised e) w2
                                  end) w1) w →
  wp (try_finally body fin) Q w.
Proof.
  unfold wp, try_finally. destruct (body w) as [r w1]. simpl.
  destruct (fin w1) as [[u|e] w2]; simpl; intros H; exact H.
Qed.

Lemma wp_try_except {A} (body : M A) (classes : exn → bool)
    (handler : exn → M A) (Q : outcome A → world → Prop) (w : world) :
  wp body (fun r w1 => match r with
                       | Done a => Q (Done a) w1
                       | Raised e =>
                           if classes e then wp (handler e) Q w1
                           else Q (Raised e) w1
                       end) w →
  wp (try_except body classes handler) Q w.
Proof.
  unfold wp, try_except. destruct (body w) as [[a|e] w1]; simpl.
  - intros H; exact H.
  - destruct (classes e); intros H; exact H.
Qed.

Lemma wp_probe {A} (c : call) (f : world → A) (Q : outcome A → world → Prop)
    (w : world) :
  (∀ w', after false w w' (fs w) (Event c None (fs w)) → Q (Done (f w)) w') →
  wp (probe c f) Q w.
Proof. intros H. apply H. split; reflexivity. Qed.

Lemma wp_syscall {A} (c : call) (cls : errno → exn)
    (body : gmap string inode → exn + (A * gmap string inode))
    (Q : outcome A → world → Prop) (w : world) :
  (∀ w' e, head (faults w) = Some (Some e) →
           after true w w' (fs w) (Event c (Some (cls e)) (fs w)) →
           Q (Raised (cls e)) w') →
  (∀ w' x, body (fs w) = inl x →
           after true w w' (fs w) (Event c (Some x) (fs w)) →
           Q (Raised x) w') →
  (∀ w' a m, body (fs w) = inr (a, m) →
             after true w w' m (Event c None m) →
             Q (Done a) w') →
  wp (syscall c cls body) Q w.
Proof.
  intros Hinj Herr Hok. unfold wp, syscall.
  destruct (head (faults w)) as [[e|]|] eqn:Ef.
  - apply (Hinj _ e eq_refl). split; reflexivity.
  - destruct (body (fs w)) as [x|[a m]] eqn:Eb.
    + apply (Herr _ x eq_refl). split; reflexivity.
    + apply (Hok _ a m eq_refl). split; reflexivity.
  - destruct (body (fs w)) as [x|[a m]] eqn:Eb.
    + apply (Herr _ x eq_refl). split; reflexivity.
    + apply (Hok _ a m eq_refl). split; reflexivity.
Qed.

Lemma wp_log (l : level) (msg : string) (Q : outcome unit → world → Prop)
    (w : world) :
  (∀ w', fs w' = fs w → faults w' = faults w → tmpnames w' = tmpnames w →
         passwd w' = passwd w → group w' = group w → trace w' = trace w →
         Q (Done tt) w') →
  wp (logging_log l msg) Q w.
Proof. intros H. apply H; reflexivity. Qed.

Lemma tracked_refl (E : event → Prop) (w : world) : tracked E w w.
Proof. exists []. split; [symmetry; apply app_nil_r | constructor]. Qed.

Lemma tracked_after (E : event → Prop) (w0 w w' : world)
    (b : bool) (m : gmap string inode) (ev : event) :
  tracked E w0 w → after b w w' m ev → E ev → tracked E w0 w'.
Proof.
  intros (evs & Ht & Hall) Ha Hg. exists (evs ++ [ev])%list. split.
  - rewrite (after_trace _ _ _ _ _ Ha), Ht, app_assoc. reflexivity.
  - apply Forall_app. split; [exact Hall | repeat constructor; exact Hg].
Qed.

Lemma tracked_same_trace (E : event → Prop) (w0 w w' : world) :
  tracked E w0 w → trace w' = trace w → tracked E w0 w'.
Proof. intros (evs & Ht & Hall) Heq. exists evs. rewrite Heq. split; assumption. Qed.

Lemma tracked_events_of {A} (E : event → Prop) (m : M A) (w : world) :
  tracked E w (m w).2 → Forall E (events_of m w).
Proof.
  intros (evs & Ht & Hall). unfold events_of. rewrite Ht.
  rewrite drop_app_length. exact Hall.
Qed.

Lemma moved_refl (w : world) : moved w w (fs w) [].
Proof. split; [reflexivity | symmetry; apply app_nil_r | tauto]. Qed.

Lemma after_moved (b : bool) (w w' : world) (m : gmap string inode) (ev : event) :
  after b w w' m ev → moved w w' m [ev].
Proof.
  intros [Hfs Hfl _ _ _ Htr _]. split; [exact Hfs | exact Htr |].
  intros E. rewrite Hfl, E. destruct b; reflexivity.
Qed.

Lemma moved_trans (w w1 w2 : world) (m1 m2 : gmap string inode)
    (evs1 evs2 : list event) :
  moved w w1 m1 evs1 → moved w1 w2 m2 evs2 → moved w w2 m2 (evs1 ++ evs2).
Proof.
  intros [_ Ht1 Hf1] [Hfs2 Ht2 Hf2]. split; [exact Hfs2 | |auto].
  rewrite Ht2, Ht1, app_assoc. reflexivity.
Qed.

Lemma moved_events_of {A} (mm : M A) (w : world) (m : gmap string inode)
    (evs : list event) :
  moved w (mm w).2 m evs → events_of mm w = evs.
Proof.
  intros [_ Ht _]. unfold events_of. rewrite Ht. apply drop_app_length.
Qed.

Lemma tracked_moved (E : event → Prop) (w0 w w' : world)
    (m : gmap string inode) (evs : list event) :
  tracked E w0 w → moved w w' m evs → Forall E evs → tracked E w0 w'.
Proof.
  intros (evs0 & Ht & Hall) [_ Htr _] Hevs. exists (evs0 ++ evs)%list. split.
  - rewrite Htr, Ht, app_assoc. reflexivity.
  - apply Forall_app. split; assumption.
Qed.

(** A message in the log moves nothing. *)
Lemma wp_log_moved (l : level) (msg : string) (Q : outcome unit → world → Prop)
    (w : world) :
  (∀ w', moved w w' (fs w) [] → Q (Done tt) w') →
  wp (logging_log l msg) Q w.
Proof.
  intros H. apply H. split; [reflexivity | symmetry; apply app_nil_r | tauto].
Qed.

(** Reading the lines of the file at [p]. *)
Lemma wp_read_lines (p : string) (Q : outcome (list string) → world → Prop)
    (w : world) :
  (∀ w' x evs,
     moved w w' (fs w) evs → Forall (reads (fs w)) evs →
     (faults w = [] → is_reg (fs w) p = false) →
     Q (Raised x) w') →
  (∀ w' i evs,
     fs w !! p = Some i →
     moved w w' (fs w) evs → Forall (reads (fs w)) evs →
     Q (Done (Py.readlines (i_data i))) w') →
  wp (with_file (OpenFile_r p) file_readlines) Q w.
Proof.
  intros Hraise Hdone. unfold with_file, OpenFile_r, open_r.
  apply wp_bind, wp_syscall.
  - intros w1 e He H1. apply (Hraise _ _ [_] (after_moved _ _ _ _ _ H1)).
    + repeat constructor.
    + intros E. rewrite E in He. discriminate.
  - intros w1 x Hb H1. apply (Hraise _ _ [_] (after_moved _ _ _ _ _ H1)).
    + repeat constructor.
    + intros _. unfold is_reg. destruct (fs w !! p) as [[[] ? ? ? ?]|]; try discriminate; reflexivity.
  - intros w1 f m Hb H1.
    assert (f = p ∧ m = fs w ∧ is_Some (fs w !! p)) as (-> & -> & [i Hi]).
    { destruct (fs w !! p) as [[[] ? ? ? ?]|]; inversion Hb; eauto. }
    apply wp_try_finally. unfold file_readlines. apply wp_syscall.
    + intros w2 e He H2. unfold file_close. apply wp_probe. intros w3 H3.
      pose proof (after_moved _ _ _ _ _ H1) as M1.
      pose proof (after_moved _ _ _ _ _ H2) as M2.
      pose proof (after_moved _ _ _ _ _ H3) as M3.
      rewrite ?(after_fs _ _ _ _ _ H1) in *. rewrite ?(after_fs _ _ _ _ _ H2) in *.
      apply (Hraise _ _ _ (moved_trans _ _ _ _ _ _ _ M1 (moved_trans _ _ _ _ _ _ _ M2 M3))).
      * repeat constructor.
      * intros E. pose proof (moved_faults _ _ _ _ M1 E) as E1.
        rewrite E1 in He. discriminate.
    + intros w2 x Hb2 H2. rewrite (after_fs _ _ _ _ _ H1), Hi in Hb2. discriminate.
    + intros w2 ls m Hb2 H2. rewrite (after_fs _ _ _ _ _ H1), Hi in Hb2.
      inversion Hb2; subst ls m. clear Hb2.
      unfold file_close. apply wp_probe. intros w3 H3.
      pose proof (after_moved _ _ _ _ _ H1) as M1.
      pose proof (after_moved _ _ _ _ _ H2) as M2.
      pose proof (after_moved _ _ _ _ _ H3) as M3.
      rewrite ?(after_fs _ _ _ _ _ H1) in *. rewrite ?(after_fs _ _ _ _ _ H2) in *.
      apply (Hdone _ _ _ Hi (moved_trans _ _ _ _ _ _ _ M1 (moved_trans _ _ _ _ _ _ _ M2 M3))).
      repeat constructor.
Qed.


Lemma wp_LockSudoers (Q : outcome bool → world → Prop) (w : world) :
  (∀ w' x,
     moved w w' (fs w) [Event (os_open_excl_c SUDOERS_TMP) (Some x) (fs w)] →
     (faults w = [] → is_Some (fs w !! SUDOERS_TMP)) →
     Q (Done false) w') →
  (∀ w' x,
     fs w !! SUDOERS_TMP = None →
     moved w w' (<[SUDOERS_TMP := lock_inode]> (fs w))
       [Event (os_open_excl_c SUDOERS_TMP) None (<[SUDOERS_TMP := lock_inode]> (fs w));
        Event (close_c SUDOERS_TMP) (Some x) (<[SUDOERS_TMP := lock_inode]> (fs w))] →
     faults w ≠ [] →
     Q (Done false) w') →
  (∀ w',
     fs w !! SUDOERS_TMP = None →
     moved w w' (<[SUDOERS_TMP := lock_inode]> (fs w))
       [Event (os_open_excl_c SUDOERS_TMP) None (<[SUDOERS_TMP := lock_inode]> (fs w));
        Event (close_c SUDOERS_TMP) None (<[SUDOERS_TMP := lock_inode]> (fs w))] →
     Q (Done true) w') →
  wp LockSudoers Q w.
Proof.
  intros Hfail Hclose Hok. unfold LockSudoers, os_open_excl_creat.
  assert (Hlog : ∀ (e : exn) (w1 w0' : world) (m : gmap string inode)
                   (evs : list event),
            moved w0' w1 m evs →
            (∀ w', moved w0' w' m evs → Q (Done false) w') →
            wp ((if bool_decide (exn_errno e = Some EEXIST)
                 then logging_warning "/etc/sudoers.tmp lock file already exists"
                 else logging_warning
                        ("Could not create /etc/sudoers.tmp lock file: " +:+ str_exn e)) ;;;
                ret false) Q w1).
  { intros e w1 w0' m evs M1 HQ. apply wp_bind.
    assert (H : ∀ msg, wp (logging_warning msg)
                 (fun r w' => match r with
                              | Done _ => wp (ret false) Q w'
                              | Raised e0 => Q (Raised e0) w'
                              end) w1).
    { intros msg. apply wp_log_moved. intros w2 M2. apply wp_ret. apply HQ.
      rewrite (moved_fs _ _ _ _ M1) in M2.
      pose proof (moved_trans _ _ _ _ _ _ _ M1 M2) as M.
      rewrite app_nil_r in M. exact M. }
    destruct (bool_decide _); apply H. }
  apply wp_try_except, wp_bind, wp_syscall.
  - intros w1 e He H1. cbn [is_OSError].
    apply (Hlog _ _ w _ _ (after_moved _ _ _ _ _ H1)). intros w' M.
    apply (Hfail _ _ M). intros E. rewrite E in He. discriminate.
  - intros w1 x Hb H1.
    destruct (fs w !! SUDOERS_TMP) as [i|] eqn:Ei; [|discriminate].
    inversion Hb; subst x. cbn [is_OSError].
    apply (Hlog _ _ w _ _ (after_moved _ _ _ _ _ H1)). intros w' M.
    apply (Hfail _ _ M). intros _. eauto.
  - intros w1 f m Hb H1.
    destruct (fs w !! SUDOERS_TMP) as [i|] eqn:Ei; [discriminate|].
    inversion Hb; subst f m. clear Hb.
    pose proof (after_moved _ _ _ _ _ H1) as M1.
    apply wp_bind. unfold os_close. apply wp_syscall.
    + intros w2 e He H2. cbn [is_OSError].
      pose proof (after_moved _ _ _ _ _ H2) as M2.
      rewrite (after_fs _ _ _ _ _ H1) in M2.
      apply (Hlog _ _ w _ _ (moved_trans _ _ _ _ _ _ _ M1 M2)). intros w' M.
      apply (Hclose _ _ eq_refl M). intros E.
      rewrite (after_faults _ _ _ _ _ H1), E in He. discriminate.
    + intros w2 x Hb _. discriminate.
    + intros w2 [] m Hb H2. inversion Hb; subst m. clear Hb.
      apply wp_ret. apply Hok; [reflexivity|].
      pose proof (after_moved _ _ _ _ _ H2) as M2.
      rewrite (after_fs _ _ _ _ _ H1) in M2.
      exact (moved_trans _ _ _ _ _ _ _ M1 M2).
Qed.

Lemma wp_UnlockSudoers (Q : outcome bool → world → Prop) (w : world) :
  (∀ w' b err m,
     moved w w' m [Event (os_unlink_c SUDOERS_TMP) err m] →
     (err = None → m = delete SUDOERS_TMP (fs w) ∧ b = true) →
     (err ≠ None → m = fs w) →
     (err = Some (OSError ENOENT) → b = true) →
     (faults w = [] → is_reg (fs w) SUDOERS_TMP = true → err = None) →
     (faults w = [] → fs w !! SUDOERS_TMP = None → err = Some (OSError ENOENT)) →
     Q (Done b) w') →
  wp UnlockSudoers Q w.
Proof.
  intros H. unfold UnlockSudoers, os_unlink.
  apply wp_try_except, wp_bind, wp_syscall.
  - intros w1 e He H1. cbn [is_OSError exn_errno].
    pose proof (after_moved _ _ _ _ _ H1) as M1.
    assert (Hno : faults w = [] → False) by (intros E; rewrite E in He; discriminate).
    destruct (bool_decide (Some e = Some ENOENT)) eqn:Eb.
    + apply wp_ret. apply (H _ _ _ _ M1); try (intros; tauto || congruence).
    + apply wp_bind, wp_log_moved. intros w2 M2. apply wp_ret.
      rewrite (after_fs _ _ _ _ _ H1) in M2.
      pose proof (moved_trans _ _ _ _ _ _ _ M1 M2) as M. simpl in M.
      apply (H _ _ _ _ M); try (intros; tauto || congruence).
      intros E. inversion E; subst e. rewrite bool_decide_eq_true_2 in Eb by reflexivity.
      discriminate.
  - intros w1 x Hb H1.
    pose proof (after_moved _ _ _ _ _ H1) as M1.
    destruct (fs w !! SUDOERS_TMP) as [[[] ? ? ? ?]|] eqn:Ei; inversion Hb; subst x;
      cbn [is_OSError exn_errno].
    + rewrite bool_decide_eq_false_2 by discriminate.
      apply wp_bind, wp_log_moved. intros w2 M2. apply wp_ret.
      rewrite (after_fs _ _ _ _ _ H1) in M2.
      pose proof (moved_trans _ _ _ _ _ _ _ M1 M2) as M. simpl in M.
      apply (H _ _ _ _ M); try (intros; tauto || congruence).
      intros _ Hr. unfold is_reg in Hr. rewrite Ei in Hr. discriminate.
    + rewrite bool_decide_eq_true_2 by reflexivity.
      apply wp_ret. apply (H _ _ _ _ M1); try (intros; tauto || congruence).
      intros _ Hr. unfold is_reg in Hr. rewrite Ei in Hr. discriminate.
  - intros w1 [] m Hb H1.
    pose proof (after_moved _ _ _ _ _ H1) as M1.
    assert (m = delete SUDOERS_TMP (fs w) ∧ is_Some (fs w !! SUDOERS_TMP)) as [-> [i Hi]].
    { destruct (fs w !! SUDOERS_TMP) as [[[] ? ? ? ?]|]; inversion Hb; eauto. }
    apply wp_ret.
    apply (H _ _ _ _ M1); try (intros; tauto || congruence).
Qed.

(** ** The calls a computation makes *)

Section CallsOnly.

Variable allowed : call → bool.

Lemma calls_ret {A} (a : A) : calls_only allowed (ret a).
Proof. intros w. exists []. simpl. split; [symmetry; apply app_nil_r | constructor]. Qed.

Lemma calls_bind {A B} (m : M A) (k : A → M B) :
  calls_only allowed m → (∀ a, calls_only allowed (k a)) →
  calls_only allowed (bind m k).
Proof.
  intros Hm Hk w. unfold bind. destruct (Hm w) as (evs1 & E1 & F1).
  destruct (m w) as [[a|e] w1]; simpl in *.
  - destruct (Hk a w1) as (evs2 & E2 & F2). exists (evs1 ++ evs2)%list. split.
    + rewrite E2, E1, app_assoc. reflexivity.
    + apply Forall_app. split; assumption.
  - exists evs1. split; assumption.
Qed.

Lemma calls_try_finally {A} (body : M A) (fin : M unit) :
  calls_only allowed body → calls_only allowed fin →
  calls_only allowed (try_finally body fin).
Proof.
  intros Hb Hf w. unfold try_finally. destruct (Hb w) as (evs1 & E1 & F1).
  destruct (body w) as [r w1]; simpl in *.
  destruct (Hf w1) as (evs2 & E2 & F2). exists (evs1 ++ evs2)%list.
  split; [|apply Forall_app; split; assumption].
  destruct (fin w1) as [[u|e] w2]; simpl in *; rewrite E2, E1, app_assoc; reflexivity.
Qed.

Lemma calls_try_except {A} (body : M A) (classes : exn → bool)
    (handler : exn → M A) :
  calls_only allowed body → (∀ e, calls_only allowed (handler e)) →
  calls_only allowed (try_except body classes handler).
Proof.
  intros Hb Hh w. unfold try_except. destruct (Hb w) as (evs1 & E1 & F1).
  destruct (body w) as [[a|e] w1]; simpl in *.
  - exists evs1. split; assumption.
  - destruct (classes e); simpl.
    + destruct (Hh e w1) as (evs2 & E2 & F2). exists (evs1 ++ evs2)%list. split.
      * rewrite E2, E1, app_assoc. reflexivity.
      * apply Forall_app. split; assumption.
    + exists evs1. split; assumption.
Qed.

Lemma calls_probe {A} (c : call) (f : world → A) :
  allowed c = true → calls_only allowed (probe c f).
Proof.
  intros Hc w. eexists. split; [reflexivity|].
  constructor; [exact Hc | constructor].
Qed.

Lemma calls_syscall {A} (c : call) (cls : errno → exn)
    (body : gmap string inode → exn + (A * gmap string inode)) :
  allowed c = true → calls_only allowed (syscall c cls body).
Proof.
  intros Hc w. unfold syscall.
  destruct (head (faults w)) as [[e|]|];
    [|destruct (body (fs w)) as [x|[a m]]|destruct (body (fs w)) as [x|[a m]]];
    (eexists; split; [reflexivity | constructor; [exact Hc | constructor]]).
Qed.

Lemma calls_refused {A} (c : call) (e : exn) :
  allowed c = true → calls_only allowed (@refused A c e).
Proof.
  intros Hc w. exists [Event c (Some e) (fs w)]. split; [reflexivity|].
  constructor; [exact Hc | constructor].
Qed.

Lemma calls_mkstemp : allowed mkstemp_c = true → calls_only allowed tempfile_mkstemp.
Proof.
  intros Hc w. unfold tempfile_mkstemp.
  destruct (first_free (fs w) (tmpnames w)) as [free rest].
  apply (calls_syscall _ _ _ Hc (set_tmpnames rest w)).
Qed.

Lemma calls_log (l : level) (msg : string) : calls_only allowed (logging_log l msg).
Proof. intros w. exists []. simpl. split; [symmetry; apply app_nil_r | constructor]. Qed.

Lemma calls_for_each {A} (xs : list A) (body : A → M unit) :
  (∀ x, calls_only allowed (body x)) → calls_only allowed (for_each xs body).
Proof.
  intros Hb. induction xs as [|x xs IH]; simpl.
  - apply calls_ret.
  - apply calls_bind; [apply Hb | intros _; exact IH].
Qed.

Lemma calls_getpwnam (name : string) :
  allowed (getpwnam_c name) = true → calls_only allowed (pwd_getpwnam name).
Proof.
  intros Hc w. unfold pwd_getpwnam.
  destruct (passwd w !! name);
    (eexists; split; [reflexivity | constructor; [exact Hc | constructor]]).
Qed.

Lemma calls_getgrnam (name : string) :
  allowed (getgrnam_c name) = true → calls_only allowed (grp_getgrnam name).
Proof.
  intros Hc w. unfold grp_getgrnam.
  destruct (bool_decide _);
    (eexists; split; [reflexivity | constructor; [exact Hc | constructor]]).
Qed.

Lemma calls_UserAdd (system : system_module) (user : string) (groups : list string) :
  allowed (useradd_c user groups) = true →
  calls_only allowed (UserAdd system user groups).
Proof.
  intros Hc w. unfold UserAdd.
  destruct (useradd_result _ _ _);
    (eexists; split; [reflexivity | constructor; [exact Hc | constructor]]).
Qed.

End CallsOnly.

Ltac calls_step :=
  match goal with
  | |- calls_only _ (ret _) => apply calls_ret
  | |- calls_only _ (bind _ _) => apply calls_bind
  | |- calls_only _ (try_finally _ _) => apply calls_try_finally
  | |- calls_only _ (try_except _ _ _) => apply calls_try_except
  | |- calls_only _ (probe _ _) => apply calls_probe; reflexivity
  | |- calls_only _ (syscall _ _ _) => apply calls_syscall; reflexivity
  | |- calls_only _ (refused _ _) => apply calls_refused; reflexivity
  | |- calls_only _ tempfile_mkstemp => apply calls_mkstemp; reflexivity
  | |- calls_only _ (logging_log _ _) => apply calls_log
  | |- calls_only _ (logging_info _) => apply calls_log
  | |- calls_only _ (logging_warning _) => apply calls_log
  | |- calls_only _ (logging_error _) => apply calls_log
  | |- calls_only _ (for_each _ _) => apply calls_for_each
  | |- calls_only _ (pwd_getpwnam _) => apply calls_getpwnam; reflexivity
  | |- calls_only _ (grp_getgrnam _) => apply calls_getgrnam; reflexivity
  | |- calls_only _ (UserAdd _ _ _) => apply calls_UserAdd; reflexivity
  | |- calls_only _ (if ?b then _ else _) => destruct b
  | |- calls_only _ (match ?x with _ => _ end) => destruct x
  | |- ∀ _, _ => intro
  end.

Ltac calls_tac :=
  repeat first
    [ calls_step
    | progress unfold with_file, OpenFile_r, OpenFile_w, open_r, open_w,
        file_readlines, file_write, file_writelines, file_seek, file_close,
        os_open_excl_creat, os_close, os_fdopen, os_unlink, os_chmod,
        os_fchmod, os_chown, os_fchown, os_mkdir, os_path_isfile,
        os_path_isdir, os_path_exists, IsValidSudoersFile, CreateTempFile,
        MoveFile, LockSudoers, UnlockSudoers, GetUserInfo, UserExists ].

Ltac grows_tac := calls_tac.

(** The sudoers editor never renames a file. *)
Lemma MakeUserSudoer_calls (system : system_module) (user : string) :
  calls_only (fun c => negb (is_rename c)) (MakeUserSudoer system user).
Proof. unfold MakeUserSudoer. calls_tac. Qed.

Lemma grows_MakeUserSudoer (system : system_module) (user : string) :
  grows (MakeUserSudoer system user).
Proof. unfold MakeUserSudoer. calls_tac. Qed.

Lemma grows_WriteAuthorizedSshKeysFile (path : string) (keys : list string)
    (uid gid : Z) :
  grows (WriteAuthorizedSshKeysFile path keys uid gid).
Proof. unfold WriteAuthorizedSshKeysFile. calls_tac. Qed.

Lemma grows_EnsureDir_within (depth : nat) (dir_path : string) (uid gid : Z) :
  grows (EnsureDir_within depth dir_path uid gid).
Proof.
  revert dir_path. induction depth as [|depth IH]; intros dir_path;
    cbn [EnsureDir_within]; calls_tac; apply IH.
Qed.

Lemma grows_AuthorizeSshKeys (user : string) (keys : list string) :
  grows (AuthorizeSshKeys user keys).
Proof.
  unfold AuthorizeSshKeys, EnsureHomeDir, EnsureDir. calls_tac;
    try apply grows_EnsureDir_within; try apply grows_WriteAuthorizedSshKeysFile;
    calls_tac.
Qed.

Lemma grows_CreateUser (system : system_module) (self : Accounts)
    (username : string) (keys : list string) :
  grows (CreateUser system self username keys).
Proof.
  unfold CreateUser. calls_tac;
    try apply grows_MakeUserSudoer; try apply grows_AuthorizeSshKeys; calls_tac.
Qed.

Lemma reads_not_writes (m : gmap string inode) (ev : event) :
  reads m ev → writes_sudoers (ev_call ev) = false.
Proof. intros [_ H]. destruct (ev_call ev); try discriminate H; reflexivity. Qed.

Lemma reads_not_lock (m : gmap string inode) (ev : event) :
  reads m ev → lock_attempt ev = false.
Proof.
  intros [_ H]. unfold lock_attempt.
  destruct (ev_call ev); try discriminate H; reflexivity.
Qed.

Lemma existsb_Forall_false {A} (f : A → bool) (l : list A) :
  Forall (fun x => f x = false) l → existsb f l = true → False.
Proof.
  induction 1 as [|x l Hx _ IH]; simpl; [discriminate|].
  rewrite Hx. exact IH.
Qed.

(** ** A held lock *)

Section LockHeld.

Variable system : system_module.
Variable user : string.
Variable w0 : world.
Hypothesis Hlock : is_Some (fs w0 !! SUDOERS_TMP).

Lemma reads_calm (ev : event) :
  reads (fs w0) ev → calm (fs w0) ev ∧ lock_attempt ev = false.
Proof.
  intros H. split; [split|].
  - apply H.
  - eapply reads_not_writes, H.
  - eapply reads_not_lock, H.
Qed.

Lemma MakeUserSudoer_lock_held_run :
  wp (MakeUserSudoer system user)
     (fun r w =>
        ∃ evs, moved w0 w (fs w0) evs ∧ Forall (calm (fs w0)) evs ∧
               (existsb lock_attempt evs = true → r = Done tt))
     w0.
Proof.
  unfold MakeUserSudoer.
  apply wp_bind. unfold os_path_isfile. apply wp_probe. intros w1 H1.
  pose proof (after_moved _ _ _ _ _ H1) as M1.
  set (ev1 := Event (os_path_isfile_c SUDOERS) None (fs w0)) in *.
  assert (R1 : Forall (fun ev => calm (fs w0) ev ∧ lock_attempt ev = false) [ev1]).
  { constructor; [apply reads_calm; split; reflexivity | constructor]. }
  destruct (is_reg (fs w0) SUDOERS); cbn [negb].
  - apply wp_bind, wp_read_lines.
    + intros w2 x evs M2 Hr _. rewrite (moved_fs _ _ _ _ M1) in M2, Hr.
      exists ([ev1] ++ evs)%list. split; [exact (moved_trans _ _ _ _ _ _ _ M1 M2)|].
      assert (R2 : Forall (fun ev => calm (fs w0) ev ∧ lock_attempt ev = false) ([ev1] ++ evs)).
      { apply Forall_app. split; [exact R1|].
        eapply Forall_impl; [exact Hr | apply reads_calm]. }
      split.
      * eapply Forall_impl; [exact R2 | intros ev [H _]; exact H].
      * intros Hex. exfalso. revert Hex. apply existsb_Forall_false.
        eapply Forall_impl; [exact R2 | intros ev [_ H]; exact H].
    + intros w2 i evs Hi M2 Hr. rewrite (moved_fs _ _ _ _ M1) in M2, Hr.
      pose proof (moved_trans _ _ _ _ _ _ _ M1 M2) as M12.
      assert (R2 : Forall (fun ev => calm (fs w0) ev ∧ lock_attempt ev = false) ([ev1] ++ evs)).
      { apply Forall_app. split; [exact R1|].
        eapply Forall_impl; [exact Hr | apply reads_calm]. }
      destruct (Py.truthy _).
      * apply wp_ret. eexists. split; [exact M12|]. split.
        -- eapply Forall_impl; [exact R2 | intros ev [H _]; exact H].
        -- intros Hex. exfalso. revert Hex. apply existsb_Forall_false.
           eapply Forall_impl; [exact R2 | intros ev [_ H]; exact H].
      * apply wp_bind, wp_LockSudoers.
        -- intros w3 x M3 _. cbn [negb].
           rewrite (moved_fs _ _ _ _ M2) in M3.
           apply wp_log_moved. intros w4 M4.
           rewrite (moved_fs _ _ _ _ M3) in M4.
           eexists. split.
           { exact (moved_trans _ _ _ _ _ _ _ M12 (moved_trans _ _ _ _ _ _ _ M3 M4)). }
           split; [|reflexivity].
           apply Forall_app. split.
           { eapply Forall_impl; [exact R2 | intros ev [H _]; exact H]. }
           repeat constructor.
        -- intros w3 x Hnone _ _. exfalso.
           rewrite (moved_fs _ _ _ _ M2) in Hnone.
           destruct Hlock as [i' Hi']. congruence.
        -- intros w3 Hnone _. exfalso.
           rewrite (moved_fs _ _ _ _ M2) in Hnone.
           destruct Hlock as [i' Hi']. congruence.
  - apply wp_log_moved. intros w2 M2. rewrite (moved_fs _ _ _ _ M1) in M2.
    eexists. split; [exact (moved_trans _ _ _ _ _ _ _ M1 M2)|].
    rewrite app_nil_r. split.
    + eapply Forall_impl; [exact R1 | intros ev [H _]; exact H].
    + intros Hex. exfalso. revert Hex. apply existsb_Forall_false.
      eapply Forall_impl; [exact R1 | intros ev [_ H]; exact H].
Qed.

End LockHeld.

(** C5.  When the lock marker is there as the call comes to take the
    lock, the call ends normally, every call it has made has found and
    left the files as they were, and none of them writes the sudoers
    file. *)
Theorem MakeUserSudoer_lock_held (system : system_module) (user : string)
    (w : world) :
  is_Some (fs w !! SUDOERS_TMP) →
  existsb lock_attempt (events_of (MakeUserSudoer system user) w) = true →
  (MakeUserSudoer system user w).1 = Done tt ∧
  fs (MakeUserSudoer system user w).2 = fs w ∧
  Forall (calm (fs w)) (events_of (MakeUserSudoer system user) w).
Proof.
  intros Hlock Hattempt.
  destruct (MakeUserSudoer_lock_held_run system user w Hlock)
    as (evs & Hm & Hcalm & Hret).
  rewrite (moved_events_of _ _ _ _ Hm) in *.
  split; [exact (Hret Hattempt)|]. split; [exact (moved_fs _ _ _ _ Hm)|].
  exact Hcalm.
Qed.

Lemma MakeUserSudoer_lock_held_witness :
  (MakeUserSudoer demo_system "alice" demo_world_locked).1 = Done tt ∧
  fs (MakeUserSudoer demo_system "alice" demo_world_locked).2 = fs demo_world_locked ∧
  Forall (calm (fs demo_world_locked))
         (events_of (MakeUserSudoer demo_system "alice") demo_world_locked).
Proof.
  apply MakeUserSudoer_lock_held.
  - exists lock_inode. vm_compute. reflexivity.
  - vm_compute. reflexivity.
Defined.

Lemma wp_grows {A} (m : M A) (Q : outcome A → world → Prop) (w : world) :
  grows m →
  (∀ r w' evs, trace w' = (trace w ++ evs)%list → Q r w') →
  wp m Q w.
Proof. intros Hg H. destruct (Hg w) as (evs & E & _). exact (H _ _ evs E). Qed.

Lemma reads_not_acquired (m : gmap string inode) (ev : event) :
  reads m ev → lock_acquired ev = false.
Proof.
  intros H. unfold lock_acquired. rewrite (reads_not_lock _ _ H). reflexivity.
Qed.

(** ** The exceptions a computation lets out *)

Section RaisesOnly.

Variable P : exn → bool.

Lemma raises_ret {A} (a : A) : raises_only P (ret a).
Proof. intros w. exact I. Qed.

Lemma raises_bind {A B} (m : M A) (k : A → M B) :
  raises_only P m → (∀ a, raises_only P (k a)) → raises_only P (bind m k).
Proof.
  intros Hm Hk w. unfold bind. specialize (Hm w).
  destruct (m w) as [[a|e] w1]; simpl in *; [apply Hk | exact Hm].
Qed.

Lemma raises_try_finally {A} (body : M A) (fin : M unit) :
  raises_only P body → raises_only P fin → raises_only P (try_finally body fin).
Proof.
  intros Hb Hf w. unfold try_finally. specialize (Hb w).
  destruct (body w) as [r w1]. specialize (Hf w1).
  destruct (fin w1) as [[u|e] w2]; simpl in *; assumption.
Qed.

Lemma raises_try_except {A} (Pb : exn → bool) (body : M A)
    (classes : exn → bool) (handler : exn → M A) :
  raises_only Pb body →
  (∀ e, raises_only P (handler e)) →
  (∀ e, Pb e = true → classes e = false → P e = true) →
  raises_only P (try_except body classes handler).
Proof.
  intros Hb Hh Hcls w. unfold try_except. specialize (Hb w).
  destruct (body w) as [[a|e] w1]; simpl in *; [exact I|].
  destruct (classes e) eqn:E; [apply Hh | simpl; exact (Hcls e Hb E)].
Qed.

Lemma raises_probe {A} (c : call) (f : world → A) : raises_only P (probe c f).
Proof. intros w. exact I. Qed.

Lemma raises_log (l : level) (msg : string) : raises_only P (logging_log l msg).
Proof. intros w. exact I. Qed.

Lemma raises_syscall {A} (c : call) (cls : errno → exn)
    (body : gmap string inode → exn + (A * gmap string inode)) :
  (∀ e, P (cls e) = true) →
  (∀ m x, body m = inl x → P x = true) →
  raises_only P (syscall c cls body).
Proof.
  intros Hcls Hbody w. unfold syscall.
  destruct (head (faults w)) as [[e|]|]; [apply Hcls| |];
    (destruct (body (fs w)) as [x|[a m]] eqn:E; simpl; [exact (Hbody _ _ E) | exact I]).
Qed.

Lemma raises_for_each {A} (xs : list A) (body : A → M unit) :
  (∀ x, raises_only P (body x)) → raises_only P (for_each xs body).
Proof.
  intros Hb. induction xs as [|x xs IH]; simpl.
  - apply raises_ret.
  - apply raises_bind; [apply Hb | intros _; exact IH].
Qed.

End RaisesOnly.

Lemma raises_weaken {A} (P P' : exn → bool) (m : M A) :
  (∀ e, P e = true → P' e = true) → raises_only P m → raises_only P' m.
Proof.
  intros H Hm w. specialize (Hm w). destruct (m w).1; [exact I | apply H, Hm].
Qed.

(** The file objects raise [IOError], the [os] calls [OSError]. *)
Lemma raises_open_r (p : string) : raises_only is_IOError (open_r p).
Proof.
  apply raises_syscall; [reflexivity|]. intros m x.
  destruct (m !! p) as [[[] ? ? ? ?]|]; intros H; inversion H; reflexivity.
Qed.

Lemma raises_open_w (p : string) : raises_only is_IOError (open_w p).
Proof.
  apply raises_syscall; [reflexivity|]. intros m x.
  destruct (m !! p) as [[[] ? ? ? ?]|]; intros H; inversion H; reflexivity.
Qed.

Lemma raises_readlines (f : string) : raises_only is_IOError (file_readlines f).
Proof.
  apply raises_syscall; [reflexivity|]. intros m x.
  destruct (m !! f); intros H; inversion H; reflexivity.
Qed.

Lemma raises_write (f data : string) : raises_only is_IOError (file_write f data).
Proof.
  apply raises_syscall; [reflexivity|]. intros m x.
  destruct (m !! f) as [[? ? ? ? ?]|]; intros H; inversion H; reflexivity.
Qed.

Lemma raises_os_open (p : string) : raises_only is_OSError (os_open_excl_creat p).
Proof.
  apply raises_syscall; [reflexivity|]. intros m x.
  destruct (m !! p); intros H; inversion H; reflexivity.
Qed.

Lemma raises_unlink (p : string) : raises_only is_OSError (os_unlink p).
Proof.
  apply raises_syscall; [reflexivity|]. intros m x.
  destruct (m !! p) as [[[] ? ? ? ?]|]; intros H; inversion H; reflexivity.
Qed.

Lemma chmod_in_OSError (m : gmap string inode) (p : string) (mode : Z) (x : exn) :
  chmod_in m p mode = inl x → is_OSError x = true.
Proof.
  unfold chmod_in. destruct (m !! p) as [[? ? ? ? ?]|]; intros H; inversion H.
  reflexivity.
Qed.

Lemma chown_in_OSError (m : gmap string inode) (p : string) (uid gid : option Z)
    (x : exn) :
  chown_in m p uid gid = inl x → is_OSError x = true.
Proof.
  unfold chown_in. destruct (m !! p) as [[? ? ? ? ?]|]; intros H; inversion H.
  reflexivity.
Qed.

Lemma id_arg_id (v : Z) : is_id v = true → id_arg v = Some (Some v).
Proof.
  intros H. unfold id_arg. rewrite H. unfold is_id, UID_MAX in *.
  apply andb_true_iff in H as [H1 H2].
  apply Z.leb_le in H1. apply Z.ltb_lt in H2.
  assert (E1 : (v =? -1)%Z = false) by (apply Z.eqb_neq; lia).
  assert (E2 : (v =? 4294967295)%Z = false) by (apply Z.eqb_neq; lia).
  rewrite E1, E2. reflexivity.
Qed.

(** For ids that name a user and a group the call sets both. *)
Lemma os_chown_id (p : string) (uid gid : Z) :
  is_id uid = true → is_id gid = true →
  os_chown p uid gid
  = syscall (os_chown_c p uid gid) OSError
      (fun m => chown_in m p (Some uid) (Some gid)).
Proof. intros Hu Hg. unfold os_chown. rewrite !id_arg_id by assumption. reflexivity. Qed.

Lemma os_fchown_id (f : string) (uid gid : Z) :
  is_id uid = true → is_id gid = true →
  os_fchown f uid gid
  = syscall (os_fchown_c f uid gid) OSError
      (fun m => chown_in m f (Some uid) (Some gid)).
Proof. intros Hu Hg. unfold os_fchown. rewrite !id_arg_id by assumption. reflexivity. Qed.



Lemma os_fchown_accepted (f : string) (uid gid : Z) (u g : option Z) :
  id_arg uid = Some u → id_arg gid = Some g →
  os_fchown f uid gid
  = syscall (os_fchown_c f uid gid) OSError (fun m => chown_in m f u g).
Proof. intros Eu Eg. unfold os_fchown. rewrite Eu, Eg. reflexivity. Qed.


Lemma raises_refused {A} (P : exn → bool) (c : call) (e : exn) :
  P e = true → raises_only P (@refused A c e).
Proof. intros H w. exact H. Qed.

Lemma raises_os_close (fd : string) : raises_only is_OSError (os_close fd).
Proof. apply raises_syscall; [reflexivity|]. intros m x H. discriminate H. Qed.

Lemma raises_chmod (p : string) (mode : Z) : raises_only is_OSError (os_chmod p mode).
Proof.
  apply raises_syscall; [reflexivity|]. intros m x. apply chmod_in_OSError.
Qed.

Lemma raises_fchmod (p : string) (mode : Z) : raises_only is_OSError (os_fchmod p mode).
Proof.
  apply raises_syscall; [reflexivity|]. intros m x. apply chmod_in_OSError.
Qed.

Lemma raises_chown (p : string) (uid gid : Z) :
  raises_only (fun e => is_OSError e || is_OverflowError e) (os_chown p uid gid).
Proof.
  unfold os_chown. destruct (id_arg uid) as [u|]; [destruct (id_arg gid) as [g|]|];
    try (apply raises_refused; reflexivity).
  apply raises_syscall; [reflexivity|]. intros m x H.
  rewrite (chown_in_OSError _ _ _ _ _ H). reflexivity.
Qed.

Lemma raises_fchown (p : string) (uid gid : Z) :
  raises_only (fun e => is_OSError e || is_OverflowError e) (os_fchown p uid gid).
Proof.
  unfold os_fchown. destruct (id_arg uid) as [u|]; [destruct (id_arg gid) as [g|]|];
    try (apply raises_refused; reflexivity).
  apply raises_syscall; [reflexivity|]. intros m x H.
  rewrite (chown_in_OSError _ _ _ _ _ H). reflexivity.
Qed.

Lemma raises_chown_id (p : string) (uid gid : Z) :
  is_id uid = true → is_id gid = true → raises_only is_OSError (os_chown p uid gid).
Proof.
  intros Hu Hg. rewrite (os_chown_id _ _ _ Hu Hg).
  apply raises_syscall; [reflexivity|]. intros m x. apply chown_in_OSError.
Qed.

Lemma raises_fchown_id (p : string) (uid gid : Z) :
  is_id uid = true → is_id gid = true → raises_only is_OSError (os_fchown p uid gid).
Proof.
  intros Hu Hg. rewrite (os_fchown_id _ _ _ Hu Hg).
  apply raises_syscall; [reflexivity|]. intros m x. apply chown_in_OSError.
Qed.

Lemma raises_mkdir (p : string) (mode : Z) : raises_only is_OSError (os_mkdir p mode).
Proof.
  apply raises_syscall; [reflexivity|]. intros m x.
  destruct (m !! p); [|destruct (is_dir m (os_path_dirname p))];
    intros H; inversion H; reflexivity.
Qed.

Lemma raises_mkstemp : raises_only is_IOError_or_OSError tempfile_mkstemp.
Proof.
  intros w. unfold tempfile_mkstemp.
  destruct (first_free (fs w) (tmpnames w)) as [free rest].
  apply (raises_syscall is_IOError_or_OSError); [reflexivity|].
  intros m x. destruct free; intros H; inversion H; reflexivity.
Qed.


Lemma raises_getpwnam (name : string) : raises_only is_KeyError (pwd_getpwnam name).
Proof. intros w. unfold pwd_getpwnam. destruct (passwd w !! name); reflexivity. Qed.

Lemma raises_getgrnam (name : string) : raises_only is_KeyError (grp_getgrnam name).
Proof. intros w. unfold grp_getgrnam. destruct (bool_decide _); reflexivity. Qed.

Lemma raises_MoveFile (src dst : string) : raises_only is_OSError (MoveFile src dst).
Proof.
  apply raises_syscall; [reflexivity|]. intros m x.
  destruct (m !! src); [destruct (is_dir m dst)|]; intros H; inversion H; reflexivity.
Qed.

Lemma raises_UserAdd (P : exn → bool) (system : system_module) (user : string)
    (groups : list string) :
  raises_only P (UserAdd system user groups).
Proof. intros w. unfold UserAdd. destruct (useradd_result _ _ _); exact I. Qed.



Ltac raises_class :=
  let H := fresh in
  intros [?|?| |] H; first [discriminate H | reflexivity].

Ltac raises_prim :=
  first
    [ apply raises_ret | apply raises_probe | apply raises_log | apply raises_UserAdd
    | apply raises_weaken with (P := is_IOError);
      [raises_class
      | first [apply raises_open_r | apply raises_open_w
              | apply raises_readlines | apply raises_write]]
    | apply raises_weaken with (P := is_OSError);
      [raises_class
      | first [apply raises_os_open | apply raises_os_close | apply raises_unlink
              | apply raises_chmod | apply raises_fchmod
              | apply raises_chown_id; (assumption || reflexivity)
              | apply raises_fchown_id; (assumption || reflexivity)
              | apply raises_mkdir | apply raises_MoveFile]]
    | apply raises_weaken with (P := fun e => is_OSError e || is_OverflowError e);
      [raises_class | first [apply raises_chown | apply raises_fchown]]
    | apply raises_weaken with (P := is_IOError_or_OSError);
      [raises_class | apply raises_mkstemp]
    | apply raises_weaken with (P := is_KeyError);
      [raises_class | first [apply raises_getpwnam | apply raises_getgrnam]] ].

(** A handler for the classes [c] around a body that raises only those. *)
Ltac raises_step :=
  lazymatch goal with
  | |- raises_only _ (bind _ _) => apply raises_bind; [|intros ?]
  | |- raises_only _ (try_finally _ _) => apply raises_try_finally
  | |- raises_only _ (try_except _ ?c _) =>
      let He := fresh in let Hc := fresh in
      apply (raises_try_except _ c);
      [ | intros ? | intros ? He Hc; rewrite He in Hc; discriminate Hc]
  | |- raises_only _ (for_each _ _) => apply raises_for_each; intros ?
  | |- raises_only _ (if ?b then _ else _) => destruct b
  | |- _ => raises_prim
  end.

Ltac raises_tac :=
  unfold MakeUserSudoer, LockSudoers, UnlockSudoers, UserExists, GetUserInfo,
    EnsureHomeDir, WriteAuthorizedSshKeysFile,
    with_file, OpenFile_r, OpenFile_w, os_fdopen, file_close,
    file_writelines, file_seek, IsValidSudoersFile, CreateTempFile,
    os_path_isfile, os_path_isdir, os_path_exists;
  repeat raises_step.

Lemma never_LockSudoers : never_raises LockSudoers.
Proof. raises_tac. Qed.

Lemma never_UnlockSudoers : never_raises UnlockSudoers.
Proof. raises_tac. Qed.

Lemma never_UserExists (user : string) : never_raises (UserExists user).
Proof. raises_tac. Qed.

Lemma raises_MakeUserSudoer (system : system_module) (user : string) :
  raises_only is_IOError (MakeUserSudoer system user).
Proof. raises_tac. Qed.

(** ** Taking and releasing the lock *)

Lemma wp_and {A} (m : M A) (Q1 Q2 : outcome A → world → Prop) (w : world) :
  wp m Q1 w → wp m (fun r w' => Q1 r w' → Q2 r w') w → wp m Q2 w.
Proof. unfold wp. intros H1 H2. exact (H2 H1). Qed.

Lemma wp_grows_never {A} (m : M A) (Q : outcome A → world → Prop) (w : world) :
  grows m → never_raises m →
  (∀ a w' evs, trace w' = (trace w ++ evs)%list → Q (Done a) w') →
  wp m Q w.
Proof.
  intros Hg Hn H. unfold wp. destruct (Hg w) as (evs & E & _). specialize (Hn w).
  destruct (m w) as [[a|e] w']; cbn [fst snd] in *; [|discriminate Hn].
  exact (H _ _ evs E).
Qed.

(** Reading a file other than the marker closes no descriptor of the
    marker. *)
Lemma read_lines_not_granted (p : string) (w : world) :
  p ≠ SUDOERS_TMP →
  wp (with_file (OpenFile_r p) file_readlines)
     (fun _ w' => ∃ evs, trace w' = (trace w ++ evs)%list ∧
                         Forall (fun ev => lock_granted ev = false) evs)
     w.
Proof.
  intros Hp.
  assert (Hc : ∀ err m, lock_granted (Event (close_c p) err m) = false).
  { intros err m. unfold lock_granted. cbn [ev_call].
    apply String.eqb_neq in Hp. rewrite Hp. reflexivity. }
  unfold with_file, OpenFile_r, open_r. apply wp_bind, wp_syscall.
  - intros w1 e _ H1. eexists [_]. split; [exact (after_trace _ _ _ _ _ H1)|].
    constructor; [reflexivity | constructor].
  - intros w1 x _ H1. eexists [_]. split; [exact (after_trace _ _ _ _ _ H1)|].
    constructor; [reflexivity | constructor].
  - intros w1 f m Hb H1.
    assert (f = p) as ->.
    { destruct (fs w !! p) as [[[] ? ? ? ?]|]; inversion Hb; reflexivity. }
    apply wp_try_finally. unfold file_readlines, file_close. apply wp_syscall.
    + intros w2 e _ H2. apply wp_probe. intros w3 H3. eexists [_; _; _]. split.
      * rewrite (after_trace _ _ _ _ _ H3), (after_trace _ _ _ _ _ H2),
          (after_trace _ _ _ _ _ H1), <- !app_assoc. reflexivity.
      * constructor; [reflexivity|]. constructor; [reflexivity|].
        constructor; [apply Hc | constructor].
    + intros w2 x _ H2. apply wp_probe. intros w3 H3. eexists [_; _; _]. split.
      * rewrite (after_trace _ _ _ _ _ H3), (after_trace _ _ _ _ _ H2),
          (after_trace _ _ _ _ _ H1), <- !app_assoc. reflexivity.
      * constructor; [reflexivity|]. constructor; [reflexivity|].
        constructor; [apply Hc | constructor].
    + intros w2 ls m2 _ H2. apply wp_probe. intros w3 H3. eexists [_; _; _]. split.
      * rewrite (after_trace _ _ _ _ _ H3), (after_trace _ _ _ _ _ H2),
          (after_trace _ _ _ _ _ H1), <- !app_assoc. reflexivity.
      * constructor; [reflexivity|]. constructor; [reflexivity|].
        constructor; [apply Hc | constructor].
Qed.

Lemma MakeUserSudoer_release_run (system : system_module) (user : string)
    (w0 : world) :
  wp (MakeUserSudoer system user)
     (fun r w =>
        ∃ evs, trace w = (trace w0 ++ evs)%list ∧
               (existsb lock_granted evs = true →
                r = Done tt ∧ released evs w ∧ fs w0 !! SUDOERS_TMP = None))
     w0.
Proof.
  unfold MakeUserSudoer.
  apply wp_bind. unfold os_path_isfile. apply wp_probe. intros w1 H1.
  pose proof (after_moved _ _ _ _ _ H1) as M1.
  set (ev1 := Event (os_path_isfile_c SUDOERS) None (fs w0)) in *.
  assert (R1 : Forall (fun ev => lock_granted ev = false) [ev1]).
  { constructor; [reflexivity | constructor]. }
  destruct (is_reg (fs w0) SUDOERS); cbn [negb].
  - apply wp_bind.
    apply (wp_and _ _ _ _ (read_lines_not_granted SUDOERS w1 ltac:(discriminate))).
    apply wp_read_lines.
    + intros w2 x evs M2 _ _ (evs' & Ht & Hng).
      pose proof (moved_trans _ _ _ _ _ _ _ M1 M2) as M12.
      rewrite (moved_trace _ _ _ _ M2) in Ht. apply app_inv_head in Ht. subst evs'.
      eexists. split; [exact (moved_trace _ _ _ _ M12)|].
      intros Hex. exfalso. revert Hex. apply existsb_Forall_false.
      apply Forall_app. split; [exact R1 | exact Hng].
    + intros w2 i evs Hi M2 _ (evs' & Ht & Hng).
      pose proof (moved_trans _ _ _ _ _ _ _ M1 M2) as M12.
      rewrite (moved_trace _ _ _ _ M2) in Ht. apply app_inv_head in Ht. subst evs'.
      assert (R2 : Forall (fun ev => lock_granted ev = false) ([ev1] ++ evs)).
      { apply Forall_app. split; [exact R1 | exact Hng]. }
      destruct (Py.truthy _).
      * apply wp_ret. eexists. split; [exact (moved_trace _ _ _ _ M12)|].
        intros Hex. exfalso. revert Hex. apply existsb_Forall_false, R2.
      * apply wp_bind, wp_LockSudoers.
        -- intros w3 x M3 _. cbn [negb].
           apply wp_log_moved. intros w4 M4.
           pose proof (moved_trans _ _ _ _ _ _ _ M12 (moved_trans _ _ _ _ _ _ _ M3 M4)) as M.
           eexists. split; [exact (moved_trace _ _ _ _ M)|].
           intros Hex. exfalso. revert Hex. apply existsb_Forall_false.
           apply Forall_app. split; [exact R2|].
           constructor; [reflexivity | constructor].
        -- intros w3 x _ M3 _. cbn [negb].
           apply wp_log_moved. intros w4 M4.
           pose proof (moved_trans _ _ _ _ _ _ _ M12 (moved_trans _ _ _ _ _ _ _ M3 M4)) as M.
           eexists. split; [exact (moved_trace _ _ _ _ M)|].
           intros Hex. exfalso. revert Hex. apply existsb_Forall_false.
           apply Forall_app. split; [exact R2|].
           constructor; [reflexivity|]. constructor; [reflexivity | constructor].
        -- intros w3 Hnone M3. cbn [negb].
           pose proof (moved_trans _ _ _ _ _ _ _ M12 M3) as M123.
           apply wp_try_finally, wp_grows_never.
           { unfold MakeUserSudoer. grows_tac. }
           { raises_tac. }
           intros [] w4 evs4 E4.
           apply wp_bind, wp_UnlockSudoers.
           intros w5 b err m M5 Hdel _ _ _ _.
           apply wp_ret.
           eexists. split.
           { rewrite (moved_trace _ _ _ _ M5), E4, (moved_trace _ _ _ _ M123).
             rewrite <- !app_assoc. reflexivity. }
           intros _. split; [reflexivity|]. split.
           ++ exists err. rewrite (moved_fs _ _ _ _ M5). split.
              ** rewrite !app_assoc. apply last_snoc.
              ** intros E. destruct (Hdel E) as [-> _]. apply lookup_delete_eq.
           ++ rewrite <- (moved_fs _ _ _ _ M1), <- (moved_fs _ _ _ _ M12).
              exact Hnone.
  - apply wp_log_moved. intros w2 M2.
    pose proof (moved_trans _ _ _ _ _ _ _ M1 M2) as M12.
    eexists. split; [exact (moved_trace _ _ _ _ M12)|].
    intros Hex. exfalso. revert Hex. apply existsb_Forall_false.
    rewrite app_nil_r. exact R1.
Qed.

(** ** An empty user name *)

Lemma events_of_bind_done {A B} (m : M A) (k : A → M B) (w w1 : world) (a : A)
    (evs1 : list event) :
  m w = (Done a, w1) →
  trace w1 = (trace w ++ evs1)%list →
  grows (k a) →
  ∃ evs2, events_of (bind m k) w = (evs1 ++ evs2)%list ∧
          events_of (k a) w1 = evs2.
Proof.
  intros Hm Ht Hk. destruct (Hk w1) as (evs2 & E2 & _).
  exists evs2. unfold events_of, bind. rewrite Hm, E2. split.
  - rewrite Ht, <- app_assoc. apply drop_app_length.
  - apply drop_app_length.
Qed.

Ltac bind_done w1 a evs1 pat :=
  match goal with
  | |- context [events_of (bind ?m ?k) ?w] =>
      destruct (events_of_bind_done m k w w1 a evs1) as pat
  end.

Ltac bind_done_in H w1 a evs1 pat :=
  cbv beta in H;
  match type of H with
  | events_of (bind ?m ?k) ?w = _ =>
      destruct (events_of_bind_done m k w w1 a evs1) as pat
  end.

(** C10.  The empty name passes the check, so [CreateUser] goes on to
    look the account up, and asks for its creation when there is none. *)
Theorem CreateUser_empty_username (system : system_module) (self : Accounts)
    (ssh_keys : list string) (w : world) :
  IsValidUsername "" = true ∧
  (∃ err rest,
     events_of (CreateUser system self "" ssh_keys) w =
     Event (getpwnam_c "") err (fs w) :: rest) ∧
  (passwd w !! "" = None →
   ∃ rest,
     events_of (CreateUser system self "" ssh_keys) w =
     Event (getpwnam_c "") (Some KeyError) (fs w)
     :: Event (useradd_c "" (default_user_groups self)) None (fs w)
     :: Event (getpwnam_c "")
              (match useradd_result system "" (default_user_groups self) with
               | Some _ => None
               | None => Some KeyError
               end) (fs w)
     :: rest).
Proof.
  split; [reflexivity|].
  assert (Hrest : ∀ found : bool, grows
    ((if negb found then UserAdd system "" (default_user_groups self) else ret tt) ;;;
     found <- UserExists "" ;;
     if found then
       MakeUserSudoer system "" ;;;
       _ <- AuthorizeSshKeys "" ssh_keys ;;
       ret tt
     else ret tt)).
  { intros found. grows_tac;
      try apply grows_MakeUserSudoer; try apply grows_AuthorizeSshKeys. }
  assert (Hrest2 : grows
    (found <- UserExists "" ;;
     if found then
       MakeUserSudoer system "" ;;;
       _ <- AuthorizeSshKeys "" ssh_keys ;;
       ret tt
     else ret tt)).
  { grows_tac; try apply grows_MakeUserSudoer; try apply grows_AuthorizeSshKeys. }
  change (CreateUser system self "" ssh_keys) with
    (found <- UserExists "" ;;
     (if negb found then UserAdd system "" (default_user_groups self) else ret tt) ;;;
     found <- UserExists "" ;;
     if found then
       MakeUserSudoer system "" ;;;
       _ <- AuthorizeSshKeys "" ssh_keys ;;
       ret tt
     else ret tt).
  destruct (passwd w !! "") as [ent|] eqn:Epw.
  - split; [|discriminate].
    bind_done (record (getpwnam_c "") None w) true
              [Event (getpwnam_c "") None (fs w)] ipattern:((evs2 & E & _)).
    + unfold UserExists, try_except, bind, pwd_getpwnam. rewrite Epw. reflexivity.
    + reflexivity.
    + apply Hrest.
    + rewrite E. eauto.
  - bind_done (record (getpwnam_c "") (Some KeyError) w) false
              [Event (getpwnam_c "") (Some KeyError) (fs w)] ipattern:((evs2 & E & E2)).
    + unfold UserExists, try_except, bind, pwd_getpwnam. rewrite Epw. reflexivity.
    + reflexivity.
    + apply Hrest.
    + rewrite E. split; [eauto|]. intros _.
      cbn [negb] in E2.
      set (w1 := record (getpwnam_c "") (Some KeyError) w) in *.
      bind_done_in E2 (UserAdd system "" (default_user_groups self) w1).2 tt
        [Event (useradd_c "" (default_user_groups self)) None (fs w)]
        ipattern:((evs3 & E3 & E4)).
      * unfold UserAdd. destruct (useradd_result _ _ _); reflexivity.
      * unfold UserAdd. destruct (useradd_result _ _ _); reflexivity.
      * exact Hrest2.
      * rewrite E3 in E2. subst evs2.
        set (w2 := (UserAdd system "" (default_user_groups self) w1).2) in *.
        assert (Hpw : passwd w2 !! "" =
                      useradd_result system "" (default_user_groups self)).
        { unfold w2, UserAdd. destruct (useradd_result _ _ _); simpl.
          - apply lookup_insert_eq.
          - exact Epw. }
        assert (Hfs : fs w2 = fs w).
        { unfold w2, UserAdd. destruct (useradd_result _ _ _); reflexivity. }
        destruct (useradd_result system "" (default_user_groups self)) as [ent|] eqn:Eadd.
        -- bind_done_in E4 (record (getpwnam_c "") None w2) true
             [Event (getpwnam_c "") None (fs w)] ipattern:((evs5 & E5 & _)).
           ++ unfold UserExists, try_except, bind, pwd_getpwnam. rewrite Hpw. reflexivity.
           ++ simpl. rewrite Hfs. reflexivity.
           ++ grows_tac; try apply grows_MakeUserSudoer; try apply grows_AuthorizeSshKeys.
           ++ rewrite <- E4, E5. simpl. eauto.
        -- bind_done_in E4 (record (getpwnam_c "") (Some KeyError) w2) false
             [Event (getpwnam_c "") (Some KeyError) (fs w)] ipattern:((evs5 & E5 & _)).
           ++ unfold UserExists, try_except, bind, pwd_getpwnam. rewrite Hpw. reflexivity.
           ++ simpl. rewrite Hfs. reflexivity.
           ++ grows_tac.
           ++ rewrite <- E4, E5. simpl. eauto.
Qed.

Lemma CreateUser_empty_username_witness :
  ∃ rest,
    events_of (CreateUser demo_system (Build_Accounts ["adm"]) "" ["ssh-rsa AAAA"])
              demo_world =
    Event (getpwnam_c "") (Some KeyError) (fs demo_world)
    :: Event (useradd_c "" ["adm"]) None (fs demo_world)
    :: Event (getpwnam_c "") None (fs demo_world)
    :: rest.
Proof.
  apply (proj2 (proj2 (CreateUser_empty_username demo_system (Build_Accounts ["adm"])
                         ["ssh-rsa AAAA"] demo_world))).
  reflexivity.
Defined.

(** ** Lines and contents *)

Lemma str_app_assoc (a b c : string) : (a +:+ b) +:+ c = a +:+ (b +:+ c).
Proof.
  induction a as [|x a IH]; [reflexivity|].
  change (String x ((a +:+ b) +:+ c) = String x (a +:+ (b +:+ c))).
  f_equal. exact IH.
Qed.

Lemma str_app_nil_r (a : string) : a +:+ "" = a.
Proof.
  induction a as [|x a IH]; [reflexivity|].
  change (String x (a +:+ "") = String x a). f_equal. exact IH.
Qed.

Lemma join_app (xs ys : list string) :
  Py.join (xs ++ ys) = Py.join xs +:+ Py.join ys.
Proof.
  induction xs as [|x xs IH]; simpl; [reflexivity|].
  rewrite IH, str_app_assoc. reflexivity.
Qed.

Lemma join_snoc (xs : list string) (x : string) :
  Py.join (xs ++ [x]) = Py.join xs +:+ x.
Proof. rewrite join_app. simpl. rewrite str_app_nil_r. reflexivity. Qed.

Lemma is_prefix_of_join (done todo : list string) :
  is_prefix_of (Py.join done) (Py.join (done ++ todo)).
Proof. exists (Py.join todo). apply join_app. Qed.

Lemma join_readlines (s : string) : Py.join (Py.readlines s) = s.
Proof.
  induction s as [|c s IH]; [reflexivity|]. cbn [Py.readlines].
  destruct (Ascii.eqb_spec c Py.LF) as [->|Hc].
  - cbn [Py.join]. rewrite IH. reflexivity.
  - destruct (Py.readlines s) as [|l ls]; cbn [Py.join] in *.
    + rewrite <- IH. reflexivity.
    + rewrite <- IH. reflexivity.
Qed.

Lemma no_LF_app (a b : string) :
  no_LF (a +:+ b) = no_LF a && no_LF b.
Proof.
  unfold no_LF. induction a as [|x a IH]; simpl; [reflexivity|].
  rewrite IH, andb_assoc. reflexivity.
Qed.

Lemma endswith_cons (x : ascii) (s p : string) :
  Py.endswith (String x s) p = String.eqb (String x s) p || Py.endswith s p.
Proof. reflexivity. Qed.

Lemma endswith_terminated (b : string) :
  Py.endswith (b +:+ Py.NL) Py.NL = true.
Proof.
  induction b as [|x b IH]; [reflexivity|].
  change (String x b +:+ Py.NL) with (String x (b +:+ Py.NL)).
  rewrite endswith_cons, IH. apply orb_true_r.
Qed.

Lemma endswith_no_LF (l : string) :
  no_LF l = true → Py.endswith l Py.NL = false.
Proof.
  unfold no_LF. induction l as [|x l IH]; [reflexivity|].
  cbn [str_forall]. intros H. rewrite endswith_cons.
  apply andb_true_iff in H as [Hx Hl]. rewrite (IH Hl), orb_false_r.
  apply String.eqb_neq. intros E. inversion E; subst. discriminate Hx.
Qed.

Lemma terminated_ETN (l : string) : terminated l → EnsureTrailingNewline l = l.
Proof.
  intros (b & -> & _). unfold EnsureTrailingNewline.
  rewrite endswith_terminated. reflexivity.
Qed.

Lemma no_LF_ETN (l : string) :
  no_LF l = true → EnsureTrailingNewline l = l +:+ Py.NL.
Proof.
  intros H. unfold EnsureTrailingNewline. rewrite (endswith_no_LF _ H). reflexivity.
Qed.

Lemma ETN_terminated (l : string) :
  terminated l ∨ no_LF l = true → terminated (EnsureTrailingNewline l).
Proof.
  intros [H|H].
  - rewrite (terminated_ETN _ H). exact H.
  - rewrite (no_LF_ETN _ H). exists l. split; [reflexivity | exact H].
Qed.

Lemma readlines_cons (c : ascii) (s : string) :
  Py.readlines (String c s) =
  if Ascii.eqb c Py.LF then Py.NL :: Py.readlines s
  else match Py.readlines s with
       | [] => [String c EmptyString]
       | l :: ls => String c l :: ls
       end.
Proof. reflexivity. Qed.

Lemma readlines_terminated (l rest : string) :
  terminated l → Py.readlines (l +:+ rest) = l :: Py.readlines rest.
Proof.
  intros (b & -> & Hb). rewrite str_app_assoc.
  unfold no_LF in Hb. induction b as [|x b IH].
  - reflexivity.
  - cbn [str_forall] in Hb. apply andb_true_iff in Hb as [Hx Hb].
    change (String x b +:+ Py.NL +:+ rest) with (String x (b +:+ Py.NL +:+ rest)).
    rewrite readlines_cons.
    apply negb_true_iff in Hx. rewrite Hx, (IH Hb). reflexivity.
Qed.

Lemma readlines_join (ls : list string) :
  Forall terminated ls → Py.readlines (Py.join ls) = ls.
Proof.
  induction 1 as [|l ls Hl _ IH]; [reflexivity|].
  cbn [Py.join]. rewrite (readlines_terminated _ _ Hl), IH. reflexivity.
Qed.

Lemma readlines_lines (s : string) :
  Forall (fun l => terminated l ∨ no_LF l = true) (Py.readlines s).
Proof.
  induction s as [|c s IH]; [constructor|]. cbn [Py.readlines].
  destruct (Ascii.eqb_spec c Py.LF) as [->|Hc].
  - constructor; [|exact IH]. left. exists "". split; reflexivity.
  - assert (Hc' : negb (Ascii.eqb c Py.LF) = true)
      by (apply negb_true_iff, Ascii.eqb_neq, Hc).
    destruct (Py.readlines s) as [|l ls].
    + constructor; [|constructor]. right. unfold no_LF. simpl.
      rewrite Hc'. reflexivity.
    + inversion IH as [|? ? Hl Hls]; subst. constructor; [|exact Hls].
      destruct Hl as [(b & -> & Hb)|Hl].
      * left. exists (String c b). split; [reflexivity|].
        unfold no_LF in *. simpl. rewrite Hc', Hb. reflexivity.
      * right. unfold no_LF in *. simpl. rewrite Hc', Hl. reflexivity.
Qed.

Lemma rule_line_no_LF (user : string) :
  no_LF user = true → no_LF (rule_line user) = true.
Proof. intros H. unfold rule_line. rewrite no_LF_app, H. reflexivity. Qed.

Lemma candidate_lines_terminated (user d0 : string) :
  no_LF user = true → Forall terminated (candidate_lines user d0).
Proof.
  intros Hu. unfold candidate_lines. rewrite map_app. apply Forall_app. split.
  - apply Forall_map. eapply Forall_impl; [apply readlines_lines|].
    intros l Hl. apply ETN_terminated, Hl.
  - constructor; [|constructor]. apply ETN_terminated. right.
    apply rule_line_no_LF, Hu.
Qed.

Lemma readlines_candidate (user d0 : string) :
  no_LF user = true →
  Py.readlines (candidate user d0) = candidate_lines user d0.
Proof. intros Hu. apply readlines_join, candidate_lines_terminated, Hu. Qed.

Lemma valid_username_no_LF (user : string) :
  IsValidUsername user = true → no_LF user = true.
Proof. intros H. apply portable_not_LF, valid_username_portable, H. Qed.

Lemma rule_line_is_entry (user : string) :
  no_LF user = true →
  IsUserSudoerEntry user (EnsureTrailingNewline (rule_line user)) = true.
Proof.
  intros Hu. rewrite (no_LF_ETN _ (rule_line_no_LF _ Hu)).
  unfold rule_line. rewrite str_app_assoc.
  apply (IsUserSudoerEntry_literal user " "); [exact Hu | reflexivity].
Qed.

(** Once granted, the entry is found. *)
Lemma candidate_has_entry (user d0 : string) :
  no_LF user = true →
  Py.truthy (IsUserSudoerInLines user (Py.readlines (candidate user d0))) = true.
Proof.
  intros Hu. rewrite (readlines_candidate _ _ Hu).
  unfold IsUserSudoerInLines, candidate_lines.
  rewrite map_app, List.filter_app. simpl.
  rewrite (rule_line_is_entry _ Hu).
  destruct (List.filter _ _); reflexivity.
Qed.

Lemma ETN_is_rule (user l : string) :
  no_LF user = true →
  EnsureTrailingNewline l = rule_line user +:+ Py.NL →
  IsUserSudoerEntry user l = true.
Proof.
  intros Hu. unfold EnsureTrailingNewline.
  destruct (Py.endswith l Py.NL); intros E.
  - subst l. rewrite <- (no_LF_ETN _ (rule_line_no_LF _ Hu)).
    apply rule_line_is_entry, Hu.
  - apply (f_equal (fun s => s)) in E.
    assert (l = rule_line user) as ->.
    { revert E. generalize (rule_line user) as r. clear.
      induction l as [|x l IH]; intros [|y r] E; simpl in E.
      - reflexivity.
      - inversion E as [[Hy Hr]]. destruct r; discriminate Hr.
      - inversion E as [[Hx Hl]]. destruct l; discriminate Hl.
      - inversion E; subst. f_equal. apply IH. assumption. }
    unfold rule_line.
    apply (IsUserSudoerEntry_literal user " "); [exact Hu | reflexivity].
Qed.

(** A granted file holds exactly one line that is the rule line. *)
Lemma candidate_one_rule (user d0 : string) :
  no_LF user = true →
  IsUserSudoerInLines user (Py.readlines d0) = [] →
  count_rule_lines user (candidate user d0) = 1.
Proof.
  intros Hu Hnone. unfold count_rule_lines.
  rewrite (readlines_candidate _ _ Hu). unfold candidate_lines.
  rewrite map_app, List.filter_app, length_app. simpl.
  rewrite (no_LF_ETN _ (rule_line_no_LF _ Hu)), String.eqb_refl. simpl.
  assert (E : List.filter (fun l => String.eqb l (rule_line user +:+ Py.NL))
                (map EnsureTrailingNewline (Py.readlines d0)) = []).
  { unfold IsUserSudoerInLines in Hnone.
    induction (Py.readlines d0) as [|l ls IH]; [reflexivity|].
    simpl in Hnone |- *.
    destruct (IsUserSudoerEntry user l) eqn:El; [discriminate|].
    destruct (String.eqb_spec (EnsureTrailingNewline l) (rule_line user +:+ Py.NL)) as [E|_].
    - rewrite (ETN_is_rule _ _ Hu E) in El. discriminate.
    - apply IH, Hnone. }
  rewrite E. reflexivity.
Qed.

(** ** Writing lines *)

Lemma grown_nil (f : string) (t : ftype) (d : string) (mode uid gid : Z)
    (m : gmap string inode) :
  m !! f = Some (Inode t d mode uid gid) → grown f t d mode uid gid m [] = m.
Proof.
  intros H. unfold grown. simpl. rewrite str_app_nil_r. apply insert_id, H.
Qed.

Lemma grown_cons (f : string) (t : ftype) (d l : string) (mode uid gid : Z)
    (m : gmap string inode) (done : list string) :
  grown f t (d +:+ l) mode uid gid (<[f := Inode t (d +:+ l) mode uid gid]> m) done
  = grown f t d mode uid gid m (l :: done).
Proof.
  unfold grown. simpl. rewrite insert_insert_eq, str_app_assoc. reflexivity.
Qed.

Lemma wp_writelines (f : string) (ls : list string)
    (Q : outcome unit → world → Prop) (w : world)
    (t : ftype) (d : string) (mode uid gid : Z) :
  fs w !! f = Some (Inode t d mode uid gid) →
  (∀ w' r done todo evs,
     ls = (done ++ todo)%list →
     moved w w' (grown f t d mode uid gid (fs w) done) evs →
     Forall (fun ev => ∃ done' todo',
                ls = (done' ++ todo')%list ∧
                ev_fs ev = grown f t d mode uid gid (fs w) done') evs →
     (r = Done tt → todo = []) →
     (faults w = [] → r = Done tt) →
     Q r w') →
  wp (file_writelines f ls) Q w.
Proof.
  unfold file_writelines.
  revert Q w d. induction ls as [|l ls IH]; intros Q w d Hf HQ.
  - apply wp_ret. apply (HQ w (Done tt) [] [] []); try reflexivity; try tauto.
    + rewrite (grown_nil _ _ _ _ _ _ _ Hf). apply moved_refl.
    + constructor.
  - cbn [for_each]. apply wp_bind. unfold file_write. apply wp_syscall.
    + intros w1 e He H1.
      apply (HQ w1 _ [] (l :: ls)
               [Event (write_c f l) (Some (IOError e)) (fs w)]); try reflexivity.
      * rewrite (grown_nil _ _ _ _ _ _ _ Hf). exact (after_moved _ _ _ _ _ H1).
      * constructor; [|constructor]. exists [], (l :: ls). split; [reflexivity|].
        simpl. symmetry. apply grown_nil, Hf.
      * discriminate.
      * intros E. rewrite E in He. discriminate.
    + intros w1 x Hb H1. rewrite Hf in Hb. discriminate.
    + intros w1 [] m Hb H1. rewrite Hf in Hb. inversion Hb; subst m. clear Hb.
      pose proof (after_moved _ _ _ _ _ H1) as M1.
      apply (IH _ _ (d +:+ l)).
      { rewrite (after_fs _ _ _ _ _ H1). apply lookup_insert_eq. }
      intros w' r done todo evs Els M Hall Hdone Hnf.
      rewrite (after_fs _ _ _ _ _ H1), grown_cons in M.
      apply (HQ w' r (l :: done) todo
               (Event (write_c f l) None (<[f := Inode t (d +:+ l) mode uid gid]> (fs w))
                :: evs)).
      * rewrite Els. reflexivity.
      * exact (moved_trans _ _ _ _ _ _ _ M1 M).
      * constructor.
        -- exists [l], ls. split; [reflexivity|]. unfold grown. simpl.
           rewrite str_app_nil_r. reflexivity.
        -- eapply Forall_impl; [exact Hall|]. intros ev (done' & todo' & E' & Hev).
           exists (l :: done'), todo'. split; [rewrite E'; reflexivity|].
           rewrite Hev, (after_fs _ _ _ _ _ H1). apply grown_cons.
      * exact Hdone.
      * intros E. apply Hnf. exact (moved_faults _ _ _ _ M1 E).
Qed.

(** ** A temporary file *)

Lemma first_free_free (m : gmap string inode) (names : list string)
    (n : string) (rest : list string) :
  first_free m names = (Some n, rest) → m !! n = None.
Proof.
  induction names as [|x names IH]; simpl; [discriminate|].
  destruct (m !! x) eqn:Ex; [exact IH|].
  intros E. inversion E; subst. exact Ex.
Qed.

Lemma wp_mkstemp (Q : outcome (string * string) → world → Prop) (w : world) :
  (∀ w' x,
     moved w w' (fs w) [Event mkstemp_c (Some x) (fs w)] →
     (faults w = [] → (first_free (fs w) (tmpnames w)).1 = None) →
     is_IOError_or_OSError x = true →
     Q (Raised x) w') →
  (∀ w' n,
     fs w !! n = None →
     (first_free (fs w) (tmpnames w)).1 = Some n →
     moved w w' (<[n := tmp_inode]> (fs w))
       [Event mkstemp_c None (<[n := tmp_inode]> (fs w))] →
     Q (Done (n, n)) w') →
  wp tempfile_mkstemp Q w.
Proof.
  intros Hraise Hok. unfold tempfile_mkstemp, wp. cbv beta.
  destruct (first_free (fs w) (tmpnames w)) as [free rest] eqn:Ef.
  set (w1 := set_tmpnames rest w).
  assert (Hmv : ∀ w' b m ev, after b w1 w' m ev → moved w w' m [ev]).
  { intros w' b m ev H. destruct (after_moved _ _ _ _ _ H) as [Hfs Htr Hfl].
    split; assumption. }
  change (wp (syscall mkstemp_c OSError
                (fun m => match free with
                          | Some n => inr ((n, n), <[n := tmp_inode]> m)
                          | None => inl (IOError EEXIST)
                          end)) Q w1).
  simpl fst in Hraise, Hok.
  apply wp_syscall.
  - intros w' e He H. apply (Hraise _ _ (Hmv _ _ _ _ H)); [|reflexivity].
    intros E. change (faults w1) with (faults w) in He. rewrite E in He. discriminate.
  - intros w' x Hb H. destruct free; [discriminate|]. inversion Hb; subst x.
    apply (Hraise _ _ (Hmv _ _ _ _ H)); reflexivity.
  - intros w' a m Hb H. destruct free as [n|]; [|discriminate].
    inversion Hb; subst a m. apply Hok.
    + exact (first_free_free _ _ _ _ Ef).
    + reflexivity.
    + exact (Hmv _ _ _ _ H).
Qed.

(** ** The sudoers file during a run *)

Section Safety.

Variable system : system_module.
Variable user : string.
Variable w0 : world.

Local Abbreviation c0 := (content_at SUDOERS (fs w0)).
Local Abbreviation ok := (sudoers_ok system user c0).
Local Abbreviation Good := (good system user w0).

Lemma good_weaken (P : option string → Prop) (w : world) :
  (∀ c, P c → ok c) → Good P w → Good ok w.
Proof. intros H [Ht Hp]. split; [exact Ht | apply H, Hp]. Qed.

Lemma good_moved (P P' : option string → Prop) (w w' : world)
    (m : gmap string inode) (evs : list event) :
  Good P w → moved w w' m evs →
  Forall (fun ev => ok (content_at SUDOERS (ev_fs ev))) evs →
  P' (content_at SUDOERS m) →
  Good P' w'.
Proof.
  intros [Ht _] M Hevs Hm. split.
  - exact (tracked_moved _ _ _ _ _ _ Ht M Hevs).
  - rewrite (moved_fs _ _ _ _ M). exact Hm.
Qed.

Lemma good_start : Good (fun c => c = c0) w0.
Proof. split; [apply tracked_refl | reflexivity]. Qed.

(** A call that leaves the content of the sudoers file as it is. *)
Lemma wp_syscall_keeps {A} (c : call) (cls : errno → exn)
    (body : gmap string inode → exn + (A * gmap string inode))
    (P : option string → Prop) (Q : outcome A → world → Prop) (w : world) :
  (∀ m a m', body m = inr (a, m') →
             content_at SUDOERS m' = content_at SUDOERS m) →
  (∀ c, P c → ok c) →
  Good P w →
  (∀ r w', Good P w' → Q r w') →
  wp (syscall c cls body) Q w.
Proof.
  intros Hkeep Hok Hg HQ.
  assert (Hnow : ok (content_at SUDOERS (fs w))) by (apply Hok, Hg).
  apply wp_syscall.
  - intros w' e _ H. apply HQ.
    apply (good_moved P P w w' _ _ Hg (after_moved _ _ _ _ _ H)).
    + constructor; [exact Hnow | constructor].
    + apply Hg.
  - intros w' x _ H. apply HQ.
    apply (good_moved P P w w' _ _ Hg (after_moved _ _ _ _ _ H)).
    + constructor; [exact Hnow | constructor].
    + apply Hg.
  - intros w' a m Hb H. apply HQ.
    apply (good_moved P P w w' _ _ Hg (after_moved _ _ _ _ _ H)).
    + constructor; [|constructor]. simpl. rewrite (Hkeep _ _ _ Hb). exact Hnow.
    + rewrite (Hkeep _ _ _ Hb). apply Hg.
Qed.

Lemma wp_probe_keeps {A} (c : call) (f : world → A)
    (P : option string → Prop) (Q : outcome A → world → Prop) (w : world) :
  (∀ c, P c → ok c) →
  Good P w →
  (∀ w', Good P w' → fs w' = fs w → Q (Done (f w)) w') →
  wp (probe c f) Q w.
Proof.
  intros Hok Hg HQ. apply wp_probe. intros w' H. apply HQ.
  - apply (good_moved P P w w' _ _ Hg (after_moved _ _ _ _ _ H)).
    + constructor; [apply Hok, Hg | constructor].
    + apply Hg.
  - exact (after_fs _ _ _ _ _ H).
Qed.

Lemma wp_log_keeps (l : level) (msg : string)
    (P : option string → Prop) (Q : outcome unit → world → Prop) (w : world) :
  Good P w →
  (∀ w', Good P w' → fs w' = fs w → Q (Done tt) w') →
  wp (logging_log l msg) Q w.
Proof.
  intros Hg HQ. apply wp_log_moved. intros w' M. apply HQ.
  - apply (good_moved P P w w' _ _ Hg M); [constructor | apply Hg].
  - exact (moved_fs _ _ _ _ M).
Qed.

Lemma content_insert_ne (p : string) (i : inode) (m : gmap string inode) :
  p ≠ SUDOERS → content_at SUDOERS (<[p := i]> m) = content_at SUDOERS m.
Proof. intros H. unfold content_at. rewrite lookup_insert_ne by exact H. reflexivity. Qed.

Lemma content_delete_ne (p : string) (m : gmap string inode) :
  p ≠ SUDOERS → content_at SUDOERS (delete p m) = content_at SUDOERS m.
Proof. intros H. unfold content_at. rewrite lookup_delete_ne by exact H. reflexivity. Qed.

Lemma content_insert (i : inode) (m : gmap string inode) :
  content_at SUDOERS (<[SUDOERS := i]> m) = Some (i_data i).
Proof. unfold content_at. rewrite lookup_insert_eq. reflexivity. Qed.

Lemma chmod_in_keeps (p : string) (mode : Z) (m : gmap string inode)
    (a : unit) (m' : gmap string inode) :
  chmod_in m p mode = inr (a, m') →
  content_at SUDOERS m' = content_at SUDOERS m.
Proof.
  unfold chmod_in. destruct (m !! p) as [[t d md uid gid]|] eqn:E; [|discriminate].
  intros H. inversion H; subst. unfold content_at.
  destruct (decide (p = SUDOERS)) as [->|Hne].
  - rewrite lookup_insert_eq, E. reflexivity.
  - rewrite lookup_insert_ne by exact Hne. reflexivity.
Qed.

Lemma MakeUserSudoer_safe_run :
  wp (MakeUserSudoer system user) (fun _ w => Good ok w) w0.
Proof.
  assert (Heq : ∀ c, c = c0 → ok c) by (intros c ->; left; reflexivity).
  unfold MakeUserSudoer.
  apply wp_bind. unfold os_path_isfile.
  apply (wp_probe_keeps _ _ (fun c => c = c0)); [exact Heq | apply good_start |].
  intros w1 G1 F1.
  destruct (is_reg (fs w0) SUDOERS); cbn [negb].
  2: { apply (wp_log_keeps _ _ _ _ _ G1). intros w2 G2 _.
       exact (good_weaken _ _ Heq G2). }
  assert (Hreads : ∀ evs, Forall (reads (fs w0)) evs →
            Forall (fun ev => ok (content_at SUDOERS (ev_fs ev))) evs).
  { intros evs Hr. eapply Forall_impl; [exact Hr|].
    intros ev [E _]. rewrite E. left. reflexivity. }
  apply wp_bind, wp_read_lines.
  { intros w2 x evs M2 Hr _. rewrite F1 in M2, Hr.
    exact (good_moved _ ok _ _ _ _ G1 M2 (Hreads _ Hr) (Heq _ eq_refl)). }
  intros w2 i evs Hi M2 Hr. rewrite F1 in Hi, M2, Hr.
  pose proof (good_moved _ (fun c => c = c0) _ _ _ _ G1 M2 (Hreads _ Hr) eq_refl) as G2.
  assert (Hc0 : c0 = Some (i_data i)) by (unfold content_at; rewrite Hi; reflexivity).
  destruct (Py.truthy (IsUserSudoerInLines user (Py.readlines (i_data i)))) eqn:Hmem.
  { apply wp_ret. exact (good_weaken _ _ Heq G2). }
  apply wp_bind, wp_LockSudoers.
  { intros w3 x M3 _. cbn [negb]. rewrite (moved_fs _ _ _ _ M2) in M3.
    assert (G3 : Good (fun c => c = c0) w3).
    { apply (good_moved _ _ _ _ _ _ G2 M3); [|reflexivity].
      constructor; [left; reflexivity | constructor]. }
    apply (wp_log_keeps _ _ _ _ _ G3). intros w4 G4 _.
    exact (good_weaken _ _ Heq G4). }
  { intros w3 x _ M3 _. cbn [negb]. rewrite (moved_fs _ _ _ _ M2) in M3.
    assert (Cm1 : content_at SUDOERS (<[SUDOERS_TMP := lock_inode]> (fs w0)) = c0).
    { apply content_insert_ne. discriminate. }
    assert (G3 : Good (fun c => c = c0) w3).
    { apply (good_moved _ _ _ _ _ _ G2 M3); [|exact Cm1].
      constructor; [left; exact Cm1|]. constructor; [left; exact Cm1|constructor]. }
    apply (wp_log_keeps _ _ _ _ _ G3). intros w4 G4 _.
    exact (good_weaken _ _ Heq G4). }
  intros w3 Hnone M3. cbn [negb].
  rewrite (moved_fs _ _ _ _ M2) in Hnone, M3.
  set (m1 := <[SUDOERS_TMP := lock_inode]> (fs w0)) in *.
  assert (Hm1 : m1 !! SUDOERS = Some i).
  { unfold m1. rewrite lookup_insert_ne by discriminate. exact Hi. }
  assert (Cm1 : content_at SUDOERS m1 = c0).
  { unfold m1. apply content_insert_ne. discriminate. }
  assert (G3 : Good (fun c => c = c0) w3).
  { apply (good_moved _ _ _ _ _ _ G2 M3); [|exact Cm1].
    constructor; [left; exact Cm1|]. constructor; [left; exact Cm1|constructor]. }
  pose proof (moved_fs _ _ _ _ M3) as F3.
  clearbody m1. clear G1 G2 M2 M3 Hr evs F1 w1 w2 Hnone.
  apply wp_try_finally.
  apply (wp_mono _ (fun _ w => Good ok w)).
  2: { intros r w Gw. apply wp_bind, wp_UnlockSudoers.
       intros w' b err m M Hdel Hsame _ _ _. apply wp_ret.
       assert (Cm : content_at SUDOERS m = content_at SUDOERS (fs w)).
       { destruct err as [x|].
         - rewrite Hsame by discriminate. reflexivity.
         - destruct (Hdel eq_refl) as [-> _]. apply content_delete_ne. discriminate. }
       apply (good_moved _ ok _ _ _ _ Gw M).
       - constructor; [|constructor]. simpl. rewrite Cm. apply Gw.
       - rewrite Cm. apply Gw. }
  apply wp_try_except.
  apply (wp_mono _ (fun _ w => Good ok w)).
  2: { intros [a|e] w Gw; [exact Gw|].
       destruct (is_IOError_or_OSError e); [|exact Gw].
       apply (wp_log_keeps _ _ _ _ _ Gw). intros w' Gw' _. exact Gw'. }
  apply wp_bind, wp_read_lines.
  { intros w4 x evs M4 Hr _. rewrite F3 in M4, Hr.
    apply (good_moved _ ok _ _ _ _ G3 M4); [|left; exact Cm1].
    eapply Forall_impl; [exact Hr|]. intros ev [E _]. rewrite E. left. exact Cm1. }
  intros w4 i' evs Hi' M4 Hr. rewrite F3 in Hi', M4, Hr.
  rewrite Hm1 in Hi'. inversion Hi'; subst i'. clear Hi'.
  assert (G4 : Good (fun c => c = c0) w4).
  { apply (good_moved _ _ _ _ _ _ G3 M4); [|exact Cm1].
    eapply Forall_impl; [exact Hr|]. intros ev [E _]. rewrite E. left. exact Cm1. }
  pose proof (moved_fs _ _ _ _ M4) as F4. clear G3 F3 M4 Hr evs w3.
  rewrite Hmem.
  apply wp_bind, wp_mkstemp.
  { intros w5 x M5 _ _. rewrite F4 in M5.
    apply (good_moved _ ok _ _ _ _ G4 M5); [|left; exact Cm1].
    constructor; [left; exact Cm1 | constructor]. }
  intros w5 n Hn _ M5. rewrite F4 in Hn, M5.
  assert (Hne : n ≠ SUDOERS) by (intros ->; rewrite Hm1 in Hn; discriminate).
  assert (Cm2 : content_at SUDOERS (<[n := tmp_inode]> m1) = c0).
  { rewrite content_insert_ne by exact Hne. exact Cm1. }
  assert (G5 : Good (fun c => c = c0) w5).
  { apply (good_moved _ _ _ _ _ _ G4 M5); [|exact Cm2].
    constructor; [left; exact Cm2 | constructor]. }
  pose proof (moved_fs _ _ _ _ M5) as F5. clear G4 F4 M5 w4.
  cbn [fst snd].
  set (ls := map EnsureTrailingNewline
               (Py.readlines (i_data i) ++ [user +:+ " ALL=NOPASSWD: ALL"])).
  apply wp_bind. unfold with_file at 1, os_fdopen.
  apply wp_bind, wp_ret, wp_try_finally, wp_bind.
  apply (wp_writelines n ls _ w5 S_IFREG "" (octal 6 0 0) 0 0).
  { rewrite F5. apply lookup_insert_eq. }
  intros w6 r done todo evs6 Els M6 Hall Hdone _. rewrite F5 in M6, Hall.
  assert (Cg : ∀ dn, content_at SUDOERS
            (grown n S_IFREG "" (octal 6 0 0) 0 0 (<[n := tmp_inode]> m1) dn) = c0).
  { intros dn. unfold grown. rewrite content_insert_ne by exact Hne. exact Cm2. }
  assert (G6 : Good (fun c => c = c0) w6).
  { apply (good_moved _ _ _ _ _ _ G5 M6); [|apply Cg].
    eapply Forall_impl; [exact Hall|].
    intros ev (dn & td & _ & E). rewrite E. left. apply Cg. }
  pose proof (moved_fs _ _ _ _ M6) as F6. clear G5 F5 M6 Hall evs6 w5.
  destruct r as [[]|x].
  2: { unfold file_close.
       apply (wp_probe_keeps _ _ _ _ _ Heq G6). intros w7 G7 _.
       exact (good_weaken _ _ Heq G7). }
  rewrite (Hdone eq_refl), app_nil_r in Els. subst done. clear Hdone.
  unfold file_seek. apply wp_ret. unfold file_close.
  apply (wp_probe_keeps _ _ _ _ _ Heq G6). intros w7 G7 F7.
  rewrite F6 in F7. clear G6 F6 w6.
  apply wp_try_finally.
  apply (wp_mono _ (fun _ w => Good ok w)).
  2: { intros r w Gw. apply wp_try_except. unfold os_unlink.
       apply (wp_syscall_keeps _ _ _ ok); [|auto|exact Gw|].
       - intros m a m' Hb.
         destruct (m !! n) as [[[] ? ? ? ?]|]; inversion Hb; subst.
         apply content_delete_ne, Hne.
       - intros [a|e] w' Gw'; [exact Gw'|].
         destruct (is_IOError_or_OSError e); [apply wp_ret|]; exact Gw'. }
  apply wp_bind. unfold IsValidSudoersFile.
  apply (wp_probe_keeps _ _ _ _ _ Heq G7). intros w8 G8 F8.
  rewrite F7. unfold grown at 1. rewrite lookup_insert_eq. cbn [i_data].
  change ("" +:+ Py.join ls) with (candidate user (i_data i)).
  destruct (visudo_ok system (candidate user (i_data i))) eqn:Hv; cbn [negb].
  2: { apply (wp_log_keeps _ _ _ _ _ G8). intros w9 G9 _.
       exact (good_weaken _ _ Heq G9). }
  clear F8 F7 w7 G7.
  apply wp_bind. unfold os_chmod.
  apply (wp_syscall_keeps _ _ _ _ _ _ (chmod_in_keeps _ _) Heq G8).
  intros r9 w9 G9. destruct r9 as [[]|x]; [|exact (good_weaken _ _ Heq G9)].
  clear G8 w8.
  assert (Hpre : ∀ dn td, ls = (dn ++ td)%list → ok (Some ("" +:+ Py.join dn))).
  { intros dn td E. right. exists (i_data i), (Py.join dn).
    split; [exact Hc0|]. split; [exact Hv|]. split; [reflexivity|].
    change (candidate user (i_data i)) with (Py.join ls). rewrite E.
    apply is_prefix_of_join. }
  assert (Hnow : ok (content_at SUDOERS (fs w9))) by (apply Heq, G9).
  unfold with_file, OpenFile_w, open_w. apply wp_bind, wp_syscall.
  { intros w10 e _ H10.
    apply (good_moved _ ok _ _ _ _ G9 (after_moved _ _ _ _ _ H10)); [|exact Hnow].
    constructor; [exact Hnow | constructor]. }
  { intros w10 x _ H10.
    apply (good_moved _ ok _ _ _ _ G9 (after_moved _ _ _ _ _ H10)); [|exact Hnow].
    constructor; [exact Hnow | constructor]. }
  intros w10 f m Hb H10.
  assert (f = SUDOERS ∧ ∃ mode uid gid,
            m = <[SUDOERS := Inode S_IFREG "" mode uid gid]> (fs w9))
    as (-> & mode & uid & gid & ->).
  { destruct (fs w9 !! SUDOERS) as [[[] ? ? ? ?]|]; inversion Hb; subst; eauto. }
  clear Hb.
  assert (G10 : Good ok w10).
  { apply (good_moved _ ok _ _ _ _ G9 (after_moved _ _ _ _ _ H10)).
    - constructor; [|constructor]. simpl. rewrite content_insert.
      apply (Hpre [] ls). reflexivity.
    - rewrite content_insert. apply (Hpre [] ls). reflexivity. }
  pose proof (after_fs _ _ _ _ _ H10) as F10. clear H10 G9 Hnow.
  apply wp_try_finally.
  apply (wp_mono _ (fun _ w => Good ok w)).
  2: { intros r w Gw. unfold file_close.
       apply (wp_probe_keeps _ _ ok); [auto | exact Gw|].
       intros w' Gw' _. exact Gw'. }
  apply wp_bind.
  apply (wp_writelines SUDOERS ls _ w10 S_IFREG "" mode uid gid).
  { rewrite F10. apply lookup_insert_eq. }
  intros w11 r done todo' evs11 Els M11 Hall Hdone _.
  assert (G11 : Good ok w11).
  { apply (good_moved _ ok _ _ _ _ G10 M11).
    - eapply Forall_impl; [exact Hall|].
      intros ev (dn & td & E & Hev). rewrite Hev. unfold grown.
      rewrite content_insert. exact (Hpre dn td E).
    - unfold grown. rewrite content_insert. exact (Hpre done todo' Els). }
  clear M11 Hall G10 F10.
  destruct r as [[]|x]; [|exact G11].
  apply wp_bind. unfold os_fchmod.
  apply (wp_syscall_keeps _ _ _ ok _ _ (chmod_in_keeps _ _)); [auto | exact G11 |].
  intros r12 w12 G12. destruct r12 as [[]|x]; [|exact G12].
  apply wp_try_except.
  apply (wp_syscall_keeps _ _ _ ok _ _ (chmod_in_keeps _ _)); [auto | exact G12 |].
  intros r13 w13 G13. destruct r13 as [[]|x]; [exact G13|].
  destruct (is_IOError_or_OSError x); [|exact G13].
  apply (wp_log_keeps _ _ _ _ _ G13). intros w14 G14 _. exact G14.
Qed.

End Safety.

(** C1, as the claim states it, fails: the editor opens the live file for
    writing, which cuts it to nothing, and then writes the lines into it.
    After the [open] the file is empty, which is neither what it held
    before the call nor what it holds after. *)
Lemma MakeUserSudoer_not_atomic :
  let run := MakeUserSudoer demo_system "alice" demo_world in
  let before := content_at SUDOERS (fs demo_world) in
  let after := content_at SUDOERS (fs run.2) in
  before = Some ("root ALL=(ALL) ALL" +:+ Py.NL) ∧
  after = Some ("root ALL=(ALL) ALL" +:+ Py.NL +:+
                "alice ALL=NOPASSWD: ALL" +:+ Py.NL) ∧
  (∃ ev, events_of (MakeUserSudoer demo_system "alice") demo_world !! 15 = Some ev ∧
         ev_call ev = open_w_c SUDOERS ∧
         content_at SUDOERS (ev_fs ev) = Some "") ∧
  ¬ Forall (fun ev => content_at SUDOERS (ev_fs ev) = before ∨
                      content_at SUDOERS (ev_fs ev) = after)
           (events_of (MakeUserSudoer demo_system "alice") demo_world).
Proof.
  cbv zeta.
  assert (H15 : ∃ ev,
            events_of (MakeUserSudoer demo_system "alice") demo_world !! 15 = Some ev ∧
            ev_call ev = open_w_c SUDOERS ∧
            content_at SUDOERS (ev_fs ev) = Some "").
  { eexists. split; [vm_compute; reflexivity|]. split; vm_compute; reflexivity. }
  split; [vm_compute; reflexivity|]. split; [vm_compute; reflexivity|].
  split; [exact H15|].
  intros Hall. destruct H15 as (ev & Hev & _ & Hc).
  pose proof (Forall_lookup_1 _ _ _ _ Hall Hev) as [H|H];
    rewrite Hc in H; vm_compute in H; discriminate H.
Qed.

(** C1, amended.  The editor writes the live file in place and never
    renames a file.  Whatever fails on the way, at every call the live
    file holds either what it held before, or, and this only after the
    checker has accepted the candidate, a beginning of the candidate:
    nothing at all right after the [open], the whole candidate in the
    end. *)
Theorem MakeUserSudoer_writes_in_place (system : system_module) (user : string)
    (w : world) :
  Forall (fun ev =>
            sudoers_ok system user (content_at SUDOERS (fs w))
                       (content_at SUDOERS (ev_fs ev)) ∧
            is_rename (ev_call ev) = false)
         (events_of (MakeUserSudoer system user) w) ∧
  sudoers_ok system user (content_at SUDOERS (fs w))
             (content_at SUDOERS (fs (MakeUserSudoer system user w).2)).
Proof.
  destruct (MakeUserSudoer_safe_run system user w) as [Ht Hfin].
  split; [|exact Hfin].
  pose proof (tracked_events_of _ _ _ Ht) as H1.
  destruct (MakeUserSudoer_calls system user w) as (evs & E & H2).
  assert (Eevs : events_of (MakeUserSudoer system user) w = evs).
  { unfold events_of. rewrite E. apply drop_app_length. }
  rewrite Eevs in *. clear Eevs E Ht.
  induction H1 as [|ev evs Hev _ IH]; [constructor|].
  inversion H2 as [|? ? Hr Hrs]; subst. constructor.
  - split; [exact Hev|]. apply negb_true_iff, Hr.
  - apply IH, Hrs.
Qed.

(** C2.  When the checker refuses the candidate, the live file holds
    after the call, and at every call in between, what it held before. *)
Theorem MakeUserSudoer_validation_gate (system : system_module) (user : string)
    (w : world) :
  (∀ d0, content_at SUDOERS (fs w) = Some d0 →
         visudo_ok system (candidate user d0) = false) →
  content_at SUDOERS (fs (MakeUserSudoer system user w).2)
  = content_at SUDOERS (fs w) ∧
  Forall (fun ev => content_at SUDOERS (ev_fs ev) = content_at SUDOERS (fs w))
         (events_of (MakeUserSudoer system user) w).
Proof.
  intros Hrefuse.
  assert (Hok : ∀ c, sudoers_ok system user (content_at SUDOERS (fs w)) c →
                     c = content_at SUDOERS (fs w)).
  { intros c [H|(d0 & d & E0 & Hv & _)]; [exact H|].
    rewrite (Hrefuse d0 E0) in Hv. discriminate Hv. }
  destruct (MakeUserSudoer_safe_run system user w) as [Ht Hfin].
  split; [exact (Hok _ Hfin)|].
  eapply Forall_impl; [exact (tracked_events_of _ _ _ Ht)|].
  intros ev Hev. exact (Hok _ Hev).
Qed.

Lemma MakeUserSudoer_validation_gate_witness :
  content_at SUDOERS (fs (MakeUserSudoer strict_system "alice" demo_world).2)
  = content_at SUDOERS (fs demo_world) ∧
  Forall (fun ev => content_at SUDOERS (ev_fs ev) = content_at SUDOERS (fs demo_world))
         (events_of (MakeUserSudoer strict_system "alice") demo_world).
Proof.
  apply MakeUserSudoer_validation_gate.
  intros d0 _. reflexivity.
Defined.

(** ** Runs that meet no injected fault *)

Lemma wp_syscall_ff {A} (c : call) (cls : errno → exn)
    (body : gmap string inode → exn + (A * gmap string inode))
    (Q : outcome A → world → Prop) (w : world) :
  faults w = [] →
  (∀ m a m', body m = inr (a, m') →
             content_at SUDOERS m' = content_at SUDOERS m ∧
             m' !! SUDOERS_TMP = m !! SUDOERS_TMP) →
  (∀ m x, body m = inl x → is_IOError_or_OSError x = true) →
  (∀ r w',
     faults w' = [] →
     content_at SUDOERS (fs w') = content_at SUDOERS (fs w) →
     fs w' !! SUDOERS_TMP = fs w !! SUDOERS_TMP →
     (∀ x, r = Raised x → is_IOError_or_OSError x = true) →
     Q r w') →
  wp (syscall c cls body) Q w.
Proof.
  intros Hff Hkeep Hcls HQ. apply wp_syscall.
  - intros w' e He _. rewrite Hff in He. discriminate.
  - intros w' x Hb H. pose proof (after_moved _ _ _ _ _ H) as M.
    apply HQ.
    + exact (moved_faults _ _ _ _ M Hff).
    + rewrite (moved_fs _ _ _ _ M). reflexivity.
    + rewrite (moved_fs _ _ _ _ M). reflexivity.
    + intros x' E. inversion E; subst x'. exact (Hcls _ _ Hb).
  - intros w' a m Hb H. pose proof (after_moved _ _ _ _ _ H) as M.
    destruct (Hkeep _ _ _ Hb) as [Hc Ht].
    apply HQ.
    + exact (moved_faults _ _ _ _ M Hff).
    + rewrite (moved_fs _ _ _ _ M). exact Hc.
    + rewrite (moved_fs _ _ _ _ M). exact Ht.
    + discriminate.
Qed.

Lemma wp_probe_ff {A} (c : call) (f : world → A)
    (Q : outcome A → world → Prop) (w : world) :
  faults w = [] →
  (∀ w', faults w' = [] → fs w' = fs w → Q (Done (f w)) w') →
  wp (probe c f) Q w.
Proof.
  intros Hff HQ. apply wp_probe. intros w' H. apply HQ.
  - rewrite (after_faults _ _ _ _ _ H). exact Hff.
  - exact (after_fs _ _ _ _ _ H).
Qed.

Lemma wp_log_ff (l : level) (msg : string)
    (Q : outcome unit → world → Prop) (w : world) :
  faults w = [] →
  (∀ w', faults w' = [] → fs w' = fs w → Q (Done tt) w') →
  wp (logging_log l msg) Q w.
Proof.
  intros Hff HQ. apply wp_log_moved. intros w' M. apply HQ.
  - exact (moved_faults _ _ _ _ M Hff).
  - exact (moved_fs _ _ _ _ M).
Qed.

Lemma chmod_in_keeps_lock (p : string) (mode : Z) (m : gmap string inode)
    (a : unit) (m' : gmap string inode) :
  chmod_in m p mode = inr (a, m') →
  content_at SUDOERS m' = content_at SUDOERS m ∧
  (p ≠ SUDOERS_TMP → m' !! SUDOERS_TMP = m !! SUDOERS_TMP).
Proof.
  intros H. split; [exact (chmod_in_keeps _ _ _ _ _ H)|].
  unfold chmod_in in H. destruct (m !! p) as [[t d md uid gid]|]; [|discriminate].
  inversion H; subst. intros Hne. apply lookup_insert_ne, Hne.
Qed.

Lemma chmod_in_class (p : string) (mode : Z) (m : gmap string inode) (x : exn) :
  chmod_in m p mode = inl x → is_IOError_or_OSError x = true.
Proof.
  unfold chmod_in. destruct (m !! p) as [[t d md uid gid]|]; intros H; inversion H.
  reflexivity.
Qed.

Section FaultFree.

Variable system : system_module.
Variable user : string.
Variable w0 : world.
Hypothesis Hff0 : faults w0 = [].

Local Abbreviation c0 := (content_at SUDOERS (fs w0)).
Local Abbreviation fine := (granted_or_same system user c0).

Lemma MakeUserSudoer_fault_free_run :
  wp (MakeUserSudoer system user)
     (fun r w => r = Done tt ∧ faults w = [] ∧
                 fs w !! SUDOERS_TMP = fs w0 !! SUDOERS_TMP ∧
                 fine (content_at SUDOERS (fs w)))
     w0.
Proof.
  unfold MakeUserSudoer.
  apply wp_bind. unfold os_path_isfile.
  apply (wp_probe_ff _ _ _ _ Hff0). intros w1 Hff1 F1.
  destruct (is_reg (fs w0) SUDOERS) eqn:Hreg; cbn [negb].
  2: { apply (wp_log_ff _ _ _ _ Hff1). intros w2 Hff2 F2.
       rewrite F2, F1. repeat split; try assumption. left. reflexivity. }
  apply wp_bind, wp_read_lines.
  { intros w2 x evs M2 _ Hno. exfalso. pose proof (Hno Hff1) as H.
    rewrite F1, Hreg in H. discriminate. }
  intros w2 i evs Hi M2 _. rewrite F1 in Hi, M2.
  pose proof (moved_faults _ _ _ _ M2 Hff1) as Hff2.
  pose proof (moved_fs _ _ _ _ M2) as F2. clear M2 evs Hff1 F1 w1.
  assert (Hc0 : c0 = Some (i_data i)) by (unfold content_at; rewrite Hi; reflexivity).
  destruct (Py.truthy (IsUserSudoerInLines user (Py.readlines (i_data i)))) eqn:Hmem.
  { apply wp_ret. rewrite F2. repeat split; try assumption. left. reflexivity. }
  apply wp_bind, wp_LockSudoers.
  { intros w3 x M3 _. cbn [negb].
    apply (wp_log_ff _ _ _ _ (moved_faults _ _ _ _ M3 Hff2)). intros w4 Hff4 F4.
    rewrite F4, (moved_fs _ _ _ _ M3), F2. repeat split; try assumption.
    left. reflexivity. }
  { intros w3 x _ _ Hne. destruct (Hne Hff2). }
  intros w3 Hnone M3. cbn [negb]. rewrite F2 in Hnone, M3.
  set (m1 := <[SUDOERS_TMP := lock_inode]> (fs w0)) in *.
  assert (Hm1 : m1 !! SUDOERS = Some i).
  { unfold m1. rewrite lookup_insert_ne by discriminate. exact Hi. }
  assert (Tm1 : m1 !! SUDOERS_TMP = Some lock_inode) by apply lookup_insert_eq.
  pose proof (moved_faults _ _ _ _ M3 Hff2) as Hff3.
  pose proof (moved_fs _ _ _ _ M3) as F3.
  clearbody m1. clear M3 Hff2 F2 w2.
  apply wp_try_finally.
  apply (wp_mono _ (fun r w => r = Done tt ∧ faults w = [] ∧
                              fs w !! SUDOERS_TMP = Some lock_inode ∧
                              fine (content_at SUDOERS (fs w)))).
  2: { intros r w (-> & Hffw & Tw & Hfine).
       apply wp_bind, wp_UnlockSudoers.
       intros w' b err m M Hdel _ _ Hreg' _. apply wp_ret.
       assert (err = None) as ->.
       { apply Hreg'; [exact Hffw|]. unfold is_reg. rewrite Tw. reflexivity. }
       destruct (Hdel eq_refl) as [-> _].
       rewrite (moved_fs _ _ _ _ M). split; [reflexivity|].
       split; [exact (moved_faults _ _ _ _ M Hffw)|]. split.
       - rewrite lookup_delete_eq. symmetry. exact Hnone.
       - rewrite content_delete_ne by discriminate. exact Hfine. }
  apply wp_try_except.
  apply (wp_mono _ (fun r w => (∀ x, r = Raised x → is_IOError_or_OSError x = true) ∧
                              faults w = [] ∧
                              fs w !! SUDOERS_TMP = Some lock_inode ∧
                              fine (content_at SUDOERS (fs w)))).
  2: { intros [[]|e] w (Hcls & Hffw & Tw & Hfine); [repeat split; assumption|].
       rewrite (Hcls e eq_refl).
       apply (wp_log_ff _ _ _ _ Hffw). intros w' Hffw' Fw'.
       rewrite Fw'. repeat split; assumption. }
  assert (Hregi : is_reg m1 SUDOERS = true).
  { unfold is_reg in *. rewrite Hi in Hreg. rewrite Hm1. exact Hreg. }
  assert (Cm1 : content_at SUDOERS m1 = c0).
  { unfold content_at. rewrite Hm1, Hi. reflexivity. }
  apply wp_bind, wp_read_lines.
  { intros w4 x evs M4 _ Hno. exfalso. pose proof (Hno Hff3) as H.
    rewrite F3, Hregi in H. discriminate. }
  intros w4 i' evs Hi' M4 _. rewrite F3 in Hi', M4.
  rewrite Hm1 in Hi'. inversion Hi'; subst i'. clear Hi'.
  pose proof (moved_faults _ _ _ _ M4 Hff3) as Hff4.
  pose proof (moved_fs _ _ _ _ M4) as F4. clear M4 evs Hff3 F3 w3.
  rewrite Hmem.
  apply wp_bind, wp_mkstemp.
  { intros w5 x M5 _ Hcls. rewrite F4 in M5.
    rewrite (moved_fs _ _ _ _ M5). split; [intros x' E; inversion E; subst; exact Hcls|].
    split; [exact (moved_faults _ _ _ _ M5 Hff4)|]. split; [exact Tm1|].
    left. exact Cm1. }
  intros w5 n Hn _ M5. rewrite F4 in Hn, M5.
  assert (Hne : n ≠ SUDOERS) by (intros ->; rewrite Hm1 in Hn; discriminate).
  assert (Hnt : n ≠ SUDOERS_TMP) by (intros ->; rewrite Tm1 in Hn; discriminate).
  pose proof (moved_faults _ _ _ _ M5 Hff4) as Hff5.
  pose proof (moved_fs _ _ _ _ M5) as F5. clear M5 Hff4 F4 w4.
  cbn [fst snd].
  set (ls := map EnsureTrailingNewline
               (Py.readlines (i_data i) ++ [user +:+ " ALL=NOPASSWD: ALL"])).
  apply wp_bind. unfold with_file at 1, os_fdopen.
  apply wp_bind, wp_ret, wp_try_finally, wp_bind.
  apply (wp_writelines n ls _ w5 S_IFREG "" (octal 6 0 0) 0 0).
  { rewrite F5. apply lookup_insert_eq. }
  intros w6 r done todo evs6 Els M6 _ Hdone Hnf. rewrite F5 in M6.
  pose proof (Hnf Hff5) as ->.
  rewrite (Hdone eq_refl), app_nil_r in Els. subst done. clear Hdone Hnf.
  pose proof (moved_faults _ _ _ _ M6 Hff5) as Hff6.
  pose proof (moved_fs _ _ _ _ M6) as F6. clear M6 evs6 Hff5 F5 w5.
  set (m3 := grown n S_IFREG "" (octal 6 0 0) 0 0 (<[n := tmp_inode]> m1) ls) in *.
  assert (Cm3 : content_at SUDOERS m3 = c0).
  { unfold m3, grown. rewrite !content_insert_ne by exact Hne. exact Cm1. }
  assert (Tm3 : m3 !! SUDOERS_TMP = Some lock_inode).
  { unfold m3, grown. rewrite !lookup_insert_ne by exact Hnt. exact Tm1. }
  assert (Nm3 : m3 !! n = Some (Inode S_IFREG (candidate user (i_data i)) (octal 6 0 0) 0 0)).
  { unfold m3, grown. rewrite lookup_insert_eq. reflexivity. }
  clearbody m3.
  unfold file_seek. apply wp_ret. unfold file_close.
  apply (wp_probe_ff _ _ _ _ Hff6). intros w7 Hff7 F7. rewrite F6 in F7.
  clear Hff6 F6 w6.
  apply wp_try_finally.
  apply (wp_mono _ (fun r w => (∀ x, r = Raised x → is_IOError_or_OSError x = true) ∧
                              faults w = [] ∧
                              fs w !! SUDOERS_TMP = Some lock_inode ∧
                              fine (content_at SUDOERS (fs w)))).
  2: { intros r w (Hcls & Hffw & Tw & Hfine).
       apply wp_try_except. unfold os_unlink.
       apply (wp_syscall_ff _ _ _ _ _ Hffw).
       - intros m a m' Hb.
         destruct (m !! n) as [[[] ? ? ? ?]|]; inversion Hb; subst.
         split; [apply content_delete_ne, Hne | apply lookup_delete_ne, Hnt].
       - intros m x Hb.
         destruct (m !! n) as [[[] ? ? ? ?]|]; inversion Hb; subst; reflexivity.
       - intros r' w' Hffw' Cw' Tw' Hcls'.
         assert (Hend : (∀ x, r = Raised x → is_IOError_or_OSError x = true) ∧
                        faults w' = [] ∧
                        fs w' !! SUDOERS_TMP = Some lock_inode ∧
                        fine (content_at SUDOERS (fs w'))).
         { rewrite Cw', Tw'. repeat split; assumption. }
         destruct r' as [[]|x]; [exact Hend|].
         rewrite (Hcls' x eq_refl). apply wp_ret. exact Hend. }
  apply wp_bind. unfold IsValidSudoersFile.
  apply (wp_probe_ff _ _ _ _ Hff7). intros w8 Hff8 F8.
  rewrite F7, Nm3. cbn [i_data]. rewrite F7 in F8. clear Hff7 F7 w7.
  destruct (visudo_ok system (candidate user (i_data i))) eqn:Hv; cbn [negb].
  2: { apply (wp_log_ff _ _ _ _ Hff8). intros w9 Hff9 F9. rewrite F9, F8.
       split; [discriminate|]. repeat split; try assumption. left. exact Cm3. }
  apply wp_bind. unfold os_chmod.
  apply (wp_syscall_ff _ _ _ _ _ Hff8).
  { intros m a m' Hb. destruct (chmod_in_keeps_lock _ _ _ _ _ Hb) as [H1 H2].
    split; [exact H1 | apply H2; discriminate]. }
  { intros m x. apply chmod_in_class. }
  intros r9 w9 Hff9 C9 T9 Hcls9. rewrite F8 in C9, T9. rewrite Cm3 in C9. rewrite Tm3 in T9.
  clear Hff8 F8 w8.
  destruct r9 as [[]|x].
  2: { split; [intros x' E; inversion E; subst; apply Hcls9; reflexivity|].
       repeat split; try assumption. left. exact C9. }
  clear Hcls9.
  unfold with_file, OpenFile_w, open_w. apply wp_bind, wp_syscall.
  { intros w10 e He _. rewrite Hff9 in He. discriminate. }
  { intros w10 x Hb H10. pose proof (after_moved _ _ _ _ _ H10) as M10.
    rewrite (moved_fs _ _ _ _ M10).
    split.
    - intros x' E. inversion E; subst x'.
      destruct (fs w9 !! SUDOERS) as [[[] ? ? ? ?]|]; inversion Hb; reflexivity.
    - split; [exact (moved_faults _ _ _ _ M10 Hff9)|]. split; [exact T9|].
      left. exact C9. }
  intros w10 f m Hb H10.
  assert (f = SUDOERS ∧ ∃ mode uid gid,
            m = <[SUDOERS := Inode S_IFREG "" mode uid gid]> (fs w9))
    as (-> & mode & uid & gid & ->).
  { destruct (fs w9 !! SUDOERS) as [[[] ? ? ? ?]|]; inversion Hb; subst; eauto. }
  clear Hb. pose proof (after_moved _ _ _ _ _ H10) as M10.
  pose proof (moved_faults _ _ _ _ M10 Hff9) as Hff10.
  pose proof (moved_fs _ _ _ _ M10) as F10. clear M10 H10.
  assert (Hgranted : ∀ md, fine (content_at SUDOERS
            (grown SUDOERS S_IFREG "" md uid gid
               (<[SUDOERS := Inode S_IFREG "" mode uid gid]> (fs w9)) ls))).
  { intros md. right. exists (i_data i). split; [exact Hc0|]. split; [exact Hmem|].
    split; [exact Hv|]. unfold grown. rewrite content_insert. reflexivity. }
  apply wp_try_finally.
  apply (wp_mono _ (fun r w => (∀ x, r = Raised x → is_IOError_or_OSError x = true) ∧
                              faults w = [] ∧
                              fs w !! SUDOERS_TMP = Some lock_inode ∧
                              fine (content_at SUDOERS (fs w)))).
  2: { intros r w (Hcls & Hffw & Tw & Hfine). unfold file_close.
       apply (wp_probe_ff _ _ _ _ Hffw). intros w' Hffw' Fw'. rewrite Fw'.
       repeat split; assumption. }
  apply wp_bind.
  apply (wp_writelines SUDOERS ls _ w10 S_IFREG "" mode uid gid).
  { rewrite F10. apply lookup_insert_eq. }
  intros w11 r done todo' evs11 Els M11 _ Hdone Hnf. rewrite F10 in M11.
  pose proof (Hnf Hff10) as ->.
  rewrite (Hdone eq_refl), app_nil_r in Els. subst done. clear Hdone Hnf.
  pose proof (moved_faults _ _ _ _ M11 Hff10) as Hff11.
  pose proof (moved_fs _ _ _ _ M11) as F11. clear M11 evs11.
  assert (C11 : fine (content_at SUDOERS (fs w11))) by (rewrite F11; apply Hgranted).
  assert (T11 : fs w11 !! SUDOERS_TMP = Some lock_inode).
  { rewrite F11. unfold grown. rewrite !lookup_insert_ne by discriminate. exact T9. }
  clear F11 Hgranted F10 Hff10 w10.
  assert (Hkeep : ∀ md m a m', chmod_in m SUDOERS md = inr (a, m') →
            content_at SUDOERS m' = content_at SUDOERS m ∧
            m' !! SUDOERS_TMP = m !! SUDOERS_TMP).
  { intros md m a m' Hb. destruct (chmod_in_keeps_lock _ _ _ _ _ Hb) as [H1 H2].
    split; [exact H1 | apply H2; discriminate]. }
  apply wp_bind. unfold os_fchmod.
  apply (wp_syscall_ff _ _ _ _ _ Hff11 (Hkeep _)).
  { intros m x. apply chmod_in_class. }
  intros r12 w12 Hff12 C12 T12 Hcls12. rewrite <- C12 in C11. rewrite <- T12 in T11.
  destruct r12 as [[]|x].
  2: { split; [intros x' E; inversion E; subst; apply Hcls12; reflexivity|].
       repeat split; assumption. }
  apply wp_try_except.
  apply (wp_syscall_ff _ _ _ _ _ Hff12 (Hkeep _)).
  { intros m x. apply chmod_in_class. }
  intros r13 w13 Hff13 C13 T13 Hcls13. rewrite <- C13 in C11. rewrite <- T13 in T11.
  destruct r13 as [[]|x].
  { split; [discriminate|]. repeat split; assumption. }
  rewrite (Hcls13 x eq_refl).
  apply (wp_log_ff _ _ _ _ Hff13). intros w14 Hff14 F14. rewrite F14.
  split; [discriminate|]. repeat split; assumption.
Qed.

End FaultFree.

Lemma truthy_false_nil {A} (l : list A) : Py.truthy l = false → l = [].
Proof. destruct l; [reflexivity | discriminate]. Qed.

(** ** Rewriting an authorized_keys file *)

Lemma wp_ext {A} (m m' : M A) (Q : outcome A → world → Prop) (w : world) :
  m w = m' w → wp m' Q w → wp m Q w.
Proof. unfold wp. intros ->. exact (fun H => H). Qed.

Lemma for_each_map {A B} (f : A → B) (xs : list A) (g : B → M unit) (w : world) :
  for_each xs (fun x => g (f x)) w = for_each (map f xs) g w.
Proof.
  revert w. induction xs as [|x xs IH]; intros w; [reflexivity|].
  simpl. unfold bind. destruct (g (f x) w) as [[[]|e] w1]; [apply IH | reflexivity].
Qed.

Lemma for_each_pairs {A} (a b : A → string) (xs : list A) (g : string → M unit)
    (w : world) :
  for_each xs (fun x => g (a x) ;;; g (b x)) w
  = for_each (flat_map (fun x => [a x; b x]) xs) g w.
Proof.
  revert w. induction xs as [|x xs IH]; intros w; [reflexivity|].
  simpl. unfold bind. destruct (g (a x) w) as [[[]|e] w1]; [|reflexivity].
  destruct (g (b x) w1) as [[[]|e] w2]; [apply IH | reflexivity].
Qed.

(** A call that meets no injected fault and that the file system lets
    through. *)
Lemma wp_syscall_exact {A} (c : call) (cls : errno → exn)
    (body : gmap string inode → exn + (A * gmap string inode))
    (Q : outcome A → world → Prop) (w : world) (a : A) (m : gmap string inode) :
  faults w = [] →
  body (fs w) = inr (a, m) →
  (∀ w', faults w' = [] → fs w' = m → Q (Done a) w') →
  wp (syscall c cls body) Q w.
Proof.
  intros Hff Hb HQ. apply wp_syscall.
  - intros w' e He _. rewrite Hff in He. discriminate.
  - intros w' x Hx _. rewrite Hb in Hx. discriminate.
  - intros w' a' m' Hb' H. rewrite Hb in Hb'. inversion Hb'; subst a' m'.
    pose proof (after_moved _ _ _ _ _ H) as M.
    apply HQ; [exact (moved_faults _ _ _ _ M Hff) | exact (moved_fs _ _ _ _ M)].
Qed.

Lemma WriteAuthorizedSshKeysFile_run (path : string) (ssh_keys : list string)
    (uid gid : Z) (u g : option Z) (w : world) (d : string) (mode ouid ogid : Z)
    (n : string) :
  faults w = [] →
  id_arg uid = Some u → id_arg gid = Some g →
  fs w !! path = Some (Inode S_IFREG d mode ouid ogid) →
  (first_free (fs w) (tmpnames w)).1 = Some n →
  wp (WriteAuthorizedSshKeysFile path ssh_keys uid gid)
     (fun r w' =>
        r = Done tt ∧ faults w' = [] ∧
        fs w' = <[path := Inode S_IFREG
                             (Py.join (map EnsureTrailingNewline
                                           (user_lines (Py.readlines d))
                                       ++ managed_pairs ssh_keys))
                             (octal 6 0 0) (default 0%Z u) (default 0%Z g)]> (fs w))
     w.
Proof.
  intros Hff Huid Hgid Hpath Hfree. unfold WriteAuthorizedSshKeysFile.
  apply wp_bind. unfold with_file at 1, CreateTempFile.
  apply wp_bind, wp_bind, wp_mkstemp.
  { intros w1 x _ Hnone _. rewrite (Hnone Hff) in Hfree. discriminate. }
  intros w1 n' Hn Hfree' M1. rewrite Hfree in Hfree'. inversion Hfree'; subst n'.
  clear Hfree'.
  assert (Hne : n ≠ path) by (intros ->; rewrite Hpath in Hn; discriminate).
  pose proof (moved_faults _ _ _ _ M1 Hff) as Hff1.
  pose proof (moved_fs _ _ _ _ M1) as F1. clear M1.
  apply wp_ret. cbn [snd]. apply wp_try_finally, wp_bind.
  unfold os_path_exists. apply (wp_probe_ff _ _ _ _ Hff1). intros w2 Hff2 F2.
  rewrite F1 in F2 |- *. rewrite lookup_insert_ne by exact Hne. rewrite Hpath.
  rewrite bool_decide_eq_true_2 by eauto.
  clear Hff1 F1 w1.
  apply wp_bind.
  apply (wp_ext _ (with_file (OpenFile_r path) file_readlines)); [reflexivity|].
  apply wp_read_lines.
  { intros w3 x evs _ _ Hno. exfalso. pose proof (Hno Hff2) as H.
    unfold is_reg in H. rewrite F2, lookup_insert_ne, Hpath in H by exact Hne.
    discriminate. }
  intros w3 i evs Hi M3 _.
  rewrite F2, lookup_insert_ne, Hpath in Hi by exact Hne. inversion Hi; subst i.
  clear Hi. cbn [i_data].
  pose proof (moved_faults _ _ _ _ M3 Hff2) as Hff3.
  pose proof (moved_fs _ _ _ _ M3) as F3. rewrite F2 in F3. clear M3 evs Hff2 F2 w2.
  apply wp_bind. unfold os_fchmod.
  apply (wp_syscall_exact _ _ _ _ _ tt
           (<[n := Inode S_IFREG "" (octal 6 0 0) 0 0]> (<[n := tmp_inode]> (fs w))) Hff3).
  { rewrite F3. unfold chmod_in. rewrite lookup_insert_eq. reflexivity. }
  intros w4 Hff4 F4. clear Hff3 F3 w3.
  apply wp_bind. rewrite (os_fchown_accepted n uid gid u g Huid Hgid).
  apply (wp_syscall_exact _ _ _ _ _ tt
           (<[n := Inode S_IFREG "" (octal 6 0 0) (default 0%Z u) (default 0%Z g)]> (fs w))
           Hff4).
  { rewrite F4. unfold chown_in. rewrite lookup_insert_eq, !insert_insert_eq.
    reflexivity. }
  intros w5 Hff5 F5. clear Hff4 F4 w4.
  set (ul := map EnsureTrailingNewline (user_lines (Py.readlines d))).
  apply wp_bind.
  apply (wp_ext _ (file_writelines n ul)); [apply for_each_map|].
  apply (wp_writelines n ul _ w5 S_IFREG "" (octal 6 0 0) (default 0%Z u) (default 0%Z g)).
  { rewrite F5. apply lookup_insert_eq. }
  intros w6 r done todo evs6 Els M6 _ Hdone Hnf.
  pose proof (Hnf Hff5) as ->.
  rewrite (Hdone eq_refl), app_nil_r in Els. subst done. clear Hdone Hnf.
  pose proof (moved_faults _ _ _ _ M6 Hff5) as Hff6.
  pose proof (moved_fs _ _ _ _ M6) as F6. rewrite F5 in F6. unfold grown in F6.
  rewrite insert_insert_eq in F6. clear M6 evs6 Hff5 F5 w5.
  apply wp_bind.
  apply (wp_ext _ (file_writelines n (managed_pairs ssh_keys)));
    [apply (for_each_pairs (fun _ => GOOGLE_MARKER +:+ Py.NL) EnsureTrailingNewline)|].
  apply (wp_writelines n (managed_pairs ssh_keys) _ w6 S_IFREG
           ("" +:+ Py.join ul) (octal 6 0 0) (default 0%Z u) (default 0%Z g)).
  { rewrite F6. apply lookup_insert_eq. }
  intros w7 r done todo' evs7 Els M7 _ Hdone Hnf.
  pose proof (Hnf Hff6) as ->.
  rewrite (Hdone eq_refl), app_nil_r in Els. subst done. clear Hdone Hnf.
  pose proof (moved_faults _ _ _ _ M7 Hff6) as Hff7.
  pose proof (moved_fs _ _ _ _ M7) as F7. rewrite F6 in F7. unfold grown in F7.
  rewrite insert_insert_eq in F7. clear M7 evs7 Hff6 F6 w6.
  apply wp_ret. unfold file_close.
  apply (wp_probe_ff _ _ _ _ Hff7). intros w8 Hff8 F8. rewrite F7 in F8.
  clear Hff7 F7 w7.
  unfold MoveFile.
  apply (wp_syscall_exact _ _ _ _ _ tt
           (<[path := Inode S_IFREG (Py.join (ul ++ managed_pairs ssh_keys))
                            (octal 6 0 0) (default 0%Z u) (default 0%Z g)]> (fs w)) Hff8).
  { rewrite F8, lookup_insert_eq.
    unfold is_dir. rewrite lookup_insert_ne by exact Hne. rewrite Hpath.
    rewrite delete_insert_eq, join_app. cbn [String.append].
    rewrite (delete_id _ _ Hn). reflexivity. }
  intros w9 Hff9 F9. repeat split; assumption.
Qed.


Lemma managed_pairs_terminated (keys : list string) :
  forallb no_LF keys = true → Forall terminated (managed_pairs keys).
Proof.
  induction keys as [|k keys IH]; simpl; intros H; [constructor|].
  apply andb_true_iff in H as [Hk Hks].
  constructor; [exists GOOGLE_MARKER; split; reflexivity|].
  constructor; [apply ETN_terminated; right; exact Hk | apply IH, Hks].
Qed.

Lemma managed_pairs_length (keys : list string) :
  length (managed_pairs keys) = 2 * length keys.
Proof.
  unfold managed_pairs. induction keys as [|k ks IH]; simpl; [reflexivity|].
  rewrite IH. lia.
Qed.

(** ** The lock is given back *)

(** C8, as the claim states it, fails: the marker can be there when the
    call returns.  After a full grant the unlinking of the marker is
    refused (here with EACCES): [UnlockSudoers] logs a warning and the
    call returns normally with the marker in place.  And when the marker
    has been created but closing its descriptor fails, [LockSudoers]
    answers [False]: the call returns normally, the marker is in place
    and no unlinking has been tried. *)
Lemma MakeUserSudoer_marker_left_behind :
  (fs demo_world_sticky !! SUDOERS_TMP = None ∧
   existsb lock_granted (events_of (MakeUserSudoer demo_system "alice") demo_world_sticky)
   = true ∧
   (MakeUserSudoer demo_system "alice" demo_world_sticky).1 = Done tt ∧
   fs (MakeUserSudoer demo_system "alice" demo_world_sticky).2 !! SUDOERS_TMP
   = Some lock_inode ∧
   last (events_of (MakeUserSudoer demo_system "alice") demo_world_sticky)
   = Some (Event (os_unlink_c SUDOERS_TMP) (Some (OSError EACCES))
                 (fs (MakeUserSudoer demo_system "alice" demo_world_sticky).2))) ∧
  (fs demo_world_close_fails !! SUDOERS_TMP = None ∧
   existsb lock_acquired
           (events_of (MakeUserSudoer demo_system "alice") demo_world_close_fails)
   = true ∧
   (MakeUserSudoer demo_system "alice" demo_world_close_fails).1 = Done tt ∧
   fs (MakeUserSudoer demo_system "alice" demo_world_close_fails).2 !! SUDOERS_TMP
   = Some lock_inode ∧
   existsb (fun ev => is_unlink (ev_call ev))
           (events_of (MakeUserSudoer demo_system "alice") demo_world_close_fails)
   = false).
Proof. vm_compute. repeat split; reflexivity. Qed.

(** C8, amended.  Whenever [LockSudoers] has answered [True] (the marker
    created and its descriptor closed), the call returns normally and the
    last thing it does, whatever happened in between, is to try to unlink
    the lock marker; the marker is gone when that unlinking goes through,
    as it does when no fault is injected.  [UnlockSudoers] reports success
    when the marker is already gone. *)
Theorem MakeUserSudoer_releases_lock (system : system_module) (user : string)
    (w : world) :
  (existsb lock_granted (events_of (MakeUserSudoer system user) w) = true →
   (MakeUserSudoer system user w).1 = Done tt ∧
   released (events_of (MakeUserSudoer system user) w)
            (MakeUserSudoer system user w).2 ∧
   (faults w = [] →
    fs (MakeUserSudoer system user w).2 !! SUDOERS_TMP = None)) ∧
  (∀ w', fs w' !! SUDOERS_TMP = None → faults w' = [] →
         (UnlockSudoers w').1 = Done true ∧ fs (UnlockSudoers w').2 = fs w' ∧
         ∃ m, events_of UnlockSudoers w' =
              [Event (os_unlink_c SUDOERS_TMP) (Some (OSError ENOENT)) m]).
Proof.
  split.
  - destruct (MakeUserSudoer_release_run system user w) as (evs & Ht & H).
    unfold events_of. rewrite Ht, drop_app_length. intros Hacq.
    destruct (H Hacq) as (Hdone & Hrel & Hnone).
    split; [exact Hdone|]. split; [exact Hrel|].
    intros Hff.
    destruct (MakeUserSudoer_fault_free_run system user w Hff)
      as (_ & _ & Hlock & _).
    rewrite Hlock. exact Hnone.
  - intros w' Hnone Hnf.
    apply (wp_UnlockSudoers
             (fun r w2 => r = Done true ∧ fs w2 = fs w' ∧
                          ∃ m, drop (length (trace w')) (trace w2) =
                               [Event (os_unlink_c SUDOERS_TMP) (Some (OSError ENOENT)) m])).
    intros w2 b err m M _ Hsame Henoent _ Habsent.
    pose proof (Habsent Hnf Hnone) as ->.
    rewrite (Henoent eq_refl). split; [reflexivity|]. split.
    + rewrite (moved_fs _ _ _ _ M). apply Hsame. discriminate.
    + exists m. rewrite (moved_trace _ _ _ _ M). apply drop_app_length.
Qed.

Lemma MakeUserSudoer_releases_lock_witness :
  (MakeUserSudoer demo_system "alice" demo_world).1 = Done tt ∧
  released (events_of (MakeUserSudoer demo_system "alice") demo_world)
           (MakeUserSudoer demo_system "alice" demo_world).2 ∧
  (faults demo_world = [] →
   fs (MakeUserSudoer demo_system "alice" demo_world).2 !! SUDOERS_TMP = None).
Proof.
  apply (proj1 (MakeUserSudoer_releases_lock demo_system "alice" demo_world)).
  vm_compute. reflexivity.
Defined.

(** * Further properties *)

(** ** Line endings *)

(** X1.  [EnsureTrailingNewline] gives a line that ends with a line
    feed, adds at most that one character, and applied again changes
    nothing. *)
Theorem EnsureTrailingNewline_once (line : string) :
  Py.endswith (EnsureTrailingNewline line) Py.NL = true ∧
  (EnsureTrailingNewline line = line ∨
   EnsureTrailingNewline line = line +:+ Py.NL) ∧
  EnsureTrailingNewline (EnsureTrailingNewline line) = EnsureTrailingNewline line.
Proof.
  assert (H1 : Py.endswith (EnsureTrailingNewline line) Py.NL = true).
  { unfold EnsureTrailingNewline.
    destruct (Py.endswith line Py.NL) eqn:E; [exact E | apply endswith_terminated]. }
  split; [exact H1|]. split.
  - unfold EnsureTrailingNewline. destruct (Py.endswith line Py.NL); auto.
  - unfold EnsureTrailingNewline at 1. rewrite H1. reflexivity.
Qed.

(** ** The pairing scan, once more *)

Lemma scan_sublist (prev : bool) (lines : list string) :
  sublist (scan prev lines) lines.
Proof.
  revert prev. induction lines as [|l rest IH]; intros prev; [constructor|].
  cbn [scan]. destruct (prev || has_marker_prefix l && Py.truthy rest).
  - apply sublist_cons, IH.
  - apply sublist_skip, IH.
Qed.

Lemma scan_cons (prev : bool) (l : string) (rest : list string) :
  scan prev (l :: rest) =
  if prev || has_marker_prefix l && Py.truthy rest
  then scan (has_marker_prefix l && Py.truthy rest) rest
  else l :: scan (has_marker_prefix l && Py.truthy rest) rest.
Proof. reflexivity. Qed.

Lemma plain_but_last_cons (l : string) (rest : list string) :
  plain_but_last (l :: rest) = true →
  has_marker_prefix l && Py.truthy rest = false ∧ plain_but_last rest = true.
Proof.
  destruct rest as [|l' rest']; [intros _; rewrite andb_false_r; auto|].
  cbn [plain_but_last]. intros H. apply andb_true_iff in H as [Hl Hrest].
  apply negb_true_iff in Hl. rewrite Hl. auto.
Qed.

Lemma scan_plain (lines : list string) :
  plain_but_last lines = true → scan false lines = lines.
Proof.
  induction lines as [|l rest IH]; [reflexivity|]. intros H.
  destruct (plain_but_last_cons _ _ H) as [Hm Hrest].
  rewrite scan_cons, Hm. simpl. rewrite (IH Hrest). reflexivity.
Qed.

Lemma plain_scan (prev : bool) (lines : list string) :
  plain_but_last (scan prev lines) = true.
Proof.
  revert prev. induction lines as [|l rest IH]; intros prev; [reflexivity|].
  rewrite scan_cons.
  destruct (prev || has_marker_prefix l && Py.truthy rest) eqn:E; [apply IH|].
  apply orb_false_iff in E as [_ E]. rewrite E.
  destruct (scan false rest) as [|x xs] eqn:Es; [reflexivity|].
  change (negb (has_marker_prefix l) && plain_but_last (x :: xs) = true).
  rewrite <- Es, IH, andb_true_r.
  destruct rest as [|l' rest']; [discriminate Es|].
  simpl in E. rewrite andb_true_r in E. rewrite E. reflexivity.
Qed.

(** X2.  The preserved lines are a sub-sequence of the lines of the file,
    in their order, and they are all of them when no line but possibly
    the last begins with the marker comment. *)
Theorem user_lines_sublist (lines : list string) :
  sublist (user_lines lines) lines ∧
  (plain_but_last lines = true → user_lines lines = lines).
Proof.
  rewrite user_lines_scan. split; [apply scan_sublist | apply scan_plain].
Qed.

Lemma user_lines_sublist_witness :
  user_lines ["ssh-rsa AAAA a@b" +:+ Py.NL; "# my own note" +:+ Py.NL; GOOGLE_MARKER]
  = ["ssh-rsa AAAA a@b" +:+ Py.NL; "# my own note" +:+ Py.NL; GOOGLE_MARKER].
Proof.
  apply (proj2 (user_lines_sublist _)). reflexivity.
Defined.

(** X3.  Among the preserved lines none but possibly the last begins
    with the marker comment, so scanning them again keeps them all. *)
Theorem user_lines_idempotent (lines : list string) :
  plain_but_last (user_lines lines) = true ∧
  user_lines (user_lines lines) = user_lines lines.
Proof.
  assert (H : plain_but_last (user_lines lines) = true)
    by (rewrite user_lines_scan; apply plain_scan).
  split; [exact H|].
  rewrite (user_lines_scan (user_lines lines)). apply scan_plain, H.
Qed.









(** ** The advisory lock *)

Lemma LockSudoers_run (w : world) :
  ∃ b, (LockSudoers w).1 = Done b ∧
       (b = true → fs w !! SUDOERS_TMP = None ∧
                   fs (LockSudoers w).2 = <[SUDOERS_TMP := lock_inode]> (fs w)) ∧
       (b = false →
        fs (LockSudoers w).2 = fs w ∨
        (fs w !! SUDOERS_TMP = None ∧ faults w ≠ [] ∧
         fs (LockSudoers w).2 = <[SUDOERS_TMP := lock_inode]> (fs w))) ∧
       (is_Some (fs w !! SUDOERS_TMP) → b = false ∧ fs (LockSudoers w).2 = fs w) ∧
       (faults w = [] → fs w !! SUDOERS_TMP = None → b = true) ∧
       (faults w = [] → faults (LockSudoers w).2 = []).
Proof.
  apply (wp_LockSudoers
           (fun r w' => ∃ b, r = Done b ∧
              (b = true → fs w !! SUDOERS_TMP = None ∧
                          fs w' = <[SUDOERS_TMP := lock_inode]> (fs w)) ∧
              (b = false →
               fs w' = fs w ∨
               (fs w !! SUDOERS_TMP = None ∧ faults w ≠ [] ∧
                fs w' = <[SUDOERS_TMP := lock_inode]> (fs w))) ∧
              (is_Some (fs w !! SUDOERS_TMP) → b = false ∧ fs w' = fs w) ∧
              (faults w = [] → fs w !! SUDOERS_TMP = None → b = true) ∧
              (faults w = [] → faults w' = []))).
  - intros w' x M Hheld. exists false. split; [reflexivity|].
    split; [discriminate|].
    split; [intros _; left; exact (moved_fs _ _ _ _ M)|].
    split; [intros _; split; [reflexivity | exact (moved_fs _ _ _ _ M)]|].
    split; [|exact (moved_faults _ _ _ _ M)].
    intros Hff Hnone.
    destruct (Hheld Hff) as [i Hi]. rewrite Hnone in Hi. discriminate.
  - intros w' x Hnone M Hne. exists false. split; [reflexivity|].
    split; [discriminate|].
    split; [intros _; right; split; [exact Hnone|]; split;
            [exact Hne | exact (moved_fs _ _ _ _ M)]|].
    split; [intros [i Hi]; rewrite Hnone in Hi; discriminate|].
    split; [intros Hff; destruct (Hne Hff) | exact (moved_faults _ _ _ _ M)].
  - intros w' Hnone M. exists true. split; [reflexivity|].
    split; [intros _; split; [exact Hnone | exact (moved_fs _ _ _ _ M)]|].
    split; [discriminate|].
    split; [intros [i Hi]; rewrite Hnone in Hi; discriminate|].
    split; [reflexivity | exact (moved_faults _ _ _ _ M)].
Qed.

Lemma UnlockSudoers_run (w : world) :
  ∃ b, (UnlockSudoers w).1 = Done b ∧
       (∀ p, p ≠ SUDOERS_TMP → fs (UnlockSudoers w).2 !! p = fs w !! p) ∧
       (b = false → fs (UnlockSudoers w).2 = fs w) ∧
       (faults w = [] →
        b = negb (is_dir (fs w) SUDOERS_TMP) ∧
        (b = true → fs (UnlockSudoers w).2 !! SUDOERS_TMP = None) ∧
        faults (UnlockSudoers w).2 = []).
Proof.
  unfold UnlockSudoers, try_except, bind, os_unlink, syscall, is_dir.
  destruct (head (faults w)) as [[e|]|] eqn:Ef.
  - cbn [is_OSError exn_errno].
    assert (Hno : faults w = [] → False) by (intros E; rewrite E in Ef; discriminate).
    destruct (bool_decide (Some e = Some ENOENT)).
    + exists true. cbn. split; [reflexivity|]. split; [reflexivity|].
      split; [discriminate|]. intros E. destruct (Hno E).
    + exists false. cbn. split; [reflexivity|]. split; [reflexivity|].
      split; [reflexivity|]. intros E. destruct (Hno E).
  - assert (Hno : faults w = [] → False) by (intros E; rewrite E in Ef; discriminate).
    destruct (fs w !! SUDOERS_TMP) as [[[] ? ? ? ?]|] eqn:Ei; cbn.
    + exists true. split; [reflexivity|].
      split; [intros p Hp; apply lookup_delete_ne; congruence|].
      split; [discriminate|]. intros E. destruct (Hno E).
    + exists false. split; [reflexivity|]. split; [reflexivity|].
      split; [reflexivity|]. intros E. destruct (Hno E).
    + exists true. split; [reflexivity|]. split; [reflexivity|].
      split; [discriminate|]. intros E. destruct (Hno E).
  - assert (Hff : faults w = [] → tail (faults w) = []) by (intros ->; reflexivity).
    destruct (fs w !! SUDOERS_TMP) as [[[] ? ? ? ?]|] eqn:Ei; cbn.
    + exists true. split; [reflexivity|].
      split; [intros p Hp; apply lookup_delete_ne; congruence|].
      split; [discriminate|]. intros E.
      split; [reflexivity|]. split; [intros _; apply lookup_delete_eq | exact (Hff E)].
    + exists false. split; [reflexivity|]. split; [reflexivity|].
      split; [reflexivity|]. intros E.
      split; [reflexivity|]. split; [discriminate | exact (Hff E)].
    + exists true. split; [reflexivity|]. split; [reflexivity|].
      split; [discriminate|]. intros E.
      split; [reflexivity|]. split; [intros _; exact Ei | exact (Hff E)].
Qed.

(** X5.  [LockSudoers] never raises, whatever fails underneath.  It
    answers [True] only when the marker was not there, and has then
    created it, empty.  When it answers [False] the files are as they
    were, but for one case: the marker was free and has been created, and
    closing its descriptor failed; the marker is then left in place.
    With the marker in place the answer is [False] and nothing changes;
    with no marker and no failure underneath the answer is [True]. *)
Theorem LockSudoers_outcome (w : world) :
  ∃ b, (LockSudoers w).1 = Done b ∧
       (b = true → fs w !! SUDOERS_TMP = None ∧
                   fs (LockSudoers w).2 = <[SUDOERS_TMP := lock_inode]> (fs w)) ∧
       (b = false →
        fs (LockSudoers w).2 = fs w ∨
        (fs w !! SUDOERS_TMP = None ∧ faults w ≠ [] ∧
         fs (LockSudoers w).2 = <[SUDOERS_TMP := lock_inode]> (fs w))) ∧
       (is_Some (fs w !! SUDOERS_TMP) → b = false ∧ fs (LockSudoers w).2 = fs w) ∧
       (faults w = [] → fs w !! SUDOERS_TMP = None → b = true).
Proof.
  destruct (LockSudoers_run w) as (b & H1 & H2 & H3 & H4 & H5 & _).
  exists b. repeat split; try assumption; try (apply H2; assumption);
    apply H4; assumption.
Qed.

(** X6.  The lock excludes: once a call has taken it, the next call is
    refused and leaves the files alone, whatever fails underneath. *)
Theorem LockSudoers_exclusive (w : world) :
  (LockSudoers w).1 = Done true →
  (LockSudoers (LockSudoers w).2).1 = Done false ∧
  fs (LockSudoers (LockSudoers w).2).2 = fs (LockSudoers w).2.
Proof.
  intros Htaken.
  destruct (LockSudoers_run w) as (b & Hb & Htrue & _).
  rewrite Htaken in Hb. inversion Hb; subst b.
  destruct (Htrue eq_refl) as [_ Hfs].
  destruct (LockSudoers_run (LockSudoers w).2) as (b' & Hb' & _ & _ & Hheld & _).
  destruct Hheld as [-> Hsame].
  { rewrite Hfs, lookup_insert_eq. eauto. }
  split; [exact Hb' | exact Hsame].
Qed.

Lemma LockSudoers_exclusive_witness :
  (LockSudoers (LockSudoers demo_world).2).1 = Done false ∧
  fs (LockSudoers (LockSudoers demo_world).2).2 = fs (LockSudoers demo_world).2.
Proof. apply LockSudoers_exclusive. vm_compute. reflexivity. Defined.

(** X7.  [UnlockSudoers] never raises and touches no path but the
    marker's; when it answers [False] it has changed nothing.  With no
    failure underneath it answers [False] only for a marker that is a
    directory, and after the answer [True] the marker is gone. *)
Theorem UnlockSudoers_outcome (w : world) :
  ∃ b, (UnlockSudoers w).1 = Done b ∧
       (∀ p, p ≠ SUDOERS_TMP → fs (UnlockSudoers w).2 !! p = fs w !! p) ∧
       (b = false → fs (UnlockSudoers w).2 = fs w) ∧
       (faults w = [] →
        b = negb (is_dir (fs w) SUDOERS_TMP) ∧
        (b = true → fs (UnlockSudoers w).2 !! SUDOERS_TMP = None)).
Proof.
  destruct (UnlockSudoers_run w) as (b & H1 & H2 & H3 & H4).
  exists b. repeat split; try assumption; intros; apply H4; assumption.
Qed.

(** X8.  Taking the lock and giving it back, with no marker to begin
    with and no failure underneath: both calls answer [True] and the
    files are exactly as they were before. *)
Theorem Lock_then_Unlock (w : world) :
  faults w = [] →
  fs w !! SUDOERS_TMP = None →
  (LockSudoers w).1 = Done true ∧
  (UnlockSudoers (LockSudoers w).2).1 = Done true ∧
  fs (UnlockSudoers (LockSudoers w).2).2 = fs w.
Proof.
  intros Hff Hnone.
  destruct (LockSudoers_run w) as (b & Hb & Htrue & _ & _ & Hfree & Hff1).
  pose proof (Hfree Hff Hnone) as ->.
  destruct (Htrue eq_refl) as [_ Hfs].
  destruct (UnlockSudoers_run (LockSudoers w).2) as (u & Hu & Hother & _ & Hfree2).
  destruct (Hfree2 (Hff1 Hff)) as (Eu & Hgone & _).
  assert (u = true) as ->.
  { rewrite Eu. unfold is_dir. rewrite Hfs, lookup_insert_eq. reflexivity. }
  split; [exact Hb|]. split; [exact Hu|].
  apply map_eq. intros p. destruct (decide (p = SUDOERS_TMP)) as [->|Hp].
  - rewrite (Hgone eq_refl), Hnone. reflexivity.
  - rewrite (Hother p Hp), Hfs. apply lookup_insert_ne. congruence.
Qed.

Lemma Lock_then_Unlock_witness :
  (LockSudoers demo_world).1 = Done true ∧
  (UnlockSudoers (LockSudoers demo_world).2).1 = Done true ∧
  fs (UnlockSudoers (LockSudoers demo_world).2).2 = fs demo_world.
Proof. apply Lock_then_Unlock; reflexivity. Defined.


Lemma never_filter_calls {A} (f : A → M bool) (xs : list A) :
  (∀ x, never_raises (f x)) → never_raises (filter_calls f xs).
Proof.
  intros Hf. induction xs as [|x xs IH]; simpl.
  - apply raises_ret.
  - apply raises_bind; [apply Hf|]. intros keep.
    apply raises_bind; [exact IH|]. intros rest. apply raises_ret.
Qed.

Lemma never_GroupsThatExist (groups_list : list string) :
  never_raises (GroupsThatExist groups_list).
Proof. apply never_filter_calls. intros g. raises_tac. Qed.











(** ** Runs that meet no fault, step by step *)

Lemma settled_start (w : world) : faults w = [] → settled w w (fs w).
Proof. intros H. repeat split; assumption. Qed.

Lemma wp_probe_run {A} (c : call) (f : world → A) (Q : outcome A → world → Prop)
    (w0 w : world) (m : gmap string inode) :
  settled w0 w m →
  (∀ w', settled w0 w' m → Q (Done (f w)) w') →
  wp (probe c f) Q w.
Proof. intros S HQ. apply HQ. exact S. Qed.

Lemma wp_log_run (l : level) (msg : string) (Q : outcome unit → world → Prop)
    (w0 w : world) (m : gmap string inode) :
  settled w0 w m →
  (∀ w', settled w0 w' m → Q (Done tt) w') →
  wp (logging_log l msg) Q w.
Proof. intros S HQ. apply HQ. exact S. Qed.

Lemma wp_syscall_run {A} (c : call) (cls : errno → exn)
    (body : gmap string inode → exn + (A * gmap string inode))
    (Q : outcome A → world → Prop) (w0 w : world) (m : gmap string inode)
    (a : A) (m' : gmap string inode) :
  settled w0 w m →
  body m = inr (a, m') →
  (∀ w', settled w0 w' m' → Q (Done a) w') →
  wp (syscall c cls body) Q w.
Proof.
  intros (Hfs & Hff & Htn & Hpw & Hgr) Hb HQ. unfold wp, syscall.
  rewrite Hff, Hfs, Hb. cbn [head]. apply HQ.
  repeat split; cbn; try assumption. rewrite Hff. reflexivity.
Qed.

Lemma wp_read_lines_run (p : string) (Q : outcome (list string) → world → Prop)
    (w0 w : world) (m : gmap string inode) (d : string) (mode uid gid : Z) :
  settled w0 w m →
  m !! p = Some (Inode S_IFREG d mode uid gid) →
  (∀ w', settled w0 w' m → Q (Done (Py.readlines d)) w') →
  wp (with_file (OpenFile_r p) file_readlines) Q w.
Proof.
  intros S Hp HQ. unfold with_file, OpenFile_r, open_r.
  apply wp_bind. apply (wp_syscall_run _ _ _ _ w0 w m p m S).
  { rewrite Hp. reflexivity. }
  intros w1 S1. apply wp_try_finally. unfold file_readlines.
  apply (wp_syscall_run _ _ _ _ w0 w1 m (Py.readlines d) m S1).
  { rewrite Hp. reflexivity. }
  intros w2 S2. unfold file_close. apply (wp_probe_run _ _ _ w0 w2 m S2).
  exact HQ.
Qed.

Lemma wp_writelines_run (f : string) (ls : list string)
    (Q : outcome unit → world → Prop) (w0 w : world) (m : gmap string inode)
    (t : ftype) (d : string) (mode uid gid : Z) :
  settled w0 w m →
  m !! f = Some (Inode t d mode uid gid) →
  (∀ w', settled w0 w' (<[f := Inode t (d +:+ Py.join ls) mode uid gid]> m) →
         Q (Done tt) w') →
  wp (file_writelines f ls) Q w.
Proof.
  unfold file_writelines.
  revert w m d. induction ls as [|l ls IH]; intros w m d S Hf HQ.
  - apply wp_ret. apply HQ. cbn [Py.join]. rewrite str_app_nil_r.
    rewrite insert_id by exact Hf. exact S.
  - cbn [for_each]. apply wp_bind. unfold file_write.
    apply (wp_syscall_run _ _ _ _ w0 w m tt
             (<[f := Inode t (d +:+ l) mode uid gid]> m) S).
    { rewrite Hf. reflexivity. }
    intros w1 S1. apply (IH w1 _ (d +:+ l) S1); [apply lookup_insert_eq|].
    intros w' S'. apply HQ. rewrite insert_insert_eq in S'.
    cbn [Py.join]. rewrite <- str_app_assoc. exact S'.
Qed.

Lemma wp_mkstemp_run (Q : outcome (string * string) → world → Prop)
    (w0 w : world) (m : gmap string inode) (n : string) :
  settled w0 w m →
  (first_free m (tmpnames w0)).1 = Some n →
  (∀ w', settled (set_tmpnames (first_free m (tmpnames w0)).2 w0) w'
                 (<[n := tmp_inode]> m) →
         Q (Done (n, n)) w') →
  wp tempfile_mkstemp Q w.
Proof.
  intros (Hfs & Hff & Htn & Hpw & Hgr) Hfree HQ. unfold wp, tempfile_mkstemp.
  rewrite Hfs, Htn. destruct (first_free m (tmpnames w0)) as [free rest].
  cbn [fst snd] in *. subst free.
  unfold syscall. cbn [faults set_tmpnames fs]. rewrite Hff, Hfs. cbn [head].
  apply HQ. repeat split; cbn; try assumption. rewrite Hff. reflexivity.
Qed.

Lemma wp_LockSudoers_run (Q : outcome bool → world → Prop) (w0 w : world)
    (m : gmap string inode) :
  settled w0 w m →
  m !! SUDOERS_TMP = None →
  (∀ w', settled w0 w' (<[SUDOERS_TMP := lock_inode]> m) → Q (Done true) w') →
  wp LockSudoers Q w.
Proof.
  intros S Hnone HQ. unfold LockSudoers, os_open_excl_creat.
  apply wp_try_except, wp_bind.
  apply (wp_syscall_run _ _ _ _ w0 w m SUDOERS_TMP
           (<[SUDOERS_TMP := lock_inode]> m) S).
  { rewrite Hnone. reflexivity. }
  intros w1 S1. apply wp_bind. unfold os_close.
  apply (wp_syscall_run _ _ _ _ w0 w1 _ tt (<[SUDOERS_TMP := lock_inode]> m) S1);
    [reflexivity|].
  intros w2 S2. apply wp_ret, HQ, S2.
Qed.

Lemma wp_UnlockSudoers_run (Q : outcome bool → world → Prop) (w0 w : world)
    (m : gmap string inode) :
  settled w0 w m →
  is_reg m SUDOERS_TMP = true →
  (∀ w', settled w0 w' (delete SUDOERS_TMP m) → Q (Done true) w') →
  wp UnlockSudoers Q w.
Proof.
  intros S Hreg HQ. unfold UnlockSudoers, os_unlink.
  apply wp_try_except, wp_bind.
  apply (wp_syscall_run _ _ _ _ w0 w m tt (delete SUDOERS_TMP m) S).
  { unfold is_reg in Hreg.
    destruct (m !! SUDOERS_TMP) as [[[] ? ? ? ?]|]; try discriminate. reflexivity. }
  intros w1 S1. apply wp_ret, HQ, S1.
Qed.

Lemma first_free_insert (m : gmap string inode) (names : list string)
    (k : string) (i : inode) :
  k ∉ names → first_free (<[k := i]> m) names = first_free m names.
Proof.
  induction names as [|x names IH]; intros Hk; [reflexivity|].
  apply not_elem_of_cons in Hk as [Hx Hk]. cbn [first_free].
  rewrite lookup_insert_ne by exact Hx.
  destruct (m !! x); [apply IH, Hk | reflexivity].
Qed.

Lemma first_free_elem (m : gmap string inode) (names : list string) (n : string) :
  (first_free m names).1 = Some n → n ∈ names ∧ m !! n = None.
Proof.
  induction names as [|x names IH]; cbn [first_free]; [discriminate|].
  destruct (m !! x) eqn:Ex.
  - intros H. destruct (IH H) as [Hin Hn]. split; [right; exact Hin | exact Hn].
  - cbn. intros E. inversion E; subst. split; [left | exact Ex].
Qed.

(** ** The sudoers editor, case by case *)

Lemma MakeUserSudoer_no_file_run (system : system_module) (user : string) (w : world) :
  is_reg (fs w) SUDOERS = false →
  MakeUserSudoer system user w
  = (Done tt,
     World (fs w) (passwd w) (group w) (faults w) (tmpnames w)
           (trace w ++ [Event (os_path_isfile_c SUDOERS) None (fs w)])
           (logged w ++ [(INFO, "Did not grant admin access to " +:+ user +:+
                                ". /etc/sudoers not found.")])).
Proof.
  intros Hreg. unfold MakeUserSudoer, bind, os_path_isfile, probe.
  rewrite Hreg. reflexivity.
Qed.

Lemma MakeUserSudoer_found_run (system : system_module) (user : string) (w : world)
    (d0 : string) (mode uid gid : Z) :
  faults w = [] →
  fs w !! SUDOERS = Some (Inode S_IFREG d0 mode uid gid) →
  Py.truthy (IsUserSudoerInLines user (Py.readlines d0)) = true →
  MakeUserSudoer system user w
  = (Done tt,
     World (fs w) (passwd w) (group w) [] (tmpnames w)
           (trace w ++ [Event (os_path_isfile_c SUDOERS) None (fs w);
                        Event (open_r_c SUDOERS) None (fs w);
                        Event (readlines_c SUDOERS) None (fs w);
                        Event (close_c SUDOERS) None (fs w)])
           (logged w)).
Proof.
  intros Hff Hs Hmem. destruct w as [m pw gr fl tn tr lg]. simpl in Hff, Hs. subst fl.
  unfold MakeUserSudoer, bind, os_path_isfile, probe, with_file, OpenFile_r, open_r,
    try_finally, file_readlines, file_close, syscall, probe, bind, is_reg.
  cbn [fs faults record pop_fault set_fs head tail passwd group tmpnames trace logged].
  rewrite Hs.
  cbn [negb fs faults record pop_fault set_fs head tail passwd group tmpnames trace
       logged i_data].
  rewrite Hs.
  cbn [negb fs faults record pop_fault set_fs head tail passwd group tmpnames trace
       logged i_data].
  rewrite Hs.
  cbn [negb fs faults record pop_fault set_fs head tail passwd group tmpnames trace
       logged i_data].
  rewrite Hmem. unfold ret, record, set_fs, pop_fault.
  cbn [fs faults head tail passwd group tmpnames trace logged].
  rewrite <- !app_assoc. reflexivity.
Qed.

(** X11.  Without a regular file at /etc/sudoers the editor creates
    nothing: it looks once, writes one line in the log and returns,
    whatever faults are pending. *)
Theorem MakeUserSudoer_without_sudoers_file (system : system_module)
    (user : string) (w : world) :
  is_reg (fs w) SUDOERS = false →
  (MakeUserSudoer system user w).1 = Done tt ∧
  fs (MakeUserSudoer system user w).2 = fs w ∧
  events_of (MakeUserSudoer system user) w
  = [Event (os_path_isfile_c SUDOERS) None (fs w)] ∧
  logged (MakeUserSudoer system user w).2
  = (logged w ++ [(INFO, "Did not grant admin access to " +:+ user +:+
                         ". /etc/sudoers not found.")])%list.
Proof.
  intros Hreg. unfold events_of.
  rewrite (MakeUserSudoer_no_file_run system user w Hreg). cbn [fst snd fs trace logged].
  rewrite drop_app_length. repeat split.
Qed.

Lemma MakeUserSudoer_without_sudoers_file_witness :
  let w := set_fs ∅ demo_world in
  (MakeUserSudoer demo_system "alice" w).1 = Done tt ∧
  fs (MakeUserSudoer demo_system "alice" w).2 = fs w ∧
  events_of (MakeUserSudoer demo_system "alice") w
  = [Event (os_path_isfile_c SUDOERS) None (fs w)] ∧
  logged (MakeUserSudoer demo_system "alice" w).2
  = (logged w ++ [(INFO, "Did not grant admin access to " +:+ "alice" +:+
                         ". /etc/sudoers not found.")])%list.
Proof.
  cbv zeta. apply MakeUserSudoer_without_sudoers_file. reflexivity.
Defined.

(** X12.  When the first reading of the sudoers file finds an entry for
    the user, the editor stops there: four calls that only look, no
    attempt at the lock (held by another process or not), nothing
    written, nothing logged. *)
Theorem MakeUserSudoer_already_sudoer (system : system_module) (user : string)
    (w : world) (d0 : string) (mode uid gid : Z) :
  faults w = [] →
  fs w !! SUDOERS = Some (Inode S_IFREG d0 mode uid gid) →
  Py.truthy (IsUserSudoerInLines user (Py.readlines d0)) = true →
  (MakeUserSudoer system user w).1 = Done tt ∧
  fs (MakeUserSudoer system user w).2 = fs w ∧
  events_of (MakeUserSudoer system user) w
  = [Event (os_path_isfile_c SUDOERS) None (fs w);
     Event (open_r_c SUDOERS) None (fs w);
     Event (readlines_c SUDOERS) None (fs w);
     Event (close_c SUDOERS) None (fs w)] ∧
  logged (MakeUserSudoer system user w).2 = logged w.
Proof.
  intros Hff Hs Hmem. unfold events_of.
  rewrite (MakeUserSudoer_found_run system user w d0 mode uid gid Hff Hs Hmem).
  cbn [fst snd fs trace logged]. rewrite drop_app_length. repeat split.
Qed.

Lemma MakeUserSudoer_already_sudoer_witness :
  (MakeUserSudoer demo_system "root" demo_world_locked).1 = Done tt ∧
  fs (MakeUserSudoer demo_system "root" demo_world_locked).2 = fs demo_world_locked ∧
  events_of (MakeUserSudoer demo_system "root") demo_world_locked
  = [Event (os_path_isfile_c SUDOERS) None (fs demo_world_locked);
     Event (open_r_c SUDOERS) None (fs demo_world_locked);
     Event (readlines_c SUDOERS) None (fs demo_world_locked);
     Event (close_c SUDOERS) None (fs demo_world_locked)] ∧
  logged (MakeUserSudoer demo_system "root" demo_world_locked).2
  = logged demo_world_locked.
Proof.
  apply (MakeUserSudoer_already_sudoer demo_system "root" demo_world_locked
           ("root ALL=(ALL) ALL" +:+ Py.NL) (octal 4 4 0) 0 0).
  - reflexivity.
  - vm_compute. reflexivity.
  - vm_compute. reflexivity.
Defined.

Lemma MakeUserSudoer_grant_run (system : system_module) (user : string) (w : world)
    (d0 : string) (mode uid gid : Z) (n : string) :
  faults w = [] →
  fs w !! SUDOERS = Some (Inode S_IFREG d0 mode uid gid) →
  IsUserSudoerInLines user (Py.readlines d0) = [] →
  fs w !! SUDOERS_TMP = None →
  SUDOERS_TMP ∉ tmpnames w →
  (first_free (fs w) (tmpnames w)).1 = Some n →
  visudo_ok system (candidate user d0) = true →
  wp (MakeUserSudoer system user)
     (fun r w' =>
        r = Done tt ∧ faults w' = [] ∧ passwd w' = passwd w ∧
        tmpnames w' = (first_free (fs w) (tmpnames w)).2 ∧
        fs w' = <[SUDOERS := Inode S_IFREG (candidate user d0) (octal 4 4 0) uid gid]>
                  (fs w))
     w.
Proof.
  intros Hff Hs Hmem Hnone Htmp Hfree Hv.
  destruct (first_free_elem _ _ _ Hfree) as [Hin Hn].
  assert (Hnt : n ≠ SUDOERS_TMP) by (intros ->; contradiction).
  assert (Hns : n ≠ SUDOERS) by (intros ->; rewrite Hs in Hn; discriminate).
  pose proof (settled_start w Hff) as S0.
  unfold MakeUserSudoer.
  apply wp_bind. unfold os_path_isfile. apply (wp_probe_run _ _ _ w w _ S0).
  intros w1 S1. unfold is_reg. rewrite Hs. cbn [negb].
  apply wp_bind. apply (wp_read_lines_run _ _ w w1 _ d0 mode uid gid S1 Hs).
  intros w2 S2. rewrite Hmem. cbn [Py.truthy].
  apply wp_bind. apply (wp_LockSudoers_run _ w w2 _ S2 Hnone).
  intros w3 S3. cbn [negb].
  assert (Hs1 : <[SUDOERS_TMP := lock_inode]> (fs w) !! SUDOERS
                = Some (Inode S_IFREG d0 mode uid gid)).
  { rewrite lookup_insert_ne by discriminate. exact Hs. }
  apply wp_try_finally, wp_try_except, wp_bind.
  apply (wp_read_lines_run _ _ w w3 _ d0 mode uid gid S3 Hs1).
  intros w4 S4. rewrite Hmem. cbn [Py.truthy].
  apply wp_bind. apply (wp_mkstemp_run _ w w4 _ n S4).
  { rewrite first_free_insert by exact Htmp. exact Hfree. }
  intros w5 S5. cbn [fst snd].
  set (w0' := set_tmpnames _ w) in S5.
  assert (Hpw : passwd w0' = passwd w) by reflexivity.
  assert (Htn : tmpnames w0' = (first_free (fs w) (tmpnames w)).2).
  { unfold w0'. cbn [tmpnames set_tmpnames].
    rewrite first_free_insert by exact Htmp. reflexivity. }
  clearbody w0'.
  change (map EnsureTrailingNewline
            (Py.readlines d0 ++ [user +:+ " ALL=NOPASSWD: ALL"]))
    with (candidate_lines user d0).
  apply wp_bind. unfold with_file at 1, os_fdopen.
  apply wp_bind, wp_ret, wp_try_finally, wp_bind.
  eapply (wp_writelines_run n _ _ w0' w5 _ S_IFREG "" (octal 6 0 0) 0 0 S5).
  { apply lookup_insert_eq. }
  intros w6 S6. rewrite insert_insert_eq in S6.
  change ("" +:+ Py.join (candidate_lines user d0)) with (candidate user d0) in S6.
  unfold file_seek. apply wp_ret. unfold file_close.
  apply (wp_probe_run _ _ _ w0' w6 _ S6). intros w7 S7.
  apply wp_try_finally, wp_bind. unfold IsValidSudoersFile.
  apply (wp_probe_run _ _ _ w0' w7 _ S7). intros w8 S8.
  rewrite (proj1 S7), lookup_insert_eq. cbn [i_data]. rewrite Hv. cbn [negb].
  apply wp_bind. unfold os_chmod.
  eapply (wp_syscall_run _ _ _ _ w0' w8 _ tt _ S8).
  { unfold chmod_in. rewrite lookup_insert_ne by exact Hns. rewrite Hs1. reflexivity. }
  intros w9 S9.
  unfold with_file, OpenFile_w, open_w. apply wp_bind.
  eapply (wp_syscall_run _ _ _ _ w0' w9 _ SUDOERS _ S9).
  { rewrite lookup_insert_eq. reflexivity. }
  intros w10 S10. rewrite insert_insert_eq in S10.
  apply wp_try_finally, wp_bind.
  eapply (wp_writelines_run SUDOERS _ _ w0' w10 _ S_IFREG "" (octal 6 4 0) uid gid S10).
  { apply lookup_insert_eq. }
  intros w11 S11. rewrite insert_insert_eq in S11.
  change ("" +:+ Py.join (candidate_lines user d0)) with (candidate user d0) in S11.
  apply wp_bind. unfold os_fchmod.
  eapply (wp_syscall_run _ _ _ _ w0' w11 _ tt _ S11).
  { unfold chmod_in. rewrite lookup_insert_eq. reflexivity. }
  intros w12 S12. rewrite insert_insert_eq in S12.
  apply wp_try_except.
  eapply (wp_syscall_run _ _ _ _ w0' w12 _ tt _ S12).
  { unfold chmod_in. rewrite lookup_insert_eq. reflexivity. }
  intros w13 S13. rewrite insert_insert_eq in S13.
  apply (wp_probe_run _ _ _ w0' w13 _ S13). intros w14 S14.
  apply wp_try_except. unfold os_unlink.
  eapply (wp_syscall_run _ _ _ _ w0' w14 _ tt _ S14).
  { rewrite lookup_insert_ne by congruence. rewrite lookup_insert_eq. reflexivity. }
  intros w15 S15.
  apply wp_bind. eapply (wp_UnlockSudoers_run _ w0' w15 _ S15).
  { unfold is_reg. rewrite lookup_delete_ne by congruence.
    rewrite lookup_insert_ne by discriminate.
    rewrite lookup_insert_ne by congruence.
    rewrite lookup_insert_eq. reflexivity. }
  intros w16 (F16 & Hff16 & Htn16 & Hpw16 & _). apply wp_ret.
  split; [reflexivity|]. split; [exact Hff16|]. split; [congruence|].
  split; [congruence|].
  rewrite F16. apply map_eq. intros p.
  destruct (decide (p = SUDOERS_TMP)) as [->|Hp1].
  { rewrite lookup_delete_eq, lookup_insert_ne by discriminate. symmetry. exact Hnone. }
  rewrite lookup_delete_ne by congruence.
  destruct (decide (p = n)) as [->|Hp2].
  { rewrite lookup_delete_eq, lookup_insert_ne by congruence. symmetry. exact Hn. }
  rewrite lookup_delete_ne by congruence.
  destruct (decide (p = SUDOERS)) as [->|Hp3].
  { rewrite !lookup_insert_eq. reflexivity. }
  rewrite !lookup_insert_ne by congruence. reflexivity.
Qed.


Lemma endswith_ends_with_LF (l : string) : Py.endswith l Py.NL = ends_with_LF l.
Proof.
  induction l as [|c s IH]; [reflexivity|].
  rewrite endswith_cons, IH. destruct s as [|c' s'].
  - cbn. destruct (Ascii.eqb c Py.LF); reflexivity.
  - assert (E : String.eqb (String c (String c' s')) Py.NL = false).
    { apply String.eqb_neq. intros E. inversion E. }
    rewrite E. reflexivity.
Qed.

Lemma ETN_with_line_feed (l : string) : EnsureTrailingNewline l = with_line_feed l.
Proof.
  unfold EnsureTrailingNewline, with_line_feed. rewrite endswith_ends_with_LF.
  reflexivity.
Qed.

Lemma with_final_newline_ETN (s : string) :
  with_final_newline s
  = match s with EmptyString => EmptyString | _ => EnsureTrailingNewline s end.
Proof. destruct s; [reflexivity|]. symmetry. apply ETN_with_line_feed. Qed.

Lemma ETN_cons (c : ascii) (s : string) :
  s ≠ "" → EnsureTrailingNewline (String c s) = String c (EnsureTrailingNewline s).
Proof.
  intros Hs. unfold EnsureTrailingNewline. rewrite endswith_cons.
  assert (E : String.eqb (String c s) Py.NL = false).
  { apply String.eqb_neq. intros E. inversion E. contradiction. }
  rewrite E. cbn [orb]. destruct (Py.endswith s Py.NL); reflexivity.
Qed.

Lemma readlines_nonempty (s : string) : Forall (fun l => l ≠ "") (Py.readlines s).
Proof.
  induction s as [|c s IH]; [constructor|]. rewrite readlines_cons.
  destruct (Ascii.eqb c Py.LF).
  - constructor; [discriminate | exact IH].
  - destruct (Py.readlines s) as [|l ls]; [repeat constructor; discriminate|].
    inversion IH; subst. constructor; [discriminate | assumption].
Qed.

Lemma readlines_nil (s : string) : Py.readlines s = [] → s = "".
Proof.
  destruct s as [|c s]; [reflexivity|]. rewrite readlines_cons.
  destruct (Ascii.eqb c Py.LF); [discriminate|].
  destruct (Py.readlines s); discriminate.
Qed.

Lemma join_ETN_readlines (s : string) :
  Py.join (map EnsureTrailingNewline (Py.readlines s)) = with_final_newline s.
Proof.
  induction s as [|c s IH]; [reflexivity|].
  rewrite with_final_newline_ETN. rewrite with_final_newline_ETN in IH.
  cbv iota. rewrite readlines_cons.
  destruct (Ascii.eqb_spec c Py.LF) as [->|Hc].
  - cbn [map Py.join]. rewrite IH. destruct s as [|c' s']; [reflexivity|].
    rewrite (ETN_cons Py.LF (String c' s')) by discriminate. reflexivity.
  - pose proof (readlines_nonempty s) as Hne.
    destruct (Py.readlines s) as [|l ls] eqn:El.
    + rewrite (readlines_nil _ El). cbn [map Py.join].
      unfold EnsureTrailingNewline. rewrite endswith_cons.
      assert (E : String.eqb (String c "") Py.NL = false).
      { apply String.eqb_neq. intros E. inversion E. contradiction. }
      rewrite E. reflexivity.
    + inversion Hne as [|? ? Hl _]; subst.
      destruct s as [|c' s']; [discriminate El|].
      cbn [map Py.join] in *. rewrite (ETN_cons c l Hl).
      rewrite (ETN_cons c (String c' s')) by discriminate.
      rewrite <- IH. reflexivity.
Qed.

Lemma endswith_app_NL (a b : string) :
  b ≠ "" → Py.endswith (a +:+ b) Py.NL = Py.endswith b Py.NL.
Proof.
  intros Hb. induction a as [|x a IH]; [reflexivity|].
  change (String x a +:+ b) with (String x (a +:+ b)). rewrite endswith_cons, IH.
  assert (E : String.eqb (String x (a +:+ b)) Py.NL = false).
  { apply String.eqb_neq. intros E. inversion E as [[Hx Hab]].
    destruct a; [cbn in Hab; contradiction | discriminate Hab]. }
  rewrite E. reflexivity.
Qed.

(** What the editor writes: the old content, its last line ended, then
    the rule line of the user. *)
Lemma candidate_eq (user d0 : string) :
  candidate user d0 = with_final_newline d0 +:+ rule_line user +:+ Py.NL.
Proof.
  unfold candidate, candidate_lines. rewrite map_app, join_app, join_ETN_readlines.
  f_equal. cbn [map Py.join]. rewrite str_app_nil_r.
  unfold EnsureTrailingNewline, rule_line.
  rewrite endswith_app_NL by discriminate. reflexivity.
Qed.

(** X13.  The grant, when nothing fails: the sudoers file is a regular
    file without an entry for the user, nobody holds the lock, the
    checker accepts the result.  Then the call ends normally and the
    only change to the files is the sudoers file itself: it holds its old
    content, its last line ended, followed by the rule line of the user;
    its mode is 0440 and its owner is who it was.  The temporary file and
    the lock marker are gone. *)
Theorem MakeUserSudoer_grants (system : system_module) (user : string) (w : world)
    (d0 : string) (mode uid gid : Z) (n : string) :
  faults w = [] →
  fs w !! SUDOERS = Some (Inode S_IFREG d0 mode uid gid) →
  IsUserSudoerInLines user (Py.readlines d0) = [] →
  fs w !! SUDOERS_TMP = None →
  SUDOERS_TMP ∉ tmpnames w →
  (first_free (fs w) (tmpnames w)).1 = Some n →
  visudo_ok system (candidate user d0) = true →
  (MakeUserSudoer system user w).1 = Done tt ∧
  fs (MakeUserSudoer system user w).2
  = <[SUDOERS := Inode S_IFREG
                   (with_final_newline d0 +:+ rule_line user +:+ Py.NL)
                   (octal 4 4 0) uid gid]> (fs w).
Proof.
  intros Hff Hs Hmem Hnone Htmp Hfree Hv.
  destruct (MakeUserSudoer_grant_run system user w d0 mode uid gid n
              Hff Hs Hmem Hnone Htmp Hfree Hv) as (Hdone & _ & _ & _ & Hfs).
  split; [exact Hdone|]. rewrite Hfs, candidate_eq. reflexivity.
Qed.

Lemma MakeUserSudoer_grants_witness :
  (MakeUserSudoer demo_system "alice" demo_world).1 = Done tt ∧
  fs (MakeUserSudoer demo_system "alice" demo_world).2
  = <[SUDOERS := Inode S_IFREG
                   (with_final_newline ("root ALL=(ALL) ALL" +:+ Py.NL)
                    +:+ rule_line "alice" +:+ Py.NL)
                   (octal 4 4 0) 0 0]> (fs demo_world).
Proof.
  apply (MakeUserSudoer_grants demo_system "alice" demo_world
           ("root ALL=(ALL) ALL" +:+ Py.NL) (octal 4 4 0) 0 0 "/tmp/tmpA").
  - reflexivity.
  - vm_compute. reflexivity.
  - vm_compute. reflexivity.
  - vm_compute. reflexivity.
  - apply (bool_decide_unpack (SUDOERS_TMP ∉ tmpnames demo_world)). vm_compute. exact I.
  - vm_compute. reflexivity.
  - reflexivity.
Defined.

(** ** Groups and accounts *)

Lemma GroupsThatExist_run (groups_list : list string) (w : world) :
  GroupsThatExist groups_list w
  = (Done (List.filter (fun g => bool_decide (g ∈ group w)) groups_list),
     World (fs w) (passwd w) (group w) (faults w) (tmpnames w)
           (trace w ++
            map (fun g => Event (getgrnam_c g)
                            (if bool_decide (g ∈ group w) then None else Some KeyError)
                            (fs w))
                groups_list)
           (logged w)).
Proof.
  unfold GroupsThatExist. revert w.
  induction groups_list as [|g gs IH]; intros w.
  - cbn. rewrite app_nil_r. destruct w; reflexivity.
  - cbn [filter_calls List.filter map]. unfold bind at 1.
    unfold try_except, bind at 1, grp_getgrnam.
    destruct (bool_decide (g ∈ group w)) eqn:Eg; cbn [is_KeyError].
    + unfold ret at 1. unfold bind at 1. rewrite IH. unfold ret, record.
      cbn [fs passwd group faults tmpnames trace logged].
      rewrite <- app_assoc. reflexivity.
    + unfold ret at 1. unfold bind at 1. rewrite IH. unfold ret, record.
      cbn [fs passwd group faults tmpnames trace logged].
      rewrite <- app_assoc. reflexivity.
Qed.

(** X14.  [GroupsThatExist] gives the groups of its list that the group
    database knows, in the order of the list, after one look-up per
    name; an unknown name costs nothing but its look-up.  [__init__]
    keeps the result for the four default groups. *)
Theorem GroupsThatExist_filter (groups_list : list string) (w : world) :
  (GroupsThatExist groups_list w).1
  = Done (List.filter (fun g => bool_decide (g ∈ group w)) groups_list) ∧
  map ev_call (events_of (GroupsThatExist groups_list) w)
  = map getgrnam_c groups_list ∧
  fs (GroupsThatExist groups_list w).2 = fs w ∧
  (Accounts__init__ w).1
  = Done {| default_user_groups :=
              List.filter (fun g => bool_decide (g ∈ group w))
                          ["adm"; "video"; "dip"; "plugdev"] |}.
Proof.
  unfold events_of, Accounts__init__, bind. rewrite !GroupsThatExist_run.
  cbn [fst snd fs trace]. rewrite drop_app_length, map_map.
  repeat split.
Qed.


Lemma UserExists_run (user : string) (w : world) :
  UserExists user w
  = (Done (bool_decide (is_Some (passwd w !! user))),
     record (getpwnam_c user)
            (match passwd w !! user with Some _ => None | None => Some KeyError end) w).
Proof.
  unfold UserExists, try_except, bind, pwd_getpwnam.
  destruct (passwd w !! user) as [ent|]; reflexivity.
Qed.

(** X15.  A name with a character outside [[A-Za-z0-9._-]], or one that
    starts with a hyphen, gets no account: [CreateUser] makes no call at
    all, changes neither the files nor the password database, and leaves
    one warning in the log. *)
Theorem CreateUser_rejects_invalid (system : system_module) (self : Accounts)
    (username : string) (ssh_keys : list string) (w : world) :
  str_forall in_portable_class username = false ∨
  Py.startswith username "-" = true →
  (CreateUser system self username ssh_keys w).1 = Done tt ∧
  events_of (CreateUser system self username ssh_keys) w = [] ∧
  fs (CreateUser system self username ssh_keys w).2 = fs w ∧
  passwd (CreateUser system self username ssh_keys w).2 = passwd w ∧
  logged (CreateUser system self username ssh_keys w).2
  = (logged w ++
     [(WARNING, "Not creating account for user " +:+ username +:+
                ".  Usernames must comprise characters [A-Za-z0-9._-] and not start with '-'.")])%list.
Proof.
  intros Hbad.
  assert (Hv : IsValidUsername username = false).
  { rewrite IsValidUsername_eq. destruct Hbad as [-> | ->]; [reflexivity|].
    apply andb_false_r. }
  unfold events_of, CreateUser. rewrite Hv. cbn [negb].
  unfold logging_warning, logging_log. cbn [fst snd fs passwd trace logged].
  rewrite drop_all. repeat split.
Qed.

Lemma CreateUser_rejects_invalid_witness :
  (CreateUser demo_system {| default_user_groups := [] |} "-rf" [] demo_world).1
  = Done tt ∧
  events_of (CreateUser demo_system {| default_user_groups := [] |} "-rf" []) demo_world
  = [] ∧
  fs (CreateUser demo_system {| default_user_groups := [] |} "-rf" [] demo_world).2
  = fs demo_world ∧
  passwd (CreateUser demo_system {| default_user_groups := [] |} "-rf" [] demo_world).2
  = passwd demo_world ∧
  logged (CreateUser demo_system {| default_user_groups := [] |} "-rf" [] demo_world).2
  = (logged demo_world ++
     [(WARNING, "Not creating account for user " +:+ "-rf" +:+
                ".  Usernames must comprise characters [A-Za-z0-9._-] and not start with '-'.")])%list.
Proof.
  apply CreateUser_rejects_invalid. right. reflexivity.
Defined.

Lemma CreateUser_creation_fails_run (system : system_module) (self : Accounts)
    (username : string) (ssh_keys : list string) (w : world) :
  IsValidUsername username = true →
  passwd w !! username = None →
  useradd_result system username (default_user_groups self) = None →
  CreateUser system self username ssh_keys w
  = (Done tt,
     World (fs w) (passwd w) (group w) (faults w) (tmpnames w)
           (trace w ++
            [Event (getpwnam_c username) (Some KeyError) (fs w);
             Event (useradd_c username (default_user_groups self)) None (fs w);
             Event (getpwnam_c username) (Some KeyError) (fs w)])
           (logged w)).
Proof.
  intros Hv Hnone Hfail. unfold CreateUser. rewrite Hv. cbn [negb].
  unfold bind. rewrite UserExists_run, Hnone.
  rewrite bool_decide_eq_false_2 by (intros [x Hx]; discriminate Hx). cbn [negb].
  unfold UserAdd. rewrite Hfail.
  rewrite UserExists_run. cbn [passwd record]. rewrite Hnone.
  rewrite bool_decide_eq_false_2 by (intros [x Hx]; discriminate Hx).
  unfold ret, record. cbn [fst snd fs passwd group tmpnames faults trace logged].
  rewrite <- !app_assoc. reflexivity.
Qed.

(** X16.  When the account is not there and its creation fails,
    [CreateUser] stops after three calls: the look-up, the creation, the
    look-up again.  It ends normally; the sudoers file and the keys are
    not touched, whatever faults are pending. *)
Theorem CreateUser_creation_fails (system : system_module) (self : Accounts)
    (username : string) (ssh_keys : list string) (w : world) :
  IsValidUsername username = true →
  passwd w !! username = None →
  useradd_result system username (default_user_groups self) = None →
  (CreateUser system self username ssh_keys w).1 = Done tt ∧
  events_of (CreateUser system self username ssh_keys) w
  = [Event (getpwnam_c username) (Some KeyError) (fs w);
     Event (useradd_c username (default_user_groups self)) None (fs w);
     Event (getpwnam_c username) (Some KeyError) (fs w)] ∧
  fs (CreateUser system self username ssh_keys w).2 = fs w ∧
  passwd (CreateUser system self username ssh_keys w).2 = passwd w ∧
  faults (CreateUser system self username ssh_keys w).2 = faults w ∧
  logged (CreateUser system self username ssh_keys w).2 = logged w.
Proof.
  intros Hv Hnone Hfail. unfold events_of.
  rewrite (CreateUser_creation_fails_run system self username ssh_keys w Hv Hnone Hfail).
  cbn [fst snd fs passwd faults trace logged]. rewrite drop_app_length.
  repeat split.
Qed.

Lemma CreateUser_creation_fails_witness :
  let system := System (fun _ => true) (fun _ _ => None) in
  let self := {| default_user_groups := ["adm"] |} in
  (CreateUser system self "alice" [] demo_world).1 = Done tt ∧
  events_of (CreateUser system self "alice" []) demo_world
  = [Event (getpwnam_c "alice") (Some KeyError) (fs demo_world);
     Event (useradd_c "alice" (default_user_groups self)) None (fs demo_world);
     Event (getpwnam_c "alice") (Some KeyError) (fs demo_world)] ∧
  fs (CreateUser system self "alice" [] demo_world).2 = fs demo_world ∧
  passwd (CreateUser system self "alice" [] demo_world).2 = passwd demo_world ∧
  faults (CreateUser system self "alice" [] demo_world).2 = faults demo_world ∧
  logged (CreateUser system self "alice" [] demo_world).2 = logged demo_world.
Proof.
  cbv zeta. apply CreateUser_creation_fails; reflexivity.
Defined.

Lemma calls_EnsureDir_within (allowed : call → bool) (depth : nat)
    (dir_path : string) (uid gid : Z) :
  (∀ c, is_useradd c = false → allowed c = true) →
  calls_only allowed (EnsureDir_within depth dir_path uid gid).
Proof.
  intros Ha. revert dir_path. induction depth as [|depth IH]; intros dir_path;
    cbn [EnsureDir_within]; calls_tac; try apply IH;
    try (apply calls_probe, Ha; reflexivity);
    try (apply calls_syscall, Ha; reflexivity);
    try (apply calls_refused, Ha; reflexivity).
Qed.

Lemma CreateUser_existing_calls (system : system_module) (self : Accounts)
    (username : string) (ssh_keys : list string) :
  let allowed := fun c => negb (is_useradd c) in
  ∀ w, is_Some (passwd w !! username) →
       ∃ evs, trace (CreateUser system self username ssh_keys w).2
              = (trace w ++ evs)%list ∧
              Forall (fun ev => allowed (ev_call ev) = true) evs.
Proof.
  intros allowed w Hknown. unfold CreateUser.
  destruct (negb (IsValidUsername username)).
  { exists []. split; [symmetry; apply app_nil_r | constructor]. }
  unfold bind at 1. rewrite UserExists_run.
  rewrite bool_decide_eq_true_2 by exact Hknown. cbn [negb].
  set (w1 := record _ _ w).
  assert (Hrest : calls_only allowed
            (ret tt ;;;
             found <- UserExists username ;;
             if found then
               MakeUserSudoer system username ;;;
               _ <- AuthorizeSshKeys username ssh_keys ;;
               ret tt
             else ret tt)).
  { unfold MakeUserSudoer, AuthorizeSshKeys, EnsureHomeDir, EnsureDir,
      WriteAuthorizedSshKeysFile.
    calls_tac; apply calls_EnsureDir_within; intros c Hc; unfold allowed;
      rewrite Hc; reflexivity. }
  destruct (Hrest w1) as (evs & Ht & Hall).
  exists (Event (getpwnam_c username)
                (match passwd w !! username with
                 | Some _ => None | None => Some KeyError end) (fs w) :: evs).
  split; [|constructor; [reflexivity | exact Hall]].
  rewrite Ht. unfold w1, record. cbn [trace]. rewrite <- app_assoc. reflexivity.
Qed.

(** X17.  For an account that is already there [CreateUser] never asks
    for its creation: no call it makes is the create-user primitive. *)
Theorem CreateUser_existing_user (system : system_module) (self : Accounts)
    (username : string) (ssh_keys : list string) (w : world) :
  is_Some (passwd w !! username) →
  Forall (fun ev => is_useradd (ev_call ev) = false)
         (events_of (CreateUser system self username ssh_keys) w).
Proof.
  intros Hknown.
  destruct (CreateUser_existing_calls system self username ssh_keys w Hknown)
    as (evs & Ht & Hall).
  unfold events_of. rewrite Ht, drop_app_length.
  eapply Forall_impl; [exact Hall|]. intros ev H. apply negb_true_iff, H.
Qed.

Lemma CreateUser_existing_user_witness :
  Forall (fun ev => is_useradd (ev_call ev) = false)
         (events_of (CreateUser demo_system {| default_user_groups := [] |} "alice"
                                ["ssh-rsa K alice@cloud"])
                    demo_world_alice).
Proof.
  apply CreateUser_existing_user. eexists. vm_compute. reflexivity.
Defined.

(** ** Properties of the files that a computation keeps *)

Section Keeps.

Variable I : gmap string inode → Prop.

Lemma keeps_ret {A} (a : A) : keeps I (ret a).
Proof.
  intros w HI. split; [exact HI|]. exists []. split; [symmetry; apply app_nil_r|].
  constructor.
Qed.

Lemma keeps_bind {A B} (m : M A) (k : A → M B) :
  keeps I m → (∀ a, keeps I (k a)) → keeps I (bind m k).
Proof.
  intros Hm Hk w HI. unfold bind.
  destruct (Hm w HI) as (H1 & evs1 & Ht1 & Hall1).
  destruct (m w) as [[a|e] w1]; cbn [fst snd] in *.
  - destruct (Hk a w1 H1) as (H2 & evs2 & Ht2 & Hall2).
    split; [exact H2|]. exists (evs1 ++ evs2)%list. split.
    + rewrite Ht2, Ht1, app_assoc. reflexivity.
    + apply Forall_app. split; assumption.
  - split; [exact H1|]. exists evs1. split; assumption.
Qed.

Lemma keeps_try_finally {A} (body : M A) (fin : M unit) :
  keeps I body → keeps I fin → keeps I (try_finally body fin).
Proof.
  intros Hb Hf w HI. unfold try_finally.
  destruct (Hb w HI) as (H1 & evs1 & Ht1 & Hall1).
  destruct (body w) as [r w1]; cbn [fst snd] in *.
  destruct (Hf w1 H1) as (H2 & evs2 & Ht2 & Hall2).
  assert (Hend : I (fs (fin w1).2) ∧
                 ∃ evs, trace (fin w1).2 = (trace w ++ evs)%list ∧
                        Forall (fun ev => I (ev_fs ev)) evs).
  { split; [exact H2|]. exists (evs1 ++ evs2)%list. split.
    - rewrite Ht2, Ht1, app_assoc. reflexivity.
    - apply Forall_app. split; assumption. }
  destruct (fin w1) as [[u|e] w2]; exact Hend.
Qed.

Lemma keeps_try_except {A} (body : M A) (classes : exn → bool)
    (handler : exn → M A) :
  keeps I body → (∀ e, keeps I (handler e)) →
  keeps I (try_except body classes handler).
Proof.
  intros Hb Hh w HI. unfold try_except.
  destruct (Hb w HI) as (H1 & evs1 & Ht1 & Hall1).
  destruct (body w) as [[a|e] w1]; cbn [fst snd] in *.
  - split; [exact H1|]. exists evs1. split; assumption.
  - destruct (classes e).
    + destruct (Hh e w1 H1) as (H2 & evs2 & Ht2 & Hall2).
      split; [exact H2|]. exists (evs1 ++ evs2)%list. split.
      * rewrite Ht2, Ht1, app_assoc. reflexivity.
      * apply Forall_app. split; assumption.
    + split; [exact H1|]. exists evs1. split; assumption.
Qed.

Lemma keeps_probe {A} (c : call) (f : world → A) : keeps I (probe c f).
Proof.
  intros w HI. split; [exact HI|]. exists [Event c None (fs w)].
  split; [reflexivity|]. constructor; [exact HI | constructor].
Qed.

Lemma keeps_refused {A} (c : call) (e : exn) : keeps I (@refused A c e).
Proof.
  intros w HI. split; [exact HI|]. exists [Event c (Some e) (fs w)].
  split; [reflexivity|]. constructor; [exact HI | constructor].
Qed.

Lemma keeps_log (l : level) (msg : string) : keeps I (logging_log l msg).
Proof.
  intros w HI. split; [exact HI|]. exists []. split; [symmetry; apply app_nil_r|].
  constructor.
Qed.

Lemma keeps_syscall {A} (c : call) (cls : errno → exn)
    (body : gmap string inode → exn + (A * gmap string inode)) :
  (∀ m a m', I m → body m = inr (a, m') → I m') →
  keeps I (syscall c cls body).
Proof.
  intros Hbody w HI. unfold syscall.
  destruct (head (faults w)) as [[e|]|].
  - split; [exact HI|]. eexists [_]. split; [reflexivity|].
    constructor; [exact HI | constructor].
  - destruct (body (fs w)) as [x|[a m]] eqn:Eb.
    + split; [exact HI|]. eexists [_]. split; [reflexivity|].
      constructor; [exact HI | constructor].
    + pose proof (Hbody _ _ _ HI Eb) as Hm.
      split; [exact Hm|]. eexists [_]. split; [reflexivity|].
      constructor; [exact Hm | constructor].
  - destruct (body (fs w)) as [x|[a m]] eqn:Eb.
    + split; [exact HI|]. eexists [_]. split; [reflexivity|].
      constructor; [exact HI | constructor].
    + pose proof (Hbody _ _ _ HI Eb) as Hm.
      split; [exact Hm|]. eexists [_]. split; [reflexivity|].
      constructor; [exact Hm | constructor].
Qed.

Lemma keeps_for_each {A} (xs : list A) (body : A → M unit) :
  (∀ x, keeps I (body x)) → keeps I (for_each xs body).
Proof.
  intros Hb. induction xs as [|x xs IH]; cbn [for_each].
  - apply keeps_ret.
  - apply keeps_bind; [apply Hb | intros _; exact IH].
Qed.

Lemma wp_keeps {A} (m : M A) (Q : outcome A → world → Prop) (w : world) :
  keeps I m → I (fs w) →
  (∀ r w' evs, I (fs w') → trace w' = (trace w ++ evs)%list →
               Forall (fun ev => I (ev_fs ev)) evs → Q r w') →
  wp m Q w.
Proof.
  intros Hk HI HQ. destruct (Hk w HI) as (H1 & evs & Ht & Hall).
  exact (HQ _ _ evs H1 Ht Hall).
Qed.

End Keeps.

(** The calls on the path [n] leave what is at another path. *)
Ltac keeps_other Hne :=
  let m := fresh "m" in let a := fresh "a" in let m' := fresh "m'" in
  let HI := fresh "HI" in let Hb := fresh "Hb" in let E := fresh "E" in
  intros m a m' HI Hb; revert Hb; unfold chmod_in, chown_in;
  destruct (m !! _) as [[[] ? ? ? ?]|] eqn:E; intros Hb; inversion Hb; subst;
  hnf; hnf in HI; rewrite ?lookup_insert_ne by exact Hne; exact HI.

(** X18.  The keys file is replaced in one step.  Whatever fails on the
    way, the path holds what it held before at every call but the last,
    which, when it is reached and goes through, is the rename of the
    temporary file over the path; when the call raises, the path still
    holds what it held. *)
Theorem WriteAuthorizedSshKeysFile_atomic (path : string) (ssh_keys : list string)
    (uid gid : Z) (w : world) :
  path ∉ tmpnames w →
  (∃ evs last,
     events_of (WriteAuthorizedSshKeysFile path ssh_keys uid gid) w
     = (evs ++ last)%list ∧
     Forall (fun ev => ev_fs ev !! path = fs w !! path) evs ∧
     (last = [] ∨
      ∃ src m, last = [Event (rename_c src path) None m] ∧
               (WriteAuthorizedSshKeysFile path ssh_keys uid gid w).1 = Done tt)) ∧
  (∀ e, (WriteAuthorizedSshKeysFile path ssh_keys uid gid w).1 = Raised e →
        fs (WriteAuthorizedSshKeysFile path ssh_keys uid gid w).2 !! path
        = fs w !! path).
Proof.
  intros Hpath.
  set (I := fun m : gmap string inode => m !! path = fs w !! path).
  assert (H : wp (WriteAuthorizedSshKeysFile path ssh_keys uid gid)
                (fun r w' =>
                   (∃ evs last,
                      trace w' = (trace w ++ evs ++ last)%list ∧
                      Forall (fun ev => I (ev_fs ev)) evs ∧
                      (last = [] ∨
                       ∃ src m, last = [Event (rename_c src path) None m] ∧
                                r = Done tt)) ∧
                   (∀ e, r = Raised e → I (fs w'))) w).
  { unfold WriteAuthorizedSshKeysFile.
    apply wp_bind. unfold with_file at 1, CreateTempFile.
    apply wp_bind, wp_bind, wp_mkstemp.
    { intros w1 x M1 _ _. split.
      - eexists [_], []. split; [rewrite (moved_trace _ _ _ _ M1); reflexivity|].
        split; [|left; reflexivity]. constructor; [reflexivity | constructor].
      - intros e _. unfold I. rewrite (moved_fs _ _ _ _ M1). reflexivity. }
    intros w1 n Hn Hfree M1.
    assert (Hne : n ≠ path).
    { intros ->. apply Hpath. exact (proj1 (first_free_elem _ _ _ Hfree)). }
    assert (I1 : I (fs w1)).
    { unfold I. rewrite (moved_fs _ _ _ _ M1). apply lookup_insert_ne, Hne. }
    apply wp_ret. cbn [snd].
    apply (wp_keeps I); [|exact I1|].
    { apply keeps_try_finally; [|apply keeps_probe].
      apply keeps_bind; [apply keeps_probe|]. intros found.
      apply keeps_bind.
      { destruct found; [|apply keeps_ret].
        unfold with_file, OpenFile_r, open_r, file_seek, file_readlines.
        apply keeps_bind.
        { apply keeps_syscall. intros m a m' HI Hb.
          assert (m' = m) as ->; [|exact HI].
          destruct (m !! path) as [[[] ? ? ? ?]|]; inversion Hb; reflexivity. }
        intros f.
        apply keeps_try_finally; [|apply keeps_probe].
        apply keeps_bind; [apply keeps_ret|]. intros _.
        apply keeps_syscall.
        intros m a m' HI Hb. destruct (m !! f); inversion Hb; subst. exact HI. }
      intros lines.
      apply keeps_bind; [apply keeps_syscall; keeps_other Hne|]. intros _.
      apply keeps_bind.
      { unfold os_fchown.
        destruct (id_arg uid) as [u|]; [destruct (id_arg gid) as [g|]|];
          try apply keeps_refused.
        apply keeps_syscall. keeps_other Hne. }
      intros _.
      apply keeps_bind.
      { apply keeps_for_each. intros l. apply keeps_syscall. keeps_other Hne. }
      intros _. apply keeps_bind; [|intros _; apply keeps_ret].
      apply keeps_for_each. intros k.
      apply keeps_bind; [apply keeps_syscall; keeps_other Hne|]. intros _.
      apply keeps_syscall. keeps_other Hne. }
    intros r w2 evs I2 Ht2 Hall2.
    assert (Ht : trace w2
                 = (trace w ++ Event mkstemp_c None (<[n := tmp_inode]> (fs w)) :: evs)%list).
    { rewrite Ht2, (moved_trace _ _ _ _ M1), <- app_assoc. reflexivity. }
    assert (Hall : Forall (fun ev => I (ev_fs ev))
                     (Event mkstemp_c None (<[n := tmp_inode]> (fs w)) :: evs)).
    { constructor; [|exact Hall2]. unfold I. cbn [ev_fs].
      apply lookup_insert_ne, Hne. }
    destruct r as [src|e].
    2: { split; [|intros _ _; exact I2].
         eexists _, []. split; [rewrite app_nil_r; exact Ht|].
         split; [exact Hall | left; reflexivity]. }
    unfold MoveFile. apply wp_syscall.
    - intros w3 e _ H3. split; [|intros _ _; rewrite (after_fs _ _ _ _ _ H3); exact I2].
      eexists (_ ++ [_])%list, []. split.
      + rewrite (after_trace _ _ _ _ _ H3), Ht, app_nil_r, <- app_assoc. reflexivity.
      + split; [|left; reflexivity]. apply Forall_app. split; [exact Hall|].
        constructor; [exact I2 | constructor].
    - intros w3 x _ H3. split; [|intros _ _; rewrite (after_fs _ _ _ _ _ H3); exact I2].
      eexists (_ ++ [_])%list, []. split.
      + rewrite (after_trace _ _ _ _ _ H3), Ht, app_nil_r, <- app_assoc. reflexivity.
      + split; [|left; reflexivity]. apply Forall_app. split; [exact Hall|].
        constructor; [exact I2 | constructor].
    - intros w3 [] m _ H3. split; [|discriminate].
      eexists _, [_]. split.
      + rewrite (after_trace _ _ _ _ _ H3), Ht, <- app_assoc. reflexivity.
      + split; [exact Hall|]. right. eauto. }
  unfold wp in H. destruct H as [(evs & last & Ht & Hall & Hlast) Hraise].
  split; [|exact Hraise].
  exists evs, last. unfold events_of. rewrite Ht, drop_app_length.
  repeat split; assumption.
Qed.

Lemma WriteAuthorizedSshKeysFile_atomic_witness :
  let run := WriteAuthorizedSshKeysFile demo_keys_path ["ssh-rsa K"] 1000 1000 in
  (∃ evs last,
     events_of run demo_keys_world = (evs ++ last)%list ∧
     Forall (fun ev => ev_fs ev !! demo_keys_path = fs demo_keys_world !! demo_keys_path)
            evs ∧
     (last = [] ∨
      ∃ src m, last = [Event (rename_c src demo_keys_path) None m] ∧
               (run demo_keys_world).1 = Done tt)) ∧
  (∀ e, (run demo_keys_world).1 = Raised e →
        fs (run demo_keys_world).2 !! demo_keys_path
        = fs demo_keys_world !! demo_keys_path).
Proof.
  cbv zeta. apply WriteAuthorizedSshKeysFile_atomic.
  apply (bool_decide_unpack (demo_keys_path ∉ tmpnames demo_keys_world)).
  vm_compute. exact I.
Defined.

(** ** The keys file, created and rewritten *)

Lemma WriteAuthorizedSshKeysFile_create_run (path : string) (ssh_keys : list string)
    (uid gid : Z) (w : world) (n : string) :
  faults w = [] →
  is_id uid = true → is_id gid = true →
  fs w !! path = None →
  path ∉ tmpnames w →
  (first_free (fs w) (tmpnames w)).1 = Some n →
  wp (WriteAuthorizedSshKeysFile path ssh_keys uid gid)
     (fun r w' =>
        r = Done tt ∧ faults w' = [] ∧ passwd w' = passwd w ∧
        fs w' = <[path := Inode S_IFREG (Py.join (managed_pairs ssh_keys))
                                (octal 6 0 0) uid gid]> (fs w))
     w.
Proof.
  intros Hff Huid Hgid Hnone Hpath Hfree.
  destruct (first_free_elem _ _ _ Hfree) as [Hin Hn].
  assert (Hne : n ≠ path) by (intros ->; contradiction).
  pose proof (settled_start w Hff) as S0.
  unfold WriteAuthorizedSshKeysFile.
  apply wp_bind. unfold with_file at 1, CreateTempFile.
  apply wp_bind, wp_bind. apply (wp_mkstemp_run _ w w _ n S0 Hfree).
  intros w1 S1. set (w0' := set_tmpnames _ w) in S1.
  assert (Hpw0 : passwd w0' = passwd w) by reflexivity. clearbody w0'.
  apply wp_ret. cbn [snd]. apply wp_try_finally, wp_bind.
  unfold os_path_exists. apply (wp_probe_run _ _ _ w0' w1 _ S1). intros w2 S2.
  rewrite (proj1 S1), lookup_insert_ne, Hnone by exact Hne.
  rewrite bool_decide_eq_false_2 by (intros [x Hx]; discriminate Hx).
  apply wp_bind, wp_ret.
  change (user_lines []) with (@nil string).
  apply wp_bind. unfold os_fchmod.
  eapply (wp_syscall_run _ _ _ _ w0' w2 _ tt _ S2).
  { unfold chmod_in. rewrite lookup_insert_eq. reflexivity. }
  intros w3 S3. rewrite insert_insert_eq in S3.
  apply wp_bind. rewrite (os_fchown_id n uid gid Huid Hgid).
  eapply (wp_syscall_run _ _ _ _ w0' w3 _ tt _ S3).
  { unfold chown_in. rewrite lookup_insert_eq. reflexivity. }
  intros w4 S4. rewrite insert_insert_eq in S4.
  apply wp_bind. cbn [for_each]. apply wp_ret.
  apply wp_bind.
  apply (wp_ext _ (file_writelines n (managed_pairs ssh_keys)));
    [apply (for_each_pairs (fun _ => GOOGLE_MARKER +:+ Py.NL) EnsureTrailingNewline)|].
  eapply (wp_writelines_run n _ _ w0' w4 _ S_IFREG "" (octal 6 0 0) uid gid S4).
  { apply lookup_insert_eq. }
  intros w5 S5. rewrite insert_insert_eq in S5.
  change ("" +:+ Py.join (managed_pairs ssh_keys))
    with (Py.join (managed_pairs ssh_keys)) in S5.
  apply wp_ret. unfold file_close.
  apply (wp_probe_run _ _ _ w0' w5 _ S5). intros w6 S6.
  unfold MoveFile.
  eapply (wp_syscall_run _ _ _ _ w0' w6 _ tt _ S6).
  { rewrite lookup_insert_eq. unfold is_dir.
    rewrite lookup_insert_ne, Hnone by exact Hne. reflexivity. }
  intros w7 (F7 & Hff7 & _ & Hpw7 & _). split; [reflexivity|]. split; [exact Hff7|].
  split; [congruence|].
  rewrite F7, delete_insert_eq, (delete_id _ _ Hn). reflexivity.
Qed.

(** X19.  Where there is no keys file yet and nothing fails, the call
    creates it, for a uid and a gid the system accepts: a regular file
    of mode 0600 that belongs to the user and holds one managed pair per
    key, in the order of the keys.  Nothing else changes; the temporary
    file is gone. *)
Theorem WriteAuthorizedSshKeysFile_creates (path : string) (ssh_keys : list string)
    (uid gid : Z) (w : world) (n : string) :
  faults w = [] →
  is_id uid = true → is_id gid = true →
  fs w !! path = None →
  path ∉ tmpnames w →
  (first_free (fs w) (tmpnames w)).1 = Some n →
  (WriteAuthorizedSshKeysFile path ssh_keys uid gid w).1 = Done tt ∧
  fs (WriteAuthorizedSshKeysFile path ssh_keys uid gid w).2
  = <[path := Inode S_IFREG (Py.join (managed_pairs ssh_keys)) (octal 6 0 0) uid gid]>
      (fs w) ∧
  (forallb no_LF ssh_keys = true →
   Py.readlines (Py.join (managed_pairs ssh_keys)) = managed_pairs ssh_keys).
Proof.
  intros Hff Huid Hgid Hnone Hpath Hfree.
  destruct (WriteAuthorizedSshKeysFile_create_run path ssh_keys uid gid w n
              Hff Huid Hgid Hnone Hpath Hfree) as (Hdone & _ & _ & Hfs).
  split; [exact Hdone|]. split; [exact Hfs|].
  intros Hk. apply readlines_join, managed_pairs_terminated, Hk.
Qed.

Lemma WriteAuthorizedSshKeysFile_creates_witness :
  let keys := ["ssh-rsa K1 alice@cloud"; "ssh-rsa K2 alice@cloud"] in
  (WriteAuthorizedSshKeysFile demo_keys_path keys 1000 1000 demo_world).1 = Done tt ∧
  fs (WriteAuthorizedSshKeysFile demo_keys_path keys 1000 1000 demo_world).2
  = <[demo_keys_path := Inode S_IFREG (Py.join (managed_pairs keys))
                              (octal 6 0 0) 1000 1000]> (fs demo_world) ∧
  (forallb no_LF keys = true →
   Py.readlines (Py.join (managed_pairs keys)) = managed_pairs keys).
Proof.
  cbv zeta. apply (WriteAuthorizedSshKeysFile_creates demo_keys_path _ 1000 1000
                     demo_world "/tmp/tmpA").
  - reflexivity.
  - reflexivity.
  - reflexivity.
  - vm_compute. reflexivity.
  - apply (bool_decide_unpack (demo_keys_path ∉ tmpnames demo_world)).
    vm_compute. exact I.
  - vm_compute. reflexivity.
Defined.





(** ** Directories *)

Lemma length_app_str (a b : string) :
  String.length (a +:+ b) = String.length a + String.length b.
Proof.
  induction a as [|c a IH]; [reflexivity|].
  change (String c a +:+ b) with (String c (a +:+ b)). cbn [String.length].
  rewrite IH. reflexivity.
Qed.

Lemma is_prefix_of_length (d s : string) :
  is_prefix_of d s →
  (String.length d ≤ String.length s)%nat ∧ (String.length d = String.length s → d = s).
Proof.
  intros [rest ->]. rewrite length_app_str. split; [lia|].
  intros H. destruct rest as [|c rest]; [symmetry; apply str_app_nil_r|].
  cbn [String.length] in H. lia.
Qed.

Lemma is_prefix_of_trans (a b c : string) :
  is_prefix_of a b → is_prefix_of b c → is_prefix_of a c.
Proof.
  intros [r1 ->] [r2 ->]. exists (r1 +:+ r2). apply str_app_assoc.
Qed.

Lemma upto_last_slash_prefix (p : string) : is_prefix_of (upto_last_slash p) p.
Proof.
  induction p as [|c p IH]; [exists ""; reflexivity|].
  cbn [upto_last_slash]. destruct IH as [rest Hrest].
  destruct (upto_last_slash p) as [|h0 h] eqn:Eh.
  - destruct (Ascii.eqb_spec c "/") as [->|_].
    + exists p. reflexivity.
    + exists (String c p). reflexivity.
  - exists rest. rewrite Hrest at 1. reflexivity.
Qed.

Lemma rstrip_slash_prefix (s : string) : is_prefix_of (rstrip_slash s) s.
Proof.
  induction s as [|c s IH]; [exists ""; reflexivity|].
  cbn [rstrip_slash]. destruct IH as [rest Hrest].
  destruct (rstrip_slash s) as [|r0 r] eqn:Er.
  - destruct (Ascii.eqb c "/").
    + exists (String c s). reflexivity.
    + exists s. reflexivity.
  - exists rest. rewrite Hrest at 1. reflexivity.
Qed.

Lemma dirname_prefix (p : string) : is_prefix_of (os_path_dirname p) p.
Proof.
  unfold os_path_dirname.
  destruct (Py.truthy_str (upto_last_slash p) &&
            Py.truthy_str (rstrip_slash (upto_last_slash p))).
  - exact (is_prefix_of_trans _ _ _ (rstrip_slash_prefix _) (upto_last_slash_prefix p)).
  - apply upto_last_slash_prefix.
Qed.

Lemma dirname_shorter (p : string) :
  os_path_dirname p ≠ p → (String.length (os_path_dirname p) < String.length p)%nat.
Proof.
  intros Hne. destruct (is_prefix_of_length _ _ (dirname_prefix p)) as [Hle Heq].
  destruct (decide (String.length (os_path_dirname p) = String.length p)) as [E|E].
  - destruct (Hne (Heq E)).
  - lia.
Qed.

Lemma bind_ext {A B} (m m' : M A) (k : A → M B) (w : world) :
  m w = m' w → bind m k w = bind m' k w.
Proof. unfold bind. intros ->. reflexivity. Qed.

Lemma bind_ext_k {A B} (m : M A) (k k' : A → M B) (w : world) :
  (∀ a w', k a w' = k' a w') → bind m k w = bind m k' w.
Proof. intros H. unfold bind. destruct (m w) as [[a|e] w']; [apply H | reflexivity]. Qed.

Lemma EnsureDir_within_S (depth : nat) (dir_path : string) (uid gid : Z) (w : world) :
  (String.length dir_path ≤ depth)%nat →
  EnsureDir_within (S depth) dir_path uid gid w
  = EnsureDir_within depth dir_path uid gid w.
Proof.
  revert dir_path w. induction depth as [|depth IH]; intros dir_path w Hlen.
  - destruct dir_path as [|c s]; [reflexivity | cbn in Hlen; lia].
  - change (EnsureDir_within (S (S depth)) dir_path uid gid w)
      with ((isdir <- os_path_isdir dir_path ;;
             if isdir then ret true
             else
             parent_ok <-
               (if negb (String.eqb (os_path_dirname dir_path) dir_path)
                then EnsureDir_within (S depth) (os_path_dirname dir_path) uid gid
                else ret true) ;;
             if negb parent_ok then ret false
             else
             try_except
               (os_mkdir dir_path (octal 7 5 5) ;;;
                os_chown dir_path uid gid ;;;
                ret true)
               is_OSError
               (fun e =>
                  isdir <- os_path_isdir dir_path ;;
                  if isdir then ret true
                  else
                    logging_error ("Could not create " +:+ dir_path +:+
                                   " because " +:+ str_exn e) ;;;
                    ret false)) w).
    change (EnsureDir_within (S depth) dir_path uid gid w)
      with ((isdir <- os_path_isdir dir_path ;;
             if isdir then ret true
             else
             parent_ok <-
               (if negb (String.eqb (os_path_dirname dir_path) dir_path)
                then EnsureDir_within depth (os_path_dirname dir_path) uid gid
                else ret true) ;;
             if negb parent_ok then ret false
             else
             try_except
               (os_mkdir dir_path (octal 7 5 5) ;;;
                os_chown dir_path uid gid ;;;
                ret true)
               is_OSError
               (fun e =>
                  isdir <- os_path_isdir dir_path ;;
                  if isdir then ret true
                  else
                    logging_error ("Could not create " +:+ dir_path +:+
                                   " because " +:+ str_exn e) ;;;
                    ret false)) w).
    apply bind_ext_k. intros isdir w1. destruct isdir; [reflexivity|].
    apply bind_ext.
    destruct (String.eqb_spec (os_path_dirname dir_path) dir_path) as [E|E];
      cbn [negb]; [reflexivity|].
    apply IH. pose proof (dirname_shorter _ E). lia.
Qed.

Lemma EnsureDir_within_enough (depth : nat) (dir_path : string) (uid gid : Z)
    (w : world) :
  (String.length dir_path ≤ depth)%nat →
  EnsureDir_within depth dir_path uid gid w = EnsureDir dir_path uid gid w.
Proof.
  unfold EnsureDir. induction depth as [|depth IH]; intros Hlen.
  - assert (String.length dir_path = 0) as -> by lia. reflexivity.
  - destruct (decide (String.length dir_path = S depth)) as [->|Hne]; [reflexivity|].
    rewrite EnsureDir_within_S by lia. apply IH. lia.
Qed.

(** X21.  [EnsureDir] ends on its own: the parent it calls itself on is
    a strictly shorter path, so the nested calls are at most as many as
    the path has characters, and allowing more changes nothing. *)
Theorem EnsureDir_terminates (dir_path : string) (uid gid : Z) (w : world) :
  (os_path_dirname dir_path ≠ dir_path →
   (String.length (os_path_dirname dir_path) < String.length dir_path)%nat) ∧
  (∀ depth, (String.length dir_path ≤ depth)%nat →
            EnsureDir_within depth dir_path uid gid w = EnsureDir dir_path uid gid w).
Proof.
  split; [apply dirname_shorter|].
  intros depth Hlen. apply EnsureDir_within_enough, Hlen.
Qed.


Section EnsureDirOutcome.

Variable dir_path : string.
Variables uid gid : Z.
Variable w0 : world.

(** What [EnsureDir] promises, whatever fails: an answer, with the
    directory in place when the answer is [True], or an [OverflowError]
    for a uid or a gid that the system refuses; and every file that was
    there still there, as it was. *)
Local Abbreviation ensured :=
  (fun (r : outcome bool) (w' : world) =>
     ((∃ b, r = Done b ∧ (b = true → is_dir (fs w') dir_path = true)) ∨
      (r = Raised OverflowError ∧ (id_arg uid = None ∨ id_arg gid = None))) ∧
     fs w0 ⊆ fs w').



End EnsureDirOutcome.




Lemma wp_EnsureDir_there (depth : nat) (dir_path : string) (uid gid : Z)
    (Q : outcome bool → world → Prop) (w0 w : world) (m : gmap string inode) :
  settled w0 w m →
  is_dir m dir_path = true →
  (∀ w', settled w0 w' m → Q (Done true) w') →
  wp (EnsureDir_within depth dir_path uid gid) Q w.
Proof.
  intros S Hdir HQ.
  assert (Hstep : wp (isdir <- os_path_isdir dir_path ;;
                      if isdir then ret true else ret false)
                     (fun r w' => r = Done true ∧ settled w0 w' m) w).
  { apply wp_bind. unfold os_path_isdir. apply (wp_probe_run _ _ _ w0 w m S).
    intros w1 S1. rewrite (proj1 S), Hdir. apply wp_ret. split; [reflexivity | exact S1]. }
  unfold wp in *. destruct depth; cbn [EnsureDir_within];
    unfold bind, os_path_isdir, probe in *; rewrite (proj1 S), Hdir in *;
    cbn [fst snd] in *; destruct Hstep as [_ S1]; apply HQ, S1.
Qed.

Lemma wp_EnsureDir_make (depth : nat) (dir_path : string) (uid gid : Z)
    (Q : outcome bool → world → Prop) (w0 w : world) (m : gmap string inode) :
  settled w0 w m →
  is_id uid = true → is_id gid = true →
  m !! dir_path = None →
  is_dir m (os_path_dirname dir_path) = true →
  (∀ w', settled w0 w' (<[dir_path := Inode S_IFDIR "" (octal 7 5 5) uid gid]> m) →
         Q (Done true) w') →
  wp (EnsureDir_within (S depth) dir_path uid gid) Q w.
Proof.
  intros S Huid Hgid Hnone Hparent HQ. cbn [EnsureDir_within].
  apply wp_bind. unfold os_path_isdir at 1. apply (wp_probe_run _ _ _ w0 w m S).
  intros w1 S1. rewrite (proj1 S). unfold is_dir at 1. rewrite Hnone.
  apply wp_bind.
  apply (wp_mono _ (fun r w' => r = Done true ∧ settled w0 w' m)).
  { destruct (negb (String.eqb (os_path_dirname dir_path) dir_path)).
    - apply (wp_EnsureDir_there _ _ _ _ _ w0 w1 m S1 Hparent). intros w2 S2.
      split; [reflexivity | exact S2].
    - apply wp_ret. split; [reflexivity | exact S1]. }
  intros r w2 [-> S2]. cbn [negb].
  apply wp_try_except, wp_bind. unfold os_mkdir.
  eapply (wp_syscall_run _ _ _ _ w0 w2 m tt _ S2).
  { rewrite Hnone, Hparent. reflexivity. }
  intros w3 S3. apply wp_bind. rewrite (os_chown_id _ _ _ Huid Hgid).
  eapply (wp_syscall_run _ _ _ _ w0 w3 _ tt _ S3).
  { unfold chown_in. rewrite lookup_insert_eq. reflexivity. }
  intros w4 S4. rewrite insert_insert_eq in S4. apply wp_ret, HQ, S4.
Qed.

Lemma dirname_ne_length (p : string) :
  os_path_dirname p ≠ p → ∃ d, String.length p = S d.
Proof.
  intros H. destruct p as [|c p]; [destruct H; reflexivity|].
  exists (String.length p). reflexivity.
Qed.

(** X23.  Creating one directory, when nothing fails: the path is free,
    its parent is a directory, and the uid and the gid are ids the system
    accepts.  [EnsureDir] answers [True] and the only change is the new
    directory, of mode 0755 and owned by the given user and group. *)
Theorem EnsureDir_creates (dir_path : string) (uid gid : Z) (w : world) :
  faults w = [] →
  is_id uid = true → is_id gid = true →
  fs w !! dir_path = None →
  is_dir (fs w) (os_path_dirname dir_path) = true →
  (EnsureDir dir_path uid gid w).1 = Done true ∧
  fs (EnsureDir dir_path uid gid w).2
  = <[dir_path := Inode S_IFDIR "" (octal 7 5 5) uid gid]> (fs w).
Proof.
  intros Hff Huid Hgid Hnone Hparent.
  assert (Hne : os_path_dirname dir_path ≠ dir_path).
  { intros E. rewrite E in Hparent. unfold is_dir in Hparent.
    rewrite Hnone in Hparent. discriminate. }
  destruct (dirname_ne_length _ Hne) as [d Hd].
  unfold EnsureDir. rewrite Hd.
  apply (wp_EnsureDir_make d dir_path uid gid
           (fun r w' => r = Done true ∧
                        fs w' = <[dir_path := Inode S_IFDIR "" (octal 7 5 5) uid gid]>
                                  (fs w))
           w w (fs w) (settled_start w Hff) Huid Hgid Hnone Hparent).
  intros w' S'. split; [reflexivity | exact (proj1 S')].
Qed.

Lemma EnsureDir_creates_witness :
  (EnsureDir "/home" 0 0 demo_world).1 = Done true ∧
  fs (EnsureDir "/home" 0 0 demo_world).2
  = <["/home" := Inode S_IFDIR "" (octal 7 5 5) 0 0]> (fs demo_world).
Proof.
  apply EnsureDir_creates; vm_compute; reflexivity.
Defined.



(** ** Granting twice *)

(** For a name without a dot the membership test is the literal one: a
    file none of whose lines begins with the name and a white space
    holds no entry for it. *)
Lemma no_entry_without_prefix (user : string) (lines : list string) :
  IsValidUsername user = true →
  str_forall (fun a => negb (Ascii.eqb a ".")) user = true →
  (∀ line, In line lines → ¬ begins_with_user user line) →
  IsUserSudoerInLines user lines = [].
Proof.
  intros Hv Hdot Hno.
  destruct (IsUserSudoerInLines user lines) as [|l ls] eqn:E; [reflexivity|].
  exfalso.
  destruct (proj1 (IsUserSudoerInLines_nodot user lines Hv Hdot)) as (line & Hin & Hb).
  { rewrite E. reflexivity. }
  exact (Hno line Hin Hb).
Qed.

(** Two calls in a row on a file without an entry for the user, with the
    lock free and a checker that accepts: the first call writes the
    candidate, the second finds the entry and changes nothing. *)
Lemma MakeUserSudoer_twice_grant_run (system : system_module) (user : string)
    (w : world) (d0 : string) (mode uid gid : Z) (n : string) :
  IsValidUsername user = true →
  faults w = [] →
  fs w !! SUDOERS = Some (Inode S_IFREG d0 mode uid gid) →
  IsUserSudoerInLines user (Py.readlines d0) = [] →
  fs w !! SUDOERS_TMP = None →
  SUDOERS_TMP ∉ tmpnames w →
  (first_free (fs w) (tmpnames w)).1 = Some n →
  visudo_ok system (candidate user d0) = true →
  (MakeUserSudoer system user w).1 = Done tt ∧
  fs (MakeUserSudoer system user w).2
  = <[SUDOERS := Inode S_IFREG (candidate user d0) (octal 4 4 0) uid gid]> (fs w) ∧
  (MakeUserSudoer system user (MakeUserSudoer system user w).2).1 = Done tt ∧
  fs (twice system user w) = fs (MakeUserSudoer system user w).2.
Proof.
  intros Hv Hff Hs Hmem Hnone Htmp Hfree Hok.
  destruct (MakeUserSudoer_grant_run system user w d0 mode uid gid n
              Hff Hs Hmem Hnone Htmp Hfree Hok) as (Hdone & Hff1 & _ & _ & Hfs).
  unfold twice. set (w1 := (MakeUserSudoer system user w).2) in *.
  assert (Hs1 : fs w1 !! SUDOERS
                = Some (Inode S_IFREG (candidate user d0) (octal 4 4 0) uid gid)).
  { rewrite Hfs. apply lookup_insert_eq. }
  pose proof (candidate_has_entry user d0 (valid_username_no_LF _ Hv)) as Hfound.
  rewrite (MakeUserSudoer_found_run system user w1 _ _ _ _ Hff1 Hs1 Hfound).
  cbn [fst snd fs]. repeat split; assumption.
Qed.

(** C4, as the claim states it for every initial file, fails: the editor
    never takes a line away, so a file that already grants the user
    twice still does after two calls. *)
Lemma MakeUserSudoer_twice_keeps_duplicates :
  content_at SUDOERS (fs (twice demo_system "alice" doubled_world))
  = Some (rule_line "alice" +:+ Py.NL +:+ rule_line "alice" +:+ Py.NL) ∧
  count_rule_lines "alice" (rule_line "alice" +:+ Py.NL +:+ rule_line "alice" +:+ Py.NL)
  = 2.
Proof. split; vm_compute; reflexivity. Qed.

(** C4, amended.  For a valid name and a run that meets no injected
    fault, two calls in a row leave the sudoers file either as it was
    or, when it held no entry for the user and the checker accepted the
    candidate, with its lines followed by the rule line of the user, and
    then exactly one line of the file is that rule line.  Once the test
    finds an entry, a call leaves the file as it is: the second call
    never adds a second rule line.  And the grant does happen: where the
    file is a regular file without an entry for the user, nobody holds
    the lock, a temporary name is free and the checker accepts, both
    calls end normally, the first leaves the old content, its last line
    ended, followed by the rule line of the user, the second changes
    nothing, and exactly one line of the file is the rule line; no other
    file has changed.  For a name without a dot, a file has no entry
    when none of its lines begins with the name and a white space. *)
Theorem MakeUserSudoer_twice (system : system_module) (user : string) (w : world) :
  IsValidUsername user = true →
  faults w = [] →
  let c0 := content_at SUDOERS (fs w) in
  let c1 := content_at SUDOERS (fs (MakeUserSudoer system user w).2) in
  let c2 := content_at SUDOERS (fs (twice system user w)) in
  (c2 = c0 ∨
   ∃ d0, c0 = Some d0 ∧
         IsUserSudoerInLines user (Py.readlines d0) = [] ∧
         visudo_ok system (candidate user d0) = true ∧
         c2 = Some (candidate user d0) ∧
         count_rule_lines user (candidate user d0) = 1) ∧
  (∀ d1, c1 = Some d1 →
         Py.truthy (IsUserSudoerInLines user (Py.readlines d1)) = true →
         c2 = c1) ∧
  (∀ d0 mode uid gid n,
     fs w !! SUDOERS = Some (Inode S_IFREG d0 mode uid gid) →
     IsUserSudoerInLines user (Py.readlines d0) = [] →
     fs w !! SUDOERS_TMP = None →
     SUDOERS_TMP ∉ tmpnames w →
     (first_free (fs w) (tmpnames w)).1 = Some n →
     visudo_ok system (candidate user d0) = true →
     let granted := with_final_newline d0 +:+ rule_line user +:+ Py.NL in
     (MakeUserSudoer system user w).1 = Done tt ∧
     (MakeUserSudoer system user (MakeUserSudoer system user w).2).1 = Done tt ∧
     c1 = Some granted ∧
     c2 = Some granted ∧
     fs (twice system user w)
     = <[SUDOERS := Inode S_IFREG granted (octal 4 4 0) uid gid]> (fs w) ∧
     count_rule_lines user granted = 1) ∧
  (str_forall (fun a => negb (Ascii.eqb a ".")) user = true →
   ∀ lines, (∀ line, In line lines → ¬ begins_with_user user line) →
            IsUserSudoerInLines user lines = []).
Proof.
  intros Hvalid Hff. cbv zeta.
  pose proof (valid_username_no_LF _ Hvalid) as Hlf.
  split; [|split; [|split]].
  - unfold twice.
    destruct (MakeUserSudoer_fault_free_run system user w Hff)
      as (_ & Hff1 & _ & H1).
    set (w1 := (MakeUserSudoer system user w).2) in *.
    destruct (MakeUserSudoer_fault_free_run system user w1 Hff1)
      as (_ & _ & _ & H2).
    set (w2 := (MakeUserSudoer system user w1).2) in *.
    destruct H1 as [E1|(d0 & E0 & Hmem & Hv & E1)].
    + rewrite E1 in H2. destruct H2 as [E2|(d0 & E0 & Hmem & Hv & E2)].
      * left. exact E2.
      * right. exists d0. repeat split; try assumption.
        -- apply truthy_false_nil, Hmem.
        -- apply candidate_one_rule; [exact Hlf | apply truthy_false_nil, Hmem].
    + right. exists d0.
      assert (E2 : content_at SUDOERS (fs w2) = Some (candidate user d0)).
      { destruct H2 as [E2|(d1 & Ed1 & Hmem1 & _)].
        - rewrite E2. exact E1.
        - exfalso. rewrite E1 in Ed1. inversion Ed1; subst d1.
          rewrite (candidate_has_entry _ _ Hlf) in Hmem1. discriminate. }
      repeat split; try assumption.
      * apply truthy_false_nil, Hmem.
      * apply candidate_one_rule; [exact Hlf | apply truthy_false_nil, Hmem].
  - unfold twice.
    destruct (MakeUserSudoer_fault_free_run system user w Hff)
      as (_ & Hff1 & _ & _).
    set (w1 := (MakeUserSudoer system user w).2) in *.
    destruct (MakeUserSudoer_fault_free_run system user w1 Hff1)
      as (_ & _ & _ & H2).
    intros d1 Ed1 Hfound.
    destruct H2 as [E2|(d1' & Ed1' & Hmem1 & _)]; [exact E2|].
    exfalso. rewrite Ed1 in Ed1'. inversion Ed1'; subst d1'.
    rewrite Hfound in Hmem1. discriminate.
  - intros d0 mode uid gid n Hs Hmem Hnone Htmp Hfree Hok.
    destruct (MakeUserSudoer_twice_grant_run system user w d0 mode uid gid n
                Hvalid Hff Hs Hmem Hnone Htmp Hfree Hok)
      as (Hd1 & Hfs1 & Hd2 & Hfs2).
    rewrite <- candidate_eq.
    split; [exact Hd1|]. split; [exact Hd2|].
    assert (E1 : content_at SUDOERS (fs (MakeUserSudoer system user w).2)
                 = Some (candidate user d0)).
    { unfold content_at. rewrite Hfs1, lookup_insert_eq. reflexivity. }
    split; [exact E1|]. split; [rewrite Hfs2; exact E1|].
    split; [rewrite Hfs2; exact Hfs1|].
    apply candidate_one_rule; [exact Hlf | exact Hmem].
  - intros Hdot lines Hno. exact (no_entry_without_prefix user lines Hvalid Hdot Hno).
Qed.

Lemma MakeUserSudoer_twice_witness :
  let granted := "root ALL=(ALL) ALL" +:+ Py.NL +:+ "alice ALL=NOPASSWD: ALL" +:+ Py.NL in
  (MakeUserSudoer demo_system "alice" demo_world).1 = Done tt ∧
  (MakeUserSudoer demo_system "alice"
     (MakeUserSudoer demo_system "alice" demo_world).2).1 = Done tt ∧
  content_at SUDOERS (fs (MakeUserSudoer demo_system "alice" demo_world).2)
  = Some granted ∧
  content_at SUDOERS (fs (twice demo_system "alice" demo_world)) = Some granted ∧
  fs (twice demo_system "alice" demo_world)
  = <[SUDOERS := Inode S_IFREG granted (octal 4 4 0) 0 0]> (fs demo_world) ∧
  count_rule_lines "alice" granted = 1.
Proof.
  cbv zeta.
  destruct (MakeUserSudoer_twice demo_system "alice" demo_world eq_refl eq_refl)
    as (_ & _ & H & _).
  apply (H ("root ALL=(ALL) ALL" +:+ Py.NL) (octal 4 4 0) 0%Z 0%Z "/tmp/tmpA").
  - reflexivity.
  - reflexivity.
  - reflexivity.
  - apply (bool_decide_unpack (SUDOERS_TMP ∉ tmpnames demo_world)).
    vm_compute. exact I.
  - vm_compute. reflexivity.
  - reflexivity.
Defined.

(** ** The merge of an authorized_keys file *)

Lemma managed_pairs_merged (keys : list string) :
  managed_pairs keys
  = flat_map (fun k => ["# Added by Google" +:+ Py.NL; with_line_feed k]) keys.
Proof.
  unfold managed_pairs. induction keys as [|k keys IH]; [reflexivity|].
  cbn [flat_map]. rewrite IH, ETN_with_line_feed. reflexivity.
Qed.

(** What the code writes is what the merge is to leave. *)
Lemma written_merged (lines keys : list string) :
  (map EnsureTrailingNewline (user_lines lines) ++ managed_pairs keys)%list
  = merged (preserved has_marker_prefix lines) keys.
Proof.
  unfold merged. rewrite user_lines_preserved, managed_pairs_merged. f_equal.
  apply map_ext. intros l. apply ETN_with_line_feed.
Qed.

Lemma preserved_sublist (lines : list string) :
  sublist (preserved has_marker_prefix lines) lines.
Proof. rewrite <- user_lines_preserved, user_lines_scan. apply scan_sublist. Qed.

Lemma preserved_file_lines (es : list entry) :
  forallb entry_ok es = true →
  preserved has_marker_prefix (file_lines es) = unmanaged_lines es.
Proof.
  intros H. rewrite <- user_lines_preserved, user_lines_scan.
  apply scan_file_lines, H.
Qed.

Lemma Forall_of_sublist {A} (P : A → Prop) (l1 l2 : list A) :
  sublist l1 l2 → Forall P l2 → Forall P l1.
Proof.
  induction 1 as [|x l1 l2 _ IH|x l1 l2 _ IH]; intros H.
  - constructor.
  - inversion H; subst. constructor; [assumption | apply IH; assumption].
  - inversion H; subst. apply IH. assumption.
Qed.

(** A line read from a file ends with its line feed, and is written as
    it is, or holds none, and is written with one at its end. *)
Lemma with_line_feed_read (l : string) :
  terminated l ∨ no_LF l = true →
  (terminated l ∧ with_line_feed l = l) ∨
  (no_LF l = true ∧ with_line_feed l = l +:+ Py.NL).
Proof.
  intros [H|H].
  - left. split; [exact H|]. rewrite <- ETN_with_line_feed. apply terminated_ETN, H.
  - right. split; [exact H|]. rewrite <- ETN_with_line_feed. apply no_LF_ETN, H.
Qed.

Lemma merged_length (kept keys : list string) :
  length (merged kept keys) = length kept + 2 * length keys.
Proof.
  unfold merged. rewrite length_app, length_map. f_equal.
  induction keys as [|k keys IH]; [reflexivity|]. cbn [flat_map length app].
  rewrite IH. lia.
Qed.

(** C3, as the claim states it for every file, fails: the scan takes any
    line that begins with the marker text for a marker line.  Here the
    file holds three lines of the user's own, none of them the marker
    line, and no managed pair; after the call two of the three lines are
    gone. *)
Lemma WriteAuthorizedSshKeysFile_loses_lines :
  let run := WriteAuthorizedSshKeysFile demo_keys_path ["ssh-rsa NEW alice@cloud"]
               1000 1000 lookalike_world in
  content_at demo_keys_path (fs lookalike_world) = Some (Py.join lookalike_lines) ∧
  Py.readlines (Py.join lookalike_lines) = lookalike_lines ∧
  forallb (fun l => negb (is_exact_marker l)) lookalike_lines = true ∧
  run.1 = Done tt ∧
  content_at demo_keys_path (fs run.2)
  = Some (Py.join ["ssh-rsa BBBB other@host" +:+ Py.NL;
                   "# Added by Google" +:+ Py.NL;
                   "ssh-rsa NEW alice@cloud" +:+ Py.NL]).
Proof. vm_compute. repeat split; reflexivity. Qed.

(** C3, amended.  For every authorized_keys file, every key list and ids
    that the system accepts, when nothing fails, the file is replaced by
    one that holds the lines the pairing scan keeps, in their order,
    followed by one managed pair per new key, in the order of the keys;
    its mode is 0600 and it belongs to the given user and group (an id
    of -1 leaves the owner of the temporary file).  The scan leaves out
    each line that begins with the marker comment and is not the last
    line, and the line after it.  Where the file is made of lines of the
    user's own and managed pairs, and only marker lines begin with the
    marker comment, the lines kept are the user's lines: no old pair is
    left.  Each line is written with its line feed: a line that had one
    is written as it is, a last line without one gets it. *)
Theorem WriteAuthorizedSshKeysFile_merge (path : string) (ssh_keys : list string)
    (uid gid : Z) (u g : option Z) (w : world) (d : string)
    (mode ouid ogid : Z) (n : string) :
  faults w = [] →
  id_arg uid = Some u → id_arg gid = Some g →
  fs w !! path = Some (Inode S_IFREG d mode ouid ogid) →
  (first_free (fs w) (tmpnames w)).1 = Some n →
  let kept := preserved has_marker_prefix (Py.readlines d) in
  let result := merged kept ssh_keys in
  let run := WriteAuthorizedSshKeysFile path ssh_keys uid gid w in
  run.1 = Done tt ∧
  fs run.2 = <[path := Inode S_IFREG (Py.join result) (octal 6 0 0)
                             (default 0%Z u) (default 0%Z g)]> (fs w) ∧
  sublist kept (Py.readlines d) ∧
  (∀ es, Py.readlines d = file_lines es → forallb entry_ok es = true →
         kept = unmanaged_lines es) ∧
  Forall (fun l => (terminated l ∧ with_line_feed l = l) ∨
                   (no_LF l = true ∧ with_line_feed l = l +:+ Py.NL)) kept ∧
  (forallb no_LF ssh_keys = true → Py.readlines (Py.join result) = result) ∧
  length result = length kept + 2 * length ssh_keys.
Proof.
  intros Hff Huid Hgid Hpath Hfree. cbv zeta.
  destruct (WriteAuthorizedSshKeysFile_run path ssh_keys uid gid u g w d mode ouid ogid n
              Hff Huid Hgid Hpath Hfree) as (Hdone & _ & Hfs).
  rewrite written_merged in Hfs.
  assert (Hkept : Forall (fun l => terminated l ∨ no_LF l = true)
                         (preserved has_marker_prefix (Py.readlines d))).
  { exact (Forall_of_sublist _ _ _ (preserved_sublist _) (readlines_lines d)). }
  split; [exact Hdone|]. split; [exact Hfs|].
  split; [apply preserved_sublist|].
  split; [intros es -> Hok; apply preserved_file_lines, Hok|].
  split; [eapply Forall_impl; [exact Hkept | intros l; apply with_line_feed_read]|].
  split; [|apply merged_length].
  intros Hkeys. rewrite <- written_merged.
  apply readlines_join, Forall_app. split.
  - apply Forall_map. rewrite user_lines_preserved.
    eapply Forall_impl; [exact Hkept|]. intros l Hl. apply ETN_terminated, Hl.
  - apply managed_pairs_terminated, Hkeys.
Qed.

Lemma WriteAuthorizedSshKeysFile_merge_witness :
  let keys := ["ssh-rsa NEW1 alice@cloud"; "ssh-rsa NEW2 alice@cloud"] in
  let kept := preserved has_marker_prefix
                (Py.readlines (Py.join (file_lines demo_entries))) in
  let result := merged kept keys in
  let run := WriteAuthorizedSshKeysFile demo_keys_path keys 1000 1000 demo_keys_world in
  run.1 = Done tt ∧
  fs run.2 = <[demo_keys_path := Inode S_IFREG (Py.join result) (octal 6 0 0)
                                       1000 1000]> (fs demo_keys_world) ∧
  sublist kept (Py.readlines (Py.join (file_lines demo_entries))) ∧
  (∀ es, Py.readlines (Py.join (file_lines demo_entries)) = file_lines es →
         forallb entry_ok es = true → kept = unmanaged_lines es) ∧
  Forall (fun l => (terminated l ∧ with_line_feed l = l) ∨
                   (no_LF l = true ∧ with_line_feed l = l +:+ Py.NL)) kept ∧
  (forallb no_LF keys = true → Py.readlines (Py.join result) = result) ∧
  length result = length kept + 2 * length keys.
Proof.
  cbv zeta.
  apply (WriteAuthorizedSshKeysFile_merge demo_keys_path _ 1000 1000
           (Some 1000%Z) (Some 1000%Z) demo_keys_world
           (Py.join (file_lines demo_entries)) (octal 6 0 0) 1000 1000 "/tmp/tmpA").
  - reflexivity.
  - reflexivity.
  - reflexivity.
  - vm_compute. reflexivity.
  - vm_compute. reflexivity.
Defined.
